(** * McNaughton / Knierim Neurolab conversion: parsers and session merges

    A shallow embedding of [cel_file.py], [rma_file.py] and the merge steps
    of [convert_session.py], and the properties of the specification that
    were checked against it.

    Conventions of the embedding:
    - a Python [str] is a [string]; its characters are the code points
      below 256 (the wire contract of the text format is ASCII);
    - a Python exception is a value of [exn] returned on the left of a sum;
    - a float that may be NaN is an [option]: [None] is NaN;
    - an insertion-ordered [dict] is an association list. *)

From Stdlib Require Import ZArith NArith List Bool Lia.
From Stdlib Require Import Strings.Byte Strings.Ascii Strings.String.
From Stdlib Require Import Numbers.DecimalString.
From Stdlib Require Import Floats.SpecFloat.
From Stdlib Require Import Sorting.Sorted Sorting.Permutation.
From Stdlib Require Import Structures.OrdersEx.
Import ListNotations.

Local Open Scope string_scope.
Local Open Scope Z_scope.

(** ** Exceptions *)

Inductive exn : Type :=
| ValueError (msg : string)
| KeyError (key : string)
| IndexError
| ParserError (msg : string)
| EmptyDataError
| TypeError (msg : string).

Definition result (A : Type) : Type := (exn + A)%type.

Definition ret {A} (a : A) : result A := inr a.
Definition raise {A} (e : exn) : result A := inl e.
Definition bind {A B} (m : result A) (k : A -> result B) : result B :=
  match m with
  | inl e => inl e
  | inr a => k a
  end.

Notation "x <- m ;; k" := (bind m (fun x => k))
  (at level 61, m at next level, right associativity).

(** ** Python string operations *)

Module PyStr.

(** [str.isspace] on one character, for the code points below 256:
    TAB..CR, FS..US, SPACE, NEL and NBSP.  The class [\s] of [re] on a
    [str] pattern is the same set. *)
Definition isspace (c : ascii) : bool :=
  let n := N_of_ascii c in
  (((9 <=? n) && (n <=? 13)) || ((28 <=? n) && (n <=? 32))
   || (n =? 133) || (n =? 160))%N.

Definition isdigit (c : ascii) : bool :=
  let n := N_of_ascii c in ((48 <=? n) && (n <=? 57))%N.

Definition digit_val (c : ascii) : option Z :=
  if isdigit c then Some (Z.of_N (N_of_ascii c) - 48) else None.

Definition is_empty (s : string) : bool :=
  match s with EmptyString => true | String _ _ => false end.

(** [s.lstrip()] *)
Fixpoint lstrip (s : string) : string :=
  match s with
  | EmptyString => EmptyString
  | String c s' => if isspace c then lstrip s' else s
  end.

(** [s.rstrip()] *)
Fixpoint rstrip (s : string) : string :=
  match s with
  | EmptyString => EmptyString
  | String c s' =>
      let r := rstrip s' in
      if is_empty r && isspace c then EmptyString else String c r
  end.

(** [s.strip()] *)
Definition strip (s : string) : string := lstrip (rstrip s).

(** [s.lstrip(chars)] for a one-character [chars] *)
Fixpoint lstrip_char (ch : ascii) (s : string) : string :=
  match s with
  | EmptyString => EmptyString
  | String c s' => if Ascii.eqb c ch then lstrip_char ch s' else s
  end.

(** [ch in s] *)
Fixpoint contains (ch : ascii) (s : string) : bool :=
  match s with
  | EmptyString => false
  | String c s' => Ascii.eqb c ch || contains ch s'
  end.

(** [s.split(ch)]: never empty, [""] gives [[""]]. *)
Fixpoint split (ch : ascii) (s : string) : list string :=
  match s with
  | EmptyString => [EmptyString]
  | String c s' =>
      if Ascii.eqb c ch then EmptyString :: split ch s'
      else match split ch s' with
           | h :: t => String c h :: t
           | [] => [String c EmptyString]
           end
  end.

(** [s.split(ch, 1)]: one part when [ch] does not occur, else the text
    before the first [ch] and the text after it. *)
Fixpoint split1 (ch : ascii) (s : string) : list string :=
  match s with
  | EmptyString => [EmptyString]
  | String c s' =>
      if Ascii.eqb c ch then [EmptyString; s']
      else match split1 ch s' with
           | h :: t => String c h :: t
           | [] => [String c EmptyString]
           end
  end.

(** [s.split()]: the maximal runs of non-whitespace characters. *)
Fixpoint split_ws_aux (s : string) (cur : string) : list string :=
  match s with
  | EmptyString => if is_empty cur then [] else [cur]
  | String c s' =>
      if isspace c
      then (if is_empty cur then split_ws_aux s' EmptyString
            else cur :: split_ws_aux s' EmptyString)
      else split_ws_aux s' (cur ++ String c EmptyString)
  end.

Definition split_ws (s : string) : list string := split_ws_aux s EmptyString.

(** [s.startswith(p)] *)
Definition startswith (p s : string) : bool := String.prefix p s.

(** [c.upper()] for one character below 256: the letters a..z and the
    letters from 224 to 254 other than the division sign go 32 down, and
    the sharp s (223) becomes SS.  The capitals of the micro sign (181)
    and of the y with diaeresis (255) lie above 255; these two stand for
    their capitals here, being, like them, different from every character
    the program compares a name with. *)
Definition upper_char (c : ascii) : string :=
  let n := N_of_ascii c in
  if (((97 <=? n) && (n <=? 122)) ||
      ((224 <=? n) && (n <=? 254) && negb (n =? 247)))%N
  then String (ascii_of_N (n - 32)) EmptyString
  else if (n =? 223)%N then "SS"
  else String c EmptyString.

(** [c.lower()] on the ASCII letters, as [re.IGNORECASE] needs it for a
    word of ASCII letters. *)
Definition lower_char (c : ascii) : ascii :=
  let n := N_of_ascii c in
  if ((65 <=? n) && (n <=? 90))%N then ascii_of_N (n + 32) else c.

(** [s.upper()] *)
Fixpoint upper (s : string) : string :=
  match s with
  | EmptyString => EmptyString
  | String c s' => upper_char c ++ upper s'
  end.

(** A literal lower-case word matched under [re.IGNORECASE] at the start
    of [s]: the rest of [s] after it, if it matches. *)
Fixpoint match_word_ci (w s : string) : option string :=
  match w with
  | EmptyString => Some s
  | String a w' =>
      match s with
      | EmptyString => None
      | String c s' =>
          if Ascii.eqb (lower_char c) a then match_word_ci w' s' else None
      end
  end.

(** The first maximal run of decimal digits of [s]: [re.search(r"(\d+)", s)]. *)
Fixpoint take_digits (s : string) : string :=
  match s with
  | EmptyString => EmptyString
  | String c s' => if isdigit c then String c (take_digits s') else EmptyString
  end.

Fixpoint search_digits (s : string) : option string :=
  match s with
  | EmptyString => None
  | String c s' => if isdigit c then Some (take_digits s) else search_digits s'
  end.

(** Universal-newline translation of a file read in text mode:
    CR LF and a lone CR both become LF. *)
Fixpoint universal_newlines (s : string) : string :=
  match s with
  | EmptyString => EmptyString
  | String c s' =>
      if Ascii.eqb c "013"
      then match s' with
           | String "010" _ => universal_newlines s'
           | _ => String "010" (universal_newlines s')
           end
      else String c (universal_newlines s')
  end.

(** The line boundaries of [str.splitlines] below code point 256:
    LF, VT, FF, CR, FS, GS, RS and NEL (CR LF counts once). *)
Definition is_linebreak (c : ascii) : bool :=
  let n := N_of_ascii c in
  (((10 <=? n) && (n <=? 13)) || ((28 <=? n) && (n <=? 30)) || (n =? 133))%N.

(** [s.splitlines()] *)
Fixpoint splitlines (s : string) : list string :=
  match s with
  | EmptyString => []
  | String c s' =>
      if is_linebreak c then
        match s' with
        | String c' s'' =>
            if Ascii.eqb c "013" && Ascii.eqb c' "010"
            then EmptyString :: splitlines s''
            else EmptyString :: splitlines s'
        | EmptyString => [EmptyString]
        end
      else match splitlines s' with
           | h :: t => String c h :: t
           | [] => [String c EmptyString]
           end
  end.

(** The lines a text-mode file object yields when iterated: the pieces
    between line feeds after newline translation, without a final empty
    piece. *)
Fixpoint file_lines_lf (s : string) : list string :=
  match s with
  | EmptyString => []
  | String c s' =>
      if Ascii.eqb c "010" then EmptyString :: file_lines_lf s'
      else match file_lines_lf s' with
           | h :: t => String c h :: t
           | [] => [String c EmptyString]
           end
  end.

Definition file_lines (s : string) : list string :=
  file_lines_lf (universal_newlines s).

(** The white space that [int] skips around a literal: the ASCII white
    space TAB..CR and SPACE, and NEL and NBSP, which [int] turns into
    spaces first.  The separators FS..US, which [str.strip] removes, are
    no white space for [int]. *)
Definition int_isspace (c : ascii) : bool :=
  let n := N_of_ascii c in
  (((9 <=? n) && (n <=? 13)) || (n =? 32) || (n =? 133) || (n =? 160))%N.

Fixpoint int_lstrip (s : string) : string :=
  match s with
  | EmptyString => EmptyString
  | String c s' => if int_isspace c then int_lstrip s' else s
  end.

Fixpoint int_rstrip (s : string) : string :=
  match s with
  | EmptyString => EmptyString
  | String c s' =>
      let r := int_rstrip s' in
      if is_empty r && int_isspace c then EmptyString else String c r
  end.

Definition int_strip (s : string) : string := int_lstrip (int_rstrip s).

(** The number of decimal digits of a text, and the most that [int]
    converts ([sys.get_int_max_str_digits()]). *)
Fixpoint count_digits (s : string) : N :=
  match s with
  | EmptyString => 0%N
  | String c s' => ((if isdigit c then 1 else 0) + count_digits s')%N
  end.

Definition int_max_str_digits : N := 4300%N.

(** [int(s)] of a [str]: surrounding white space is skipped, then comes
    an optional sign, then decimal digits, where single underscores may
    separate digits; a literal of more than 4300 digits is refused.
    [None] stands for [ValueError]. *)
Fixpoint int_digits (s : string) (acc : Z) (after_digit : bool) : option Z :=
  match s with
  | EmptyString => if after_digit then Some acc else None
  | String c s' =>
      match digit_val c with
      | Some d => int_digits s' (10 * acc + d) true
      | None =>
          if Ascii.eqb c "_" && after_digit then int_digits s' acc false
          else None
      end
  end.

Definition int_signed (s : string) : option Z :=
  match s with
  | String "-" s' => option_map Z.opp (int_digits s' 0 false)
  | String "+" s' => int_digits s' 0 false
  | _ => int_digits s 0 false
  end.

(** The value of a literal, whatever its length. *)
Definition int_of_literal (s : string) : option Z := int_signed (int_strip s).

Definition int (s : string) : option Z :=
  if (int_max_str_digits <? count_digits s)%N then None else int_of_literal s.

End PyStr.

(** ** Numbers read from the data rows

    [V] stands for the float64 values other than NaN, taken up to numeric
    equality; a possibly-NaN float is an [option V].  [fleb] is [<=],
    [parse_float] is pandas' reading of one token as a number: [None] when
    the token is no number, [Some None] when it denotes NaN; and
    [float_of_bool] gives 1.0 for [True] and 0.0 for [False]. *)

Class Float64 (V : Type) : Type := {
  fleb : V -> V -> bool;
  parse_float : string -> option (option V);
  float_of_bool : bool -> V
}.

Definition feqb {V} `{Float64 V} (a b : V) : bool := fleb a b && fleb b a.

(** The same interface over the integers, reading plain decimal integers:
    an optional sign and digits. *)
Definition decimal_int (s : string) : option Z :=
  if PyStr.contains "_" s then None else PyStr.int_signed s.

#[export] Instance Float64_Z : Float64 Z := {|
  fleb := Z.leb;
  parse_float := fun s => option_map Some (decimal_int s);
  float_of_bool := fun b => if b then 1 else 0
|}.

(** ** Sorting

    [list.sort(key=...)], [sorted] and [argsort(kind="mergesort")] return
    the stable ascending rearrangement of their input, which is unique for
    a total order on the keys; insertion sort computes it.  [numpy.sort] of
    an array of numbers returns the same array, equal numbers being one
    value. *)

Section Sorting.
Context {A : Type} (le : A -> A -> bool).

Fixpoint insert_sorted (x : A) (l : list A) : list A :=
  match l with
  | [] => [x]
  | y :: l' => if le x y then x :: l else y :: insert_sorted x l'
  end.

Fixpoint stable_sort (l : list A) : list A :=
  match l with
  | [] => []
  | x :: l' => insert_sorted x (stable_sort l')
  end.
End Sorting.

(** Comparison of the tuples used as dictionary keys. *)
Definition epoch_key : Type := (Z * Z * string)%type.
Definition unit_key : Type := (string * Z)%type.

Definition epoch_key_leb (a b : epoch_key) : bool :=
  let '(s1, e1, t1) := a in
  let '(s2, e2, t2) := b in
  if s1 <? s2 then true
  else if s2 <? s1 then false
  else if e1 <? e2 then true
  else if e2 <? e1 then false
  else String.leb t1 t2.

Definition unit_key_leb (a b : unit_key) : bool :=
  let '(t1, c1) := a in
  let '(t2, c2) := b in
  match String.compare t1 t2 with
  | Lt => true
  | Gt => false
  | Eq => c1 <=? c2
  end.

Definition epoch_key_eqb (a b : epoch_key) : bool :=
  let '(s1, e1, t1) := a in
  let '(s2, e2, t2) := b in
  (s1 =? s2) && (e1 =? e2) && String.eqb t1 t2.

Definition unit_key_eqb (a b : unit_key) : bool :=
  let '(t1, c1) := a in
  let '(t2, c2) := b in
  String.eqb t1 t2 && (c1 =? c2).

(** ** cel_file.py *)

(** What [_parse_time_str] returns: [float("nan")] or a Python integer. *)
Inductive seconds : Type :=
| nan
| sec (z : Z).

Definition isnan (t : seconds) : bool :=
  match t with nan => true | sec _ => false end.

(** A cell of the [DataFrame]: missing, a number, a boolean in a column
    made of boolean words, or the text of a token in any other column. *)
Inductive cell (V : Type) : Type :=
| NA
| Num (v : V)
| Flag (b : bool)
| Str (s : string).
Arguments NA {V}.
Arguments Num {V} v.
Arguments Flag {V} b.
Arguments Str {V} s.

(** A column label: a field name, or a position when no names were given. *)
Inductive label : Type :=
| LInt (n : nat)
| LStr (s : string).

Record DataFrame (V : Type) : Type := mkDataFrame {
  columns : list label;
  rows : list (list (cell V))
}.
Arguments mkDataFrame {V}.
Arguments columns {V}.
Arguments rows {V}.

(** The header [dict]: the last value stored under a key wins. *)
Definition dict : Type := list (string * string).

Fixpoint dict_set (k v : string) (d : dict) : dict :=
  match d with
  | [] => [(k, v)]
  | (k', v') :: d' =>
      if String.eqb k' k then (k, v) :: d' else (k', v') :: dict_set k v d'
  end.

Fixpoint dict_get (k : string) (d : dict) (default : string) : string :=
  match d with
  | [] => default
  | (k', v') :: d' => if String.eqb k' k then v' else dict_get k d' default
  end.

Record CelFile (V : Type) : Type := mkCelFile {
  path : string;
  fields : list string;
  header : dict;
  data : DataFrame V;
  cluster : option Z;
  session_type : string;
  start_time_sec : seconds;
  end_time_sec : seconds;
  has_position : bool
}.
Arguments mkCelFile {V}.
Arguments path {V}.
Arguments fields {V}.
Arguments header {V}.
Arguments data {V}.
Arguments cluster {V}.
Arguments session_type {V}.
Arguments start_time_sec {V}.
Arguments end_time_sec {V}.
Arguments has_position {V}.

(** [Path(name).stem]: the name without its last suffix; a dot in first or
    last position starts no suffix. *)
Fixpoint rsplit_dot (s : string) : option (string * string) :=
  match s with
  | EmptyString => None
  | String c s' =>
      match rsplit_dot s' with
      | Some (b, a) => Some (String c b, a)
      | None => if Ascii.eqb c "." then Some (EmptyString, s') else None
      end
  end.

Definition stem (name : string) : string :=
  match rsplit_dot name with
  | Some (b, a) => if PyStr.is_empty b || PyStr.is_empty a then name else b
  | None => name
  end.

(** The [ValueError] of [int] on a literal of more than 4300 digits; its
    text goes on with the number of digits. *)
Definition ExceedsDigitLimit : exn :=
  ValueError "Exceeds the limit (4300 digits) for integer string conversion".

(** [int(m.group(1))] raises on a run of more than 4300 digits, and the
    error leaves [__post_init__]. *)
Definition _parse_cluster (header : dict) : result (option Z) :=
  let raw := dict_get "Cluster" header "" in
  if PyStr.is_empty raw then ret None
  else match PyStr.search_digits raw with
       | Some m =>
           match PyStr.int m with
           | Some n => ret (Some n)
           | None => raise ExceedsDigitLimit
           end
       | None => ret None
       end.

Definition _infer_session_type (path : string) : string :=
  let name := PyStr.upper (stem path) in
  if PyStr.startswith "BL" name then "BL"
  else if PyStr.startswith "ES" name then "ES"
  else if PyStr.startswith "MC" name then "MC"
  else "unknown".

(** [[int(p) for p in parts]]: [None] when some [int(p)] raises
    [ValueError]. *)
Fixpoint ints_of (parts : list string) : option (list Z) :=
  match parts with
  | [] => Some []
  | p :: ps =>
      match PyStr.int p with
      | None => None
      | Some z =>
          match ints_of ps with
          | None => None
          | Some zs => Some (z :: zs)
          end
      end
  end.

Definition _parse_time_str (time_str : string) : seconds :=
  if PyStr.is_empty time_str then nan
  else
    let parts := PyStr.split ":" (PyStr.strip time_str) in
    match ints_of parts with
    | None => nan
    | Some parts =>
        match parts with
        | [h; m; s] => sec (h * 3600 + m * 60 + s)
        | [m; s] => sec (m * 60 + s)
        | _ => nan
        end
    end.

(** [x in l] for a list of strings. *)
Definition str_in (x : string) (l : list string) : bool :=
  existsb (String.eqb x) l.

(** The dataclass constructor followed by [__post_init__]. *)
Definition CelFile_init {V} (path : string) (fields : list string)
    (header : dict) (data : DataFrame V) : result (CelFile V) :=
  cluster <- _parse_cluster header ;;
  ret (mkCelFile path fields header data
         cluster
         (_infer_session_type path)
         (_parse_time_str (dict_get "Start time" header ""))
         (_parse_time_str (dict_get "End time" header ""))
         (str_in "pos_x" fields && str_in "pos_y" fields)).

Section Frames.
Context {V : Type} `{Float64 V}.

Definition isna (c : cell V) : bool :=
  match c with NA => true | _ => false end.

Fixpoint column_index (name : string) (cols : list label) : option nat :=
  match cols with
  | [] => None
  | LStr s :: cols' =>
      if String.eqb s name then Some O
      else option_map S (column_index name cols')
  | LInt _ :: cols' => option_map S (column_index name cols')
  end.

(** [df[name]]: the column, or [KeyError]. *)
Definition getitem (df : DataFrame V) (name : string) : result (list (cell V)) :=
  match column_index name (columns df) with
  | None => raise (KeyError name)
  | Some j => ret (map (fun r => nth j r NA) (rows df))
  end.

(** [pd.to_numeric(col, errors="coerce").to_numpy(dtype=np.float64)] *)
Definition coerce (c : cell V) : option V :=
  match c with
  | NA => None
  | Num v => Some v
  | Flag b => Some (float_of_bool b)
  | Str s => match parse_float s with
             | Some (Some v) => Some v
             | _ => None
             end
  end.

Definition to_numeric (col : list (cell V)) : list (option V) := map coerce col.

(** [df.dropna(how="all")] *)
Definition dropna_all (df : DataFrame V) : DataFrame V :=
  mkDataFrame (columns df)
    (filter (fun r => negb (forallb isna r)) (rows df)).

(** The properties of [CelFile]. *)
Definition spike_times (cel : CelFile V) : result (list (option V)) :=
  col <- getitem (data cel) "time" ;;
  ret (to_numeric col).

Definition pos_x (cel : CelFile V) : result (option (list (option V))) :=
  if negb (has_position cel) then ret None
  else col <- getitem (data cel) "pos_x" ;; ret (Some (to_numeric col)).

Definition pos_y (cel : CelFile V) : result (option (list (option V))) :=
  if negb (has_position cel) then ret None
  else col <- getitem (data cel) "pos_y" ;; ret (Some (to_numeric col)).

End Frames.

(** ** pandas.read_csv as [read_cel_file] calls it

    [read_csv(path, sep=r"\s+", engine="python", skiprows=n, names=fields)]:
    the python engine reads the file line by line, skips the first [n]
    lines, strips each remaining line and splits it on whitespace runs,
    drops blank lines, pads short rows with missing cells, and raises
    [ParserError] on a row longer than the table is wide.  When the first
    row has more cells than there are names, the extra leading cells form
    the row index, which the frame's columns do not include.  A column
    whose cells are all numbers or missing holds numbers; any other
    column whose cells are all boolean words or missing holds booleans;
    any other column keeps the text of its tokens. *)

Definition na_values : list string :=
  [""; "#N/A"; "#N/A N/A"; "#NA"; "-1.#IND"; "-1.#QNAN"; "-NaN"; "-nan";
   "1.#IND"; "1.#QNAN"; "<NA>"; "N/A"; "NA"; "NULL"; "NaN"; "None"; "n/a";
   "nan"; "null"].

Definition is_na_token (t : string) : bool := str_in t na_values.

(** [re.split(r"\s+", line.strip())] *)
Definition tokens (line : string) : list string :=
  let s := PyStr.strip line in
  if PyStr.is_empty s then [EmptyString] else PyStr.split_ws s.

(** A line the reader keeps: more than one cell, or one cell that is not
    blank. *)
Definition keeps_line (r : list string) : bool :=
  match r with
  | [] => false
  | [t] => negb (PyStr.is_empty (PyStr.strip t))
  | _ => true
  end.

(** The type of a column: [float64] (or [int64]), [bool], [object]. *)
Inductive dtype : Type :=
| Float
| Boolean
| Object.

(** The words read as booleans. *)
Definition bool_word (t : string) : option bool :=
  if str_in t ["True"; "TRUE"; "true"] then Some true
  else if str_in t ["False"; "FALSE"; "false"] then Some false
  else None.

Fixpoint has_duplicates (l : list string) : bool :=
  match l with
  | [] => false
  | x :: l' => str_in x l' || has_duplicates l'
  end.

Section ReadCsv.
Context {V : Type} `{Float64 V}.

(** A cell before type inference: [None] where the row ended early. *)
Definition pad (n : nat) (r : list string) : list (option string) :=
  (map Some r ++ repeat None (n - List.length r))%list.

Definition raw_missing (c : option string) : bool :=
  match c with
  | None => true
  | Some t => is_na_token t
  end.

Definition numeric_ok (c : option string) : bool :=
  raw_missing c ||
  match c with
  | Some t => match parse_float t with Some _ => true | None => false end
  | None => false
  end.

Definition bool_ok (c : option string) : bool :=
  raw_missing c ||
  match c with
  | Some t => match bool_word t with Some _ => true | None => false end
  | None => false
  end.

(** The type inferred for column [j]: numbers are tried first, then
    booleans. *)
Definition col_dtype (body : list (list (option string))) (j : nat) : dtype :=
  if forallb (fun r => numeric_ok (nth j r None)) body then Float
  else if forallb (fun r => bool_ok (nth j r None)) body then Boolean
  else Object.

Definition convert_cell (d : dtype) (c : option string) : cell V :=
  match c with
  | None => NA
  | Some t =>
      if is_na_token t then NA
      else
        match d with
        | Float =>
            match parse_float t with
            | Some (Some v) => Num v
            | _ => NA
            end
        | Boolean =>
            match bool_word t with
            | Some b => Flag b
            | None => Str t
            end
        | Object => Str t
        end
  end.

Definition convert_row (dtypes : list dtype) (r : list (option string))
  : list (cell V) :=
  map (fun p => convert_cell (fst p) (snd p)) (combine dtypes r).

Definition read_csv (text : string) (skiprows : nat) (names : list string)
  : result (DataFrame V) :=
  if has_duplicates names
  then raise (ValueError "Duplicate names are not allowed.")
  else
    let content :=
      filter keeps_line (map tokens (skipn skiprows (PyStr.file_lines text))) in
    match names, content with
    | [], [] => raise EmptyDataError
    | _, _ =>
        let first_len :=
          match content with
          | [] => List.length names
          | r :: _ => List.length r
          end in
        let ncols :=
          match names with
          | [] => first_len
          | _ => List.length names
          end in
        let implicit := (first_len - ncols)%nat in
        let col_len := (ncols + implicit)%nat in
        if existsb (fun r => (col_len <? List.length r)%nat) content
        then raise (ParserError "Expected fewer fields")
        else
          let labels :=
            match names with
            | [] => map LInt (seq 0 ncols)
            | _ => map LStr names
            end in
          let body := map (fun r => skipn implicit (pad col_len r)) content in
          let dtypes := map (col_dtype body) (seq 0 ncols) in
          ret (mkDataFrame labels (map (convert_row dtypes) body))
    end.

End ReadCsv.

(** ** read_cel_file *)

Record scan_state : Type := mkScan {
  sc_fields : option (list string);
  sc_header : dict;
  sc_endheader_idx : option nat
}.

(** [re.match(r"^%?\s*fields\s*:", s, flags=re.IGNORECASE)] *)
Definition fields_re (s : string) : bool :=
  let s1 := match s with String "%" s' => s' | _ => s end in
  match PyStr.match_word_ci "fields" (PyStr.lstrip s1) with
  | Some rest =>
      match PyStr.lstrip rest with
      | String ":" _ => true
      | _ => false
      end
  | None => false
  end.

Definition ENDHEADER : string := "%%ENDHEADER".

(** The two tests of the loop body that come before the sentinel test, on
    the stripped line [s]. *)
Definition scan_line (s : string) (st : scan_state) : result scan_state :=
  st1 <- (if PyStr.startswith "%" s && PyStr.contains ":" s && negb (fields_re s)
          then
            let kv := PyStr.strip (PyStr.lstrip_char "%" s) in
            match PyStr.split1 ":" kv with
            | [k; v] =>
                ret (mkScan (sc_fields st)
                       (dict_set (PyStr.strip k) (PyStr.strip v) (sc_header st))
                       (sc_endheader_idx st))
            | _ => raise (ValueError "not enough values to unpack")
            end
          else ret st) ;;
  if fields_re s
  then
    match PyStr.split1 ":" s with
    | _ :: rhs :: _ =>
        ret (mkScan (Some (PyStr.split_ws (PyStr.strip rhs)))
               (sc_header st1) (sc_endheader_idx st1))
    | _ => raise IndexError
    end
  else ret st1.

(** The loop over [enumerate(lines[:800])], from index [i] on. *)
Fixpoint scan (lines : list string) (i : nat) (st : scan_state)
  : result scan_state :=
  match lines with
  | [] => ret st
  | line :: rest =>
      let s := PyStr.strip line in
      st' <- scan_line s st ;;
      if String.eqb s ENDHEADER
      then ret (mkScan (sc_fields st') (sc_header st') (Some i))
      else scan rest (S i) st'
  end.

(** The lines the loop looks at: those up to and including the first one
    that is the sentinel once stripped. *)
Fixpoint scan_window (lines : list string) : list string :=
  match lines with
  | [] => []
  | line :: rest =>
      if String.eqb (PyStr.strip line) ENDHEADER then [line]
      else line :: scan_window rest
  end.

Definition MissingFieldsDeclaration (path : string) : exn :=
  ValueError ("No Fields line found in " ++ path).

Definition MissingEndHeader (path : string) : exn :=
  ValueError ("No %%ENDHEADER found in " ++ path).

Definition read_lines (text : string) : list string :=
  PyStr.splitlines (PyStr.universal_newlines text).

Definition read_cel_file {V} `{Float64 V} (path text : string)
  : result (CelFile V) :=
  let lines := read_lines text in
  st <- scan (firstn 800 lines) 0 (mkScan None [] None) ;;
  match sc_fields st with
  | None => raise (MissingFieldsDeclaration path)
  | Some fields =>
      match sc_endheader_idx st with
      | None => raise (MissingEndHeader path)
      | Some endheader_idx =>
          let data_start := S endheader_idx in
          df <- read_csv text data_start fields ;;
          CelFile_init path fields (sc_header st) (dropna_all df)
      end
  end.

(** ** rma_file.py *)

Definition RMA_FILE_SIZE : nat := Z.to_nat 32768.
Definition MAP_SHAPE : nat * nat := (64, 64)%nat.
Definition N_PIXELS : nat := (fst MAP_SHAPE * snd MAP_SHAPE)%nat.

(** The value of one byte. *)
Definition byte_val (b : byte) : Z := Z.of_N (Byte.to_N b).

(** Four bytes, most significant first, as an unsigned 32-bit number. *)
Definition be_u32 (b0 b1 b2 b3 : byte) : Z :=
  Z.lor (Z.shiftl (byte_val b0) 24)
    (Z.lor (Z.shiftl (byte_val b1) 16)
       (Z.lor (Z.shiftl (byte_val b2) 8) (byte_val b3))).

(** dtype [">i4"]: two's complement. *)
Definition be_i32 (b0 b1 b2 b3 : byte) : Z :=
  let u := be_u32 b0 b1 b2 b3 in
  if Z.testbit u 31 then u - 2 ^ 32 else u.

(** dtype [">f4"]: an IEEE-754 binary32 value, kept as its three fields:
    sign bit, 8-bit biased exponent, 23-bit fraction. *)
Record float32 : Type := mkFloat32 {
  f_sign : bool;
  f_exponent : Z;
  f_fraction : Z
}.

Definition be_f32 (b0 b1 b2 b3 : byte) : float32 :=
  let u := be_u32 b0 b1 b2 b3 in
  mkFloat32 (Z.testbit u 31)
    (Z.land (Z.shiftr u 23) 255)
    (Z.land u (2 ^ 23 - 1)).

(** The number a binary32 stands for: zero, a subnormal, a normal number
    with its hidden leading bit, an infinity or a NaN. *)
Definition float32_value (f : float32) : spec_float :=
  if f_exponent f =? 0 then
    match f_fraction f with
    | Zpos m => S754_finite (f_sign f) m (-149)
    | _ => S754_zero (f_sign f)
    end
  else if f_exponent f =? 255 then
    (if f_fraction f =? 0 then S754_infinity (f_sign f) else S754_nan)
  else
    match f_fraction f + 2 ^ 23 with
    | Zpos m => S754_finite (f_sign f) m (f_exponent f - 150)
    | _ => S754_nan
    end.

(** [np.frombuffer(data, dtype, count, offset)] for a 4-byte dtype read by
    [dec]: [ValueError] when the buffer is too short. *)
Fixpoint decode_items {A} (dec : byte -> byte -> byte -> byte -> A)
    (count : nat) (bs : list byte) : option (list A) :=
  match count with
  | O => Some []
  | S n =>
      match bs with
      | b0 :: b1 :: b2 :: b3 :: rest =>
          option_map (cons (dec b0 b1 b2 b3)) (decode_items dec n rest)
      | _ => None
      end
  end.

Definition frombuffer {A} (dec : byte -> byte -> byte -> byte -> A)
    (data : list byte) (count offset : nat) : result (list A) :=
  match decode_items dec count (skipn offset data) with
  | Some l => ret l
  | None => raise (ValueError "buffer is smaller than requested size")
  end.

(** [a.reshape((nrows, ncols))] of a flat array: row-major. *)
Fixpoint chunk_rows {A} (nrows ncols : nat) (l : list A) : list (list A) :=
  match nrows with
  | O => []
  | S n => firstn ncols l :: chunk_rows n ncols (skipn ncols l)
  end.

Definition reshape {A} (shape : nat * nat) (l : list A) : result (list (list A)) :=
  if (List.length l =? fst shape * snd shape)%nat
  then ret (chunk_rows (fst shape) (snd shape) l)
  else raise (ValueError "cannot reshape array")%string.

(** [re.search(r"CELL~(\d+)", s)]: the digits after the first [CELL~] that
    digits follow. *)
Fixpoint search_cell (s : string) : option string :=
  match s with
  | EmptyString => None
  | String _ s' =>
      if PyStr.startswith "CELL~" s
      then match PyStr.take_digits (String.substring 5 (String.length s - 5) s) with
           | EmptyString => search_cell s'
           | ds => Some ds
           end
      else search_cell s'
  end.

(** The digits are those of a file name, which is too short to reach the
    limit of 4300 digits of [int]. *)
Definition _parse_rma_filename (name : string) : string * option Z :=
  let upper := PyStr.upper name in
  let cell_number :=
    match search_cell upper with
    | Some ds => PyStr.int_of_literal ds
    | None => None
    end in
  let session_type :=
    if PyStr.startswith "ES" upper then "ES"
    else if PyStr.startswith "MC" upper then "MC"
    else if PyStr.startswith "BL" upper then "BL"
    else "unknown" in
  (session_type, cell_number).

Record RmaFile : Type := mkRmaFile {
  rma_path : string;
  rate_map : list (list float32);
  occupancy_map : list (list Z);
  rma_session_type : string;
  cell_number : option Z
}.

(** [f"{path}: expected {RMA_FILE_SIZE} bytes, got {len(data)}"] *)
Definition UnexpectedBinarySize (path : string) (got : nat) : exn :=
  ValueError (path ++ ": expected 32768 bytes, got "
                ++ NilEmpty.string_of_uint (Nat.to_uint got)).

Definition read_rma_file (path : string) (data : list byte) : result RmaFile :=
  if negb (List.length data =? RMA_FILE_SIZE)%nat
  then raise (UnexpectedBinarySize path (List.length data))
  else
    flat_rate <- frombuffer be_f32 data N_PIXELS 0 ;;
    rate_map <- reshape MAP_SHAPE flat_rate ;;
    flat_occ <- frombuffer be_i32 data N_PIXELS (N_PIXELS * 4) ;;
    occupancy_map <- reshape MAP_SHAPE flat_occ ;;
    let '(session_type, cell_number) := _parse_rma_filename path in
    ret (mkRmaFile path rate_map occupancy_map session_type cell_number).

(** The writer's side of the layout, used to state the round trip. *)
Definition u32_bytes (u : Z) : list byte :=
  map (fun k => match Byte.of_N (Z.to_N (Z.land (Z.shiftr u k) 255)) with
                | Some b => b
                | None => x00
                end) [24; 16; 8; 0].

Definition i32_bytes (z : Z) : list byte := u32_bytes (z mod 2 ^ 32).

Definition f32_bytes (f : float32) : list byte :=
  u32_bytes (Z.lor (Z.shiftl (Z.b2z (f_sign f)) 31)
               (Z.lor (Z.shiftl (f_exponent f) 23) (f_fraction f))).

Definition float32_wf (f : float32) : Prop :=
  0 <= f_exponent f < 256 /\ 0 <= f_fraction f < 2 ^ 23.

Definition int32_wf (z : Z) : Prop := - 2 ^ 31 <= z < 2 ^ 31.

(** A whole file written from a flat rate array and a flat occupancy
    array. *)
Definition rma_bytes (rates : list float32) (occ : list Z) : list byte :=
  (flat_map f32_bytes rates ++ flat_map i32_bytes occ)%list.

(** Known patterns for the two halves. *)
Definition sample_rates : list float32 :=
  map (fun k => mkFloat32 (Nat.even k) 127 (Z.of_nat k)) (seq 0 N_PIXELS).

Definition sample_occupancy : list Z :=
  map (fun k => Z.of_nat k - 2048) (seq 0 N_PIXELS).

(** ** convert_session.py *)

(** One row of the rate-map table. *)
Record MapRow : Type := mkMapRow {
  row_tetrode : string;
  row_source_file : string;
  row_session_type : string;
  row_cell_number : Z;
  row_rate_map : list (list float32);
  row_occupancy_map : list (list Z)
}.

(** The loop of [_add_rate_maps] over the files of one tetrode directory:
    a file that fails to parse is reported and skipped. *)
Fixpoint rma_rows (tt_name : string) (rma_paths : list (string * list byte))
  : list MapRow :=
  match rma_paths with
  | [] => []
  | (rma_path, bytes) :: rest =>
      match read_rma_file rma_path bytes with
      | inr rma =>
          mkMapRow tt_name rma_path (rma_session_type rma)
            (match cell_number rma with Some n => n | None => -1 end)
            (rate_map rma) (occupancy_map rma)
          :: rma_rows tt_name rest
      | inl _ => rma_rows tt_name rest
      end
  end.

(** [_add_rate_maps] from its loop on (lines 289-337), for the sorted
    tetrode directories [tt_dirs] of the analyzed root: the rows of the
    table, [None] when there are none. *)
Definition _add_rate_maps (tt_dirs : list (string * list (string * list byte)))
    (stub_test : bool) : option (list MapRow) :=
  let rows :=
    flat_map (fun d =>
      let rma_paths := if stub_test then firstn 2 (snd d) else snd d in
      rma_rows (fst d) rma_paths) tt_dirs in
  match rows with
  | [] => None
  | _ => Some rows
  end.

(** *** The tetrode directories *)

(** [int(p.name[2:])], the sort key of a directory. *)
Definition tt_key (name : string) : option Z :=
  PyStr.int (String.substring 2 (String.length name - 2) name).

(** The keys [sorted] computes for all the items before it compares any:
    the first name whose key is no integer raises [ValueError] (its text,
    which quotes the name, is not kept). *)
Fixpoint keyed {A} (name : A -> string) (items : list A) : result (list (Z * A)) :=
  match items with
  | [] => ret []
  | item :: rest =>
      match tt_key (name item) with
      | Some k => later <- keyed name rest ;; ret ((k, item) :: later)
      | None => raise (ValueError "invalid literal for int() with base 10")
      end
  end.

(** [sorted(items, key=lambda p: int(p.name[2:]))] *)
Definition sorted_by_number {A} (name : A -> string) (items : list A)
  : result (list A) :=
  decorated <- keyed name items ;;
  ret (map snd (stable_sort (fun a b => fst a <=? fst b) decorated)).

(** [sorted([p for p in root.iterdir()
             if p.is_dir() and p.name.upper().startswith("TT")],
            key=lambda p: int(p.name[2:]))]
    for the entries of [root], each a name and whether it is a
    directory. *)
Definition tt_dirs (entries : list (string * bool)) : result (list string) :=
  sorted_by_number (fun name => name)
    (map fst (filter (fun p => snd p && PyStr.startswith "TT" (PyStr.upper (fst p)))
                entries)).

(** The same for the directories of [root] listed with what they hold. *)
Definition tt_dirs_of {A} (dirs : list (string * A)) : result (list (string * A)) :=
  sorted_by_number fst
    (filter (fun d => PyStr.startswith "TT" (PyStr.upper (fst d))) dirs).

(** Insertion of a key into a [dict] used as a set: a key already present
    keeps its place. *)
Definition keyset_add {K} (eqb : K -> K -> bool) (k : K) (d : list K) : list K :=
  if existsb (eqb k) d then d else (d ++ [k])%list.

Section Session.
Context {V : Type} `{Float64 V}.

(** The [try]/[except] around [read_cel_file]: a file that raises is
    reported and left out.  [cel_paths] are the text files of one tetrode
    directory in sorted order, each with its content. *)
Fixpoint parse_cel_paths (tt_name : string) (cel_paths : list (string * string))
  : list (string * CelFile V) :=
  match cel_paths with
  | [] => []
  | (cel_path, text) :: rest =>
      match read_cel_file cel_path text with
      | inr cel => (tt_name, cel) :: parse_cel_paths tt_name rest
      | inl _ => parse_cel_paths tt_name rest
      end
  end.

(** [tt_dirs] are the tetrode directories in the order of their numbers. *)
Definition all_cel_files (tt_dirs : list (string * list (string * string)))
    (stub_test : bool) : list (string * CelFile V) :=
  flat_map (fun d =>
    let cel_paths := if stub_test then firstn 2 (snd d) else snd d in
    parse_cel_paths (fst d) cel_paths) tt_dirs.

(** *** Epochs *)

Definition epoch_set_step (d : list epoch_key) (p : string * CelFile V)
  : list epoch_key :=
  let cel := snd p in
  match start_time_sec cel, end_time_sec cel with
  | sec start, sec stop =>
      keyset_add epoch_key_eqb (start, stop, session_type cel) d
  | _, _ => d
  end.

Definition epoch_set (all : list (string * CelFile V)) : list epoch_key :=
  fold_left epoch_set_step all [].

(** The intervals added, in order: [sorted(epoch_set.keys())].  An
    interval is kept as the key it comes from: [float(start)] is the same
    number for a count of seconds (any integer below 2^53). *)
Definition epochs (all : list (string * CelFile V)) : list epoch_key :=
  stable_sort epoch_key_leb (epoch_set all).

(** *** Units *)

(** [a[~np.isnan(a)]] *)
Definition drop_nan (a : list (option V)) : list V :=
  flat_map (fun o => match o with Some v => [v] | None => [] end) a.

(** [unit_spikes[k].append(a)] on a [defaultdict(list)] *)
Fixpoint dd_append (k : unit_key) (a : list V)
    (d : list (unit_key * list (list V))) : list (unit_key * list (list V)) :=
  match d with
  | [] => [(k, [a])]
  | (k', l) :: d' =>
      if unit_key_eqb k' k then (k', (l ++ [a])%list) :: d'
      else (k', l) :: dd_append k a d'
  end.

Fixpoint dd_get (k : unit_key) (d : list (unit_key * list (list V)))
  : list (list V) :=
  match d with
  | [] => []
  | (k', l) :: d' => if unit_key_eqb k' k then l else dd_get k d'
  end.

Definition cluster_id_of (cel : CelFile V) : Z :=
  match cluster cel with
  | Some c => c
  | None => -1
  end.

Fixpoint unit_spikes (all : list (string * CelFile V))
    (d : list (unit_key * list (list V)))
  : result (list (unit_key * list (list V))) :=
  match all with
  | [] => ret d
  | (tt_name, cel) :: rest =>
      let cluster_id := cluster_id_of cel in
      spike_times <- spike_times cel ;;
      let spike_times := drop_nan spike_times in
      if (0 <? List.length spike_times)%nat
      then unit_spikes rest (dd_append (tt_name, cluster_id) spike_times d)
      else unit_spikes rest d
  end.

(** The units added, in order: tetrode, cluster id, spike times. *)
Definition units (all : list (string * CelFile V))
  : result (list (string * Z * list V)) :=
  d <- unit_spikes all [] ;;
  ret (map (fun k => (fst k, snd k, stable_sort fleb (List.concat (dd_get k d))))
         (stable_sort unit_key_leb (map fst d))).

(** *** Position *)

(** [zip(times[mask], x[mask], y[mask])] for
    [mask = ~(isnan(times) | isnan(x) | isnan(y))]. *)
Fixpoint zip_masked (times x y : list (option V)) : list (V * V * V) :=
  match times, x, y with
  | t :: times', px :: x', py :: y' =>
      match t, px, py with
      | Some t, Some px, Some py => (t, px, py) :: zip_masked times' x' y'
      | _, _, _ => zip_masked times' x' y'
      end
  | _, _, _ => []
  end.

Fixpoint time_pos_pairs (all : list (string * CelFile V))
  : result (list (V * V * V)) :=
  match all with
  | [] => ret []
  | (_, cel) :: rest =>
      if negb (has_position cel) then time_pos_pairs rest
      else
        times <- spike_times cel ;;
        x <- pos_x cel ;;
        y <- pos_y cel ;;
        match x, y with
        | Some x, Some y =>
            later <- time_pos_pairs rest ;;
            ret (zip_masked times x y ++ later)%list
        | _, _ => time_pos_pairs rest
        end
  end.

Definition time_of (p : V * V * V) : V := fst (fst p).

(** [ar.argsort(kind="mergesort")] *)
Definition argsort (ar : list V) : list nat :=
  map snd
    (stable_sort (fun a b => fleb (fst a) (fst b))
       (combine ar (seq 0 (List.length ar)))).

(** [a[idx]] for a list of indices. *)
Definition take {A} (a : list A) (idx : list nat) : list A :=
  flat_map (fun i => match nth_error a i with Some v => [v] | None => [] end) idx.

(** The mask of [np.unique]: true at 0 and wherever a value differs from
    the one before it; [perm[mask]], walking both together. *)
Fixpoint run_heads (prev : option V) (aux : list V) (perm : list nat) : list nat :=
  match aux, perm with
  | v :: aux', i :: perm' =>
      match prev with
      | Some u => if feqb v u then run_heads (Some v) aux' perm'
                  else i :: run_heads (Some v) aux' perm'
      | None => i :: run_heads (Some v) aux' perm'
      end
  | _, _ => []
  end.

(** The indices [np.unique(ar, return_index=True)] returns. *)
Definition unique_index (ar : list V) : list nat :=
  let perm := argsort ar in
  let aux := take ar perm in
  run_heads None aux perm.

(** [_add_position_data]: the timestamps and the two coordinate arrays
    of the spatial series, [None] when nothing was pooled. *)
Definition _add_position_data (all : list (string * CelFile V))
  : result (option (list V * list V * list V)) :=
  pairs <- time_pos_pairs all ;;
  match pairs with
  | [] => ret None
  | _ =>
      let pairs := stable_sort (fun a b => fleb (time_of a) (time_of b)) pairs in
      let times_arr := map time_of pairs in
      let x_arr := map (fun p => snd (fst p)) pairs in
      let y_arr := map snd pairs in
      let unique_idx := unique_index times_arr in
      ret (Some (take times_arr unique_idx,
                 take x_arr unique_idx,
                 take y_arr unique_idx))
  end.

(** *** The session *)

Record Session : Type := mkSession {
  s_epochs : list epoch_key;
  s_units : list (string * Z * list V);
  s_position : option (list V * list V * list V);
  s_rate_maps : option (list MapRow)
}.

(** [np.isnan] of a time of a record, which is NaN or a Python integer:
    numpy takes an integer as a signed or unsigned 64-bit number, and
    raises [TypeError] when it is neither. *)
Definition np_isnan (t : seconds) : result bool :=
  match t with
  | nan => ret true
  | sec z =>
      if (- 2 ^ 63 <=? z) && (z <? 2 ^ 64) then ret false
      else raise (TypeError "ufunc 'isnan' not supported for the input types")
  end.

(** The tests [not np.isnan(key[0]) and not np.isnan(key[1])] of the loop
    that collects the epochs, for what they raise. *)
Fixpoint epoch_checks (all : list (string * CelFile V)) : result unit :=
  match all with
  | [] => ret tt
  | (_, cel) :: rest =>
      no_start <- np_isnan (start_time_sec cel) ;;
      _ <- (if no_start then ret true else np_isnan (end_time_sec cel)) ;;
      epoch_checks rest
  end.

(** [_add_rate_maps] as a whole, for the directories of the analyzed
    root: the sort of lines 284-287, then the loop. *)
Definition add_rate_maps_of_root
    (dirs : list (string * list (string * list byte))) (stub_test : bool)
  : result (option (list MapRow)) :=
  tt_dirs <- tt_dirs_of dirs ;;
  ret (_add_rate_maps tt_dirs stub_test).

(** [raw] and [analyzed] are the directories of the two roots, in the
    order of [iterdir], each with its files in sorted order; [analyzed]
    is [None] when that root does not exist. *)
Definition convert_session
    (raw : list (string * list (string * string)))
    (analyzed : option (list (string * list (string * list byte))))
    (stub_test : bool) : result Session :=
  tt_dirs <- tt_dirs_of raw ;;
  let all := all_cel_files tt_dirs stub_test in
  _ <- epoch_checks all ;;
  let epochs := epochs all in
  units <- units all ;;
  position <- (if existsb (fun p => has_position (snd p)) all
               then _add_position_data all
               else ret None) ;;
  rate_maps <- match analyzed with
               | Some dirs => add_rate_maps_of_root dirs stub_test
               | None => ret None
               end ;;
  ret (mkSession epochs units position rate_maps).

End Session.

(** ** Notions used to state the properties *)

(** The laws of [<=] on the floats other than NaN. *)
Class Float64Laws (V : Type) `{Float64 V} : Prop := {
  fleb_total : forall a b : V, fleb a b = true \/ fleb b a = true;
  fleb_trans : forall a b c : V, fleb a b = true -> fleb b c = true -> fleb a c = true;
  fleb_antisym : forall a b : V, fleb a b = true -> fleb b a = true -> a = b
}.

Definition fle {V} `{Float64 V} (a b : V) : Prop := fleb a b = true.
Definition flt {V} `{Float64 V} (a b : V) : Prop := fleb a b = true /\ a <> b.



Section Notions.
Context {V : Type} `{Float64 V}.

(** The valid spike times of a record, in row order. *)
Definition valid_spike_times (cel : CelFile V) : list V :=
  match spike_times cel with
  | inr ts => drop_nan ts
  | inl _ => []
  end.

(** The group of a record, as the specification has it: its tetrode and
    its cluster id, with -1 for a record that has no cluster id. *)
Definition unit_key_of (p : string * CelFile V) : unit_key :=
  (fst p, match cluster (snd p) with
          | Some c => c
          | None => -1
          end).

(** The valid spike times of the records of one group, concatenated in
    arrival order. *)
Definition group_times (all : list (string * CelFile V)) (k : unit_key) : list V :=
  flat_map (fun p => if unit_key_eqb (unit_key_of p) k
                     then valid_spike_times (snd p) else []) all.


(** A sample that a position-bearing record holds in one of its rows,
    with time and both coordinates present. *)
Definition sample_of (cel : CelFile V) (s : V * V * V) : Prop :=
  has_position cel = true /\
  exists times x y i,
    spike_times cel = inr times /\
    getitem (data cel) "pos_x" = inr x /\
    getitem (data cel) "pos_y" = inr y /\
    nth_error times i = Some (Some (fst (fst s))) /\
    nth_error (to_numeric x) i = Some (Some (snd (fst s))) /\
    nth_error (to_numeric y) i = Some (Some (snd s)).

(** The sample of row [i], if the row has its time and both coordinates. *)
Definition row_sample (times x y : list (option V)) (i : nat) : list (V * V * V) :=
  match nth_error times i, nth_error x i, nth_error y i with
  | Some (Some t), Some (Some px), Some (Some py) => [(t, px, py)]
  | _, _, _ => []
  end.

(** The samples of a record in the order of its rows; none for a record
    without both position fields. *)
Definition record_samples (cel : CelFile V) : list (V * V * V) :=
  if has_position cel then
    match spike_times cel, getitem (data cel) "pos_x", getitem (data cel) "pos_y" with
    | inr times, inr x, inr y =>
        flat_map (row_sample times (to_numeric x) (to_numeric y))
          (seq 0 (List.length times))
    | _, _, _ => []
    end
  else [].

(** The pool in pooling order: the records in the order they were read
    (tetrode directories in their order, files in sorted order), the rows
    of each in file order. *)
Definition pooled (all : list (string * CelFile V)) : list (V * V * V) :=
  flat_map (fun p => record_samples (snd p)) all.

(** The first sample at time [t] of a list of samples. *)
Definition first_at (t : V) (l : list (V * V * V)) : option (V * V * V) :=
  find (fun s => feqb (time_of s) t) l.

(** A sorted list without the samples that repeat the time of the sample
    before them ([prev] is the time before the list). *)
Fixpoint run_firsts (prev : option V) (l : list (V * V * V)) : list (V * V * V) :=
  match l with
  | [] => []
  | s :: l' =>
      match prev with
      | Some u => if feqb (time_of s) u then run_firsts (Some (time_of s)) l'
                  else s :: run_firsts (Some (time_of s)) l'
      | None => s :: run_firsts (Some (time_of s)) l'
      end
  end.



(** A cell that is absent or holds an NA marker. *)
Definition no_token (c : option string) : bool :=
  match c with
  | None => true
  | Some t => is_na_token t
  end.





(** The separators FS, GS, RS and US. *)
Definition is_separator (c : ascii) : bool :=
  let n := N_of_ascii c in ((28 <=? n) && (n <=? 31))%N.

Fixpoint no_separator (s : string) : bool :=
  match s with
  | EmptyString => true
  | String c s' => negb (is_separator c) && no_separator s'
  end.


End Notions.

(** ** Sample files *)

Definition LF : string := String "010" EmptyString.

Definition cel_text (cluster start stop fields : string) (body : list string) : string :=
  String.concat LF
    (List.app
       [String.append "% Cluster: " cluster; String.append "% Start time: " start;
        String.append "% End time: " stop; String.append "% Fields: " fields;
        "%%ENDHEADER"]
       (List.app body [EmptyString])).

Definition sample_bl1 : string :=
  cel_text "3" "0:00:00" "0:10:00" "time pos_x pos_y" ["1 10 20"; "3 11 21"].

Definition sample_bl2 : string :=
  cel_text "3" "0:00:00" "0:10:00" "time pos_x pos_y" ["2 12 22"; "3 50 60"].

Definition sample_es1 : string :=
  cel_text "5" "0:10:00" "0:20:00" "time pos_x pos_y" ["7 1 1"].

(** A file whose field list has no time column. *)
Definition sample_no_time : string :=
  cel_text "4" "0:00:00" "0:10:00" "pos_x pos_y" ["10 20"].

(** A file whose only data row holds a word. *)
Definition sample_words : string :=
  cel_text "4" "0:00:00" "0:10:00" "time" ["abc"].

Definition sample_session : list (string * list (string * string)) :=
  [("TT0", [("BL1.CEL", sample_bl1); ("BL2.CEL", sample_bl2); ("ES1.CEL", sample_es1)])].

Definition sample_records : list (string * CelFile Z) :=
  all_cel_files sample_session false.




(** A file whose sentinel line is indented and followed by spaces. *)
Definition sample_indented : string :=
  String.concat LF ["% Fields: time"; "  %%ENDHEADER  "; "5"; EmptyString].

(** A session in which one file has no valid spike time. *)
Definition sample_session_words : list (string * list (string * string)) :=
  [("TT0", [("BL1.CEL", sample_bl1); ("BL9.CEL", sample_words)])].

Definition sample_records_words : list (string * CelFile Z) :=
  all_cel_files sample_session_words false.

(** A session in which one file parses but has no time column, and one in
    which a file has no header at all. *)
Definition sample_session_no_time : list (string * list (string * string)) :=
  [("TT0", [("ES1.CEL", sample_no_time); ("BL1.CEL", sample_bl1)])].

Definition sample_session_garbage : list (string * list (string * string)) :=
  [("TT0", [("ES1.CEL", "no header here"); ("BL1.CEL", sample_bl1)])].

Definition sample_session_bl1 : list (string * list (string * string)) :=
  [("TT0", [("BL1.CEL", sample_bl1)])].

(** ** Further parts of the code *)

(** *** convert_session.py: electrodes *)

(** The electrode table after the loop that creates one electrode group
    per tetrode directory and adds four electrodes to it: the name of the
    group of each row. *)
Definition electrode_rows (tt_names : list string) : list string :=
  flat_map (fun tt_name => repeat tt_name 4) tt_names.

(** [d[k] = v] and [d[k]] on a [dict] with string keys; a missing key
    raises [KeyError]. *)
Fixpoint assoc_set {A} (k : string) (v : A) (d : list (string * A)) : list (string * A) :=
  match d with
  | [] => [(k, v)]
  | (k', v') :: d' =>
      if String.eqb k' k then (k, v) :: d' else (k', v') :: assoc_set k v d'
  end.

Fixpoint assoc_get {A} (k : string) (d : list (string * A)) : result A :=
  match d with
  | [] => raise (KeyError k)
  | (k', v') :: d' => if String.eqb k' k then ret v' else assoc_get k d'
  end.

(** The loop that fills [electrode_tt_indices], from row index [idx] on. *)
Fixpoint electrode_tt_indices_from (tt_names : list string) (idx : nat)
    (d : list (string * list nat)) : list (string * list nat) :=
  match tt_names with
  | [] => d
  | tt_name :: rest =>
      electrode_tt_indices_from rest (idx + 4) (assoc_set tt_name (seq idx 4) d)
  end.

Definition electrode_tt_indices (tt_names : list string) : list (string * list nat) :=
  electrode_tt_indices_from tt_names 0 [].

(** *** metadata.py *)

Record datetime : Type := mkDatetime {
  dt_year : Z;
  dt_month : Z;
  dt_day : Z;
  dt_hour : Z;
  dt_minute : Z
}.

Record SessionMetadata : Type := mkSessionMetadata {
  subject_folder : string;
  rat_id : string;
  session_date : datetime;
  session_description : string;
  recording_directory : string
}.

(** The table of sessions: rat, start of the recording (UTC) and
    description.  The descriptions are kept as the bytes of the source
    text. *)
Definition SUBJECT_SESSION_MAP : list (string * (string * datetime * string)) :=
  [("FD4RAT1", ("Rat1", mkDatetime 1998 4 20 9 57,
     "Flight Day 4 recording — Rat 1. Escher Staircase and Magic Carpet tasks with baseline sessions."));
   ("FD4RAT2", ("Rat2", mkDatetime 1998 4 20 9 57,
     "Flight Day 4 recording — Rat 2. Recorded simultaneously with Rat 1 on shared acquisition system."));
   ("FD4RAT3", ("Rat3", mkDatetime 1998 4 20 15 28,
     "Flight Day 4 recording — Rat 3. Separate recording session; partial data recovered due to technical issues."));
   ("FD9RAT1", ("Rat1", mkDatetime 1998 4 25 12 45,
     "Flight Day 9 recording — Rat 1. Escher Staircase and Magic Carpet tasks with baseline sessions."));
   ("FD9RAT2", ("Rat2", mkDatetime 1998 4 25 12 45,
     "Flight Day 9 recording — Rat 2. Recorded simultaneously with Rat 1 on shared acquisition system."));
   ("PREFLI~1", ("Rat1", mkDatetime 1998 4 14 12 53,
     "Preflight ground recording — Rat 1. Recorded 3 days before launch at Kennedy Space Center."));
   ("PREFLI~2", ("Rat2", mkDatetime 1998 4 13 16 37,
     "Preflight ground recording — Rat 2. Recorded 4 days before launch at Kennedy Space Center."));
   ("PREFLI~3", ("Rat3", mkDatetime 1998 4 14 13 49,
     "Preflight ground recording — Rat 3. Recorded 3 days before launch at Kennedy Space Center."))].

Definition get_session_metadata (subject_folder : string) : result SessionMetadata :=
  info <- assoc_get subject_folder SUBJECT_SESSION_MAP ;;
  ret (mkSessionMetadata subject_folder (fst (fst info)) (snd (fst info)) (snd info)
         EmptyString).

(** Two decimal digits at the start of a text, as [\d{2}] matches them and
    [int] reads them, with the rest of the text. *)
Definition two_digits (s : string) : option (Z * string) :=
  match s with
  | String a (String b rest) =>
      match PyStr.digit_val a, PyStr.digit_val b with
      | Some x, Some y => Some (10 * x + y, rest)
      | _, _ => None
      end
  | _ => None
  end.

(** A literal at the start of a text, with the rest of the text. *)
Fixpoint expect (lit s : string) : option string :=
  match lit with
  | EmptyString => Some s
  | String a lit' =>
      match s with
      | String c s' => if Ascii.eqb c a then expect lit' s' else None
      | EmptyString => None
      end
  end.

(** The pattern [e100-(\d{2})\.(\d{2})\.(\d{2})-(\d{2}):(\d{2})] matched
    at the start of a text: the five groups as integers. *)
Definition match_e100 (s : string) : option (Z * Z * Z * Z * Z) :=
  match expect "e100-" s with
  | None => None
  | Some s1 =>
  match two_digits s1 with
  | None => None
  | Some (month, s2) =>
  match expect "." s2 with
  | None => None
  | Some s3 =>
  match two_digits s3 with
  | None => None
  | Some (day, s4) =>
  match expect "." s4 with
  | None => None
  | Some s5 =>
  match two_digits s5 with
  | None => None
  | Some (year_2d, s6) =>
  match expect "-" s6 with
  | None => None
  | Some s7 =>
  match two_digits s7 with
  | None => None
  | Some (hour, s8) =>
  match expect ":" s8 with
  | None => None
  | Some s9 =>
  match two_digits s9 with
  | None => None
  | Some (minute, _) => Some (month, day, year_2d, hour, minute)
  end end end end end end end end end end.

(** [re.search]: the leftmost match. *)
Fixpoint search_e100 (s : string) : option (Z * Z * Z * Z * Z) :=
  match match_e100 s with
  | Some m => Some m
  | None =>
      match s with
      | EmptyString => None
      | String _ s' => search_e100 s'
      end
  end.

Definition is_leap (year : Z) : bool :=
  (year mod 4 =? 0) && (negb (year mod 100 =? 0) || (year mod 400 =? 0)).

Definition days_in_month (year month : Z) : Z :=
  if month =? 2 then (if is_leap year then 29 else 28)
  else if (month =? 4) || (month =? 6) || (month =? 9) || (month =? 11) then 30
  else 31.

(** The checks of the [datetime] constructor; the text of its
    [ValueError], which names the field, is not kept. *)
Definition datetime_ok (d : datetime) : bool :=
  (1 <=? dt_year d) && (dt_year d <=? 9999) &&
  (1 <=? dt_month d) && (dt_month d <=? 12) &&
  (1 <=? dt_day d) && (dt_day d <=? days_in_month (dt_year d) (dt_month d)) &&
  (0 <=? dt_hour d) && (dt_hour d <=? 23) &&
  (0 <=? dt_minute d) && (dt_minute d <=? 59).

Definition make_datetime (year month day hour minute : Z) : result datetime :=
  let d := mkDatetime year month day hour minute in
  if datetime_ok d then ret d else raise (ValueError "datetime field is out of range").

Definition parse_session_datetime_from_directory (directory : string)
  : result (option datetime) :=
  match search_e100 directory with
  | None => ret None
  | Some (month, day, year_2d, hour, minute) =>
      let year := if 50 <? year_2d then 1900 + year_2d else 2000 + year_2d in
      d <- make_datetime year month day hour minute ;;
      ret (Some d)
  end.

(** *** convert_all_sessions.py *)

Definition SUBJECTS : list string :=
  ["FD4RAT1"; "FD4RAT2"; "FD4RAT3"; "FD9RAT1"; "FD9RAT2";
   "PREFLI~1"; "PREFLI~2"; "PREFLI~3"].

(** [convert_all], for a given way to convert one session: what is printed
    for each subject, the path written or the failure. *)
Definition convert_all {A} (convert_session : string -> result A)
    (subjects : option (list string)) : list (string * result A) :=
  let subjects :=
    match subjects with
    | Some (s :: l) => s :: l
    | _ => SUBJECTS
    end in
  map (fun subject => (subject, convert_session subject)) subjects.

(** *** Notions used to state the further properties *)

(** [p] holds of every character. *)
Fixpoint all_chars (p : ascii -> bool) (s : string) : bool :=
  match s with
  | EmptyString => true
  | String c s' => p c && all_chars p s'
  end.

(** The number a string of decimal digits writes, after [acc]. *)
Fixpoint decimal_value (s : string) (acc : Z) : Z :=
  match s with
  | EmptyString => acc
  | String c s' =>
      decimal_value s' (10 * acc + (Z.of_N (N_of_ascii c) - 48))
  end.

(** [s] is empty or starts with a character that is no digit. *)
Definition no_digit_ahead (s : string) : bool :=
  match s with
  | EmptyString => true
  | String c _ => negb (PyStr.isdigit c)
  end.

(** The key and value a stripped line adds to the header, if it is a
    header line. *)
Definition header_entry (s : string) : option (string * string) :=
  if PyStr.startswith "%" s && PyStr.contains ":" s && negb (fields_re s)
  then match PyStr.split1 ":" (PyStr.strip (PyStr.lstrip_char "%" s)) with
       | [k; v] => Some (PyStr.strip k, PyStr.strip v)
       | _ => None
       end
  else None.

(** The value of the last header line with key [k] among [lines]. *)
Definition last_header_value (k : string) (lines : list string) : option string :=
  fold_left (fun acc line =>
               match header_entry (PyStr.strip line) with
               | Some (k', v) => if String.eqb k' k then Some v else acc
               | None => acc
               end) lines None.

(** Two digits for a number below 100, and the directory name of a
    recording that started at [d]. *)
Definition digit_char (d : Z) : ascii := ascii_of_N (Z.to_N (48 + d)).

Definition fmt2 (n : Z) : string :=
  String (digit_char (n / 10)) (String (digit_char (n mod 10)) EmptyString).

Definition e100_name (d : datetime) : string :=
  String.append "e100-"
    (String.append (fmt2 (dt_month d))
       (String.append "."
          (String.append (fmt2 (dt_day d))
             (String.append "."
                (String.append (fmt2 (dt_year d mod 100))
                   (String.append "-"
                      (String.append (fmt2 (dt_hour d))
                         (String.append ":" (fmt2 (dt_minute d)))))))))).

(** The files of a listing that a run reads, each with the name of its
    directory: with [stub_test] the first two of each directory. *)
Definition listed {A} (tt_dirs : list (string * list (string * A))) (stub_test : bool)
  : list (string * (string * A)) :=
  flat_map (fun d => map (fun f => (fst d, f))
                       (if stub_test then firstn 2 (snd d) else snd d)) tt_dirs.

(** A listing cut to the first two files of each directory. *)
Definition first_two {A} (tt_dirs : list (string * list A)) : list (string * list A) :=
  map (fun d => (fst d, firstn 2 (snd d))) tt_dirs.

(** A binary file of the expected size. *)
Definition map_sized (x : string * (string * list byte)) : bool :=
  (List.length (snd (snd x)) =? RMA_FILE_SIZE)%nat.

(** The rows of the map table, none when the table is not made. *)
Definition table_rows (t : option (list MapRow)) : list MapRow :=
  match t with
  | Some rows => rows
  | None => []
  end.

(** An array of [n] rows of [m] entries. *)
Definition sized {A} (n m : nat) (a : list (list A)) : Prop :=
  List.length a = n /\ Forall (fun r => List.length r = m) a.

(** What a row of the table holds beside its names. *)
Definition row_of_name (r : MapRow) : Prop :=
  row_session_type r = fst (_parse_rma_filename (row_source_file r)) /\
  row_cell_number r
  = match snd (_parse_rma_filename (row_source_file r)) with
    | Some n => n
    | None => -1
    end /\
  sized 64 64 (row_rate_map r) /\ sized 64 64 (row_occupancy_map r).

(** A time that is NaN or an integer that fits 64 bits, signed or
    unsigned. *)
Definition in_64_bits (t : seconds) : bool :=
  match t with
  | nan => true
  | sec z => (- 2 ^ 63 <=? z) && (z <? 2 ^ 64)
  end.

(** A session of two tetrodes. *)
Definition sample_session_tetrodes : list (string * list (string * string)) :=
  [("TT0", [("BL1.CEL", sample_bl1)]); ("TT1", [("ES1.CEL", sample_es1)])].

(** A session whose only text file has no header. *)
Definition sample_session_unparsable : list (string * list (string * string)) :=
  [("TT0", [("ES1.CEL", "no header here")]); ("TT1", [])].

(** A file whose header gives the cluster twice. *)
Definition sample_two_clusters : string :=
  String.concat LF
    ["% Cluster: 1"; "% Cluster: 2"; "% Fields: time"; "%%ENDHEADER"; "5"; EmptyString].

(** * Properties *)

(** ** Strings *)

Lemma string_app_assoc (a b c : string) : (a ++ b) ++ c = a ++ (b ++ c).
Proof.
  induction a as [|x a IH]; [reflexivity|]. cbn [String.append]. rewrite IH. reflexivity.
Qed.

Lemma inr_inj {A B} (a b : B) : @inr A B a = inr b -> a = b.
Proof. intros E. injection E as E. exact E. Qed.

Lemma inl_inj {A B} (a b : A) : @inl A B a = inl b -> a = b.
Proof. intros E. injection E as E. exact E. Qed.

Lemma isspace_not_colon (c : ascii) :
  PyStr.isspace c = true -> Ascii.eqb c ":" = false.
Proof.
  intros Hs. destruct (Ascii.eqb_spec c ":") as [->|]; [discriminate Hs | reflexivity].
Qed.

Lemma split_not_nil (ch : ascii) (s : string) : PyStr.split ch s <> [].
Proof.
  destruct s as [|c s]; simpl; [discriminate|].
  destruct (Ascii.eqb c ch); [discriminate|].
  destruct (PyStr.split ch s); discriminate.
Qed.

Lemma is_empty_true (s : string) : PyStr.is_empty s = true -> s = EmptyString.
Proof. destruct s; [reflexivity | discriminate]. Qed.

Lemma strip_cons_space (c : ascii) (s : string) :
  PyStr.isspace c = true -> PyStr.strip (String c s) = PyStr.strip s.
Proof.
  intros Hc. unfold PyStr.strip. simpl. rewrite Hc.
  destruct (PyStr.is_empty (PyStr.rstrip s)) eqn:E; simpl.
  - apply is_empty_true in E. rewrite E. reflexivity.
  - rewrite Hc. reflexivity.
Qed.

Lemma split_rstrip (s : string) :
  map PyStr.rstrip (PyStr.split ":" (PyStr.rstrip s))
  = map PyStr.rstrip (PyStr.split ":" s).
Proof.
  induction s as [|c s IH]; [reflexivity|].
  cbn [PyStr.rstrip].
  destruct (PyStr.is_empty (PyStr.rstrip s) && PyStr.isspace c) eqn:E.
  - apply andb_true_iff in E. destruct E as [Er Hc].
    apply is_empty_true in Er. rewrite Er in IH.
    cbn [PyStr.split]. rewrite (isspace_not_colon c Hc).
    destruct (PyStr.split ":" s) as [|h t] eqn:Es.
    + exfalso. exact (split_not_nil _ _ Es).
    + cbn in IH. destruct t; [|discriminate IH].
      injection IH as IH. cbn. rewrite <- IH, Hc. reflexivity.
  - cbn [PyStr.split]. destruct (Ascii.eqb c ":").
    + cbn [map]. rewrite IH. reflexivity.
    + destruct (PyStr.split ":" (PyStr.rstrip s)) as [|h' t'] eqn:E1;
        [exfalso; exact (split_not_nil _ _ E1)|].
      destruct (PyStr.split ":" s) as [|h t] eqn:E2;
        [exfalso; exact (split_not_nil _ _ E2)|].
      cbn in IH. injection IH as Hh Ht.
      cbn [map PyStr.rstrip]. rewrite Hh, Ht. reflexivity.
Qed.

Lemma split_lstrip (s : string) :
  map PyStr.strip (PyStr.split ":" (PyStr.lstrip s))
  = map PyStr.strip (PyStr.split ":" s).
Proof.
  induction s as [|c s IH]; [reflexivity|].
  cbn [PyStr.lstrip]. destruct (PyStr.isspace c) eqn:Hc; [|reflexivity].
  rewrite IH. cbn [PyStr.split]. rewrite (isspace_not_colon c Hc).
  destruct (PyStr.split ":" s) as [|h t] eqn:Es;
    [exfalso; exact (split_not_nil _ _ Es)|].
  cbn [map]. rewrite (strip_cons_space c h Hc). reflexivity.
Qed.

(** Splitting the stripped text or the text itself gives components that
    are equal once stripped, which is all [int] looks at. *)
Lemma split_strip (s : string) :
  map PyStr.strip (PyStr.split ":" (PyStr.strip s))
  = map PyStr.strip (PyStr.split ":" s).
Proof.
  unfold PyStr.strip at 2. rewrite split_lstrip.
  unfold PyStr.strip.
  rewrite <- !(map_map PyStr.rstrip PyStr.lstrip).
  rewrite split_rstrip. reflexivity.
Qed.

Lemma isdigit_not_space (c : ascii) :
  PyStr.isdigit c = true -> PyStr.isspace c = false.
Proof.
  destruct c as [[] [] [] [] [] [] [] []]; intros Hd; try reflexivity; discriminate Hd.
Qed.

(** [str.isspace] is the white space of [int] and the four separators. *)
Lemma isspace_cases (c : ascii) :
  PyStr.isspace c = PyStr.int_isspace c || is_separator c.
Proof. destruct c as [[] [] [] [] [] [] [] []]; reflexivity. Qed.

Lemma int_lstrip_lstrip (s : string) :
  no_separator s = true -> PyStr.int_lstrip s = PyStr.lstrip s.
Proof.
  induction s as [|c s IH]; [reflexivity|]. cbn [no_separator].
  intros Hs. apply andb_true_iff in Hs. destruct Hs as [Hc Hs].
  apply negb_true_iff in Hc.
  cbn [PyStr.int_lstrip PyStr.lstrip]. rewrite isspace_cases, Hc, orb_false_r.
  destruct (PyStr.int_isspace c); [exact (IH Hs) | reflexivity].
Qed.

Lemma int_rstrip_rstrip (s : string) :
  no_separator s = true -> PyStr.int_rstrip s = PyStr.rstrip s.
Proof.
  induction s as [|c s IH]; [reflexivity|]. cbn [no_separator].
  intros Hs. apply andb_true_iff in Hs. destruct Hs as [Hc Hs].
  apply negb_true_iff in Hc.
  cbn [PyStr.int_rstrip PyStr.rstrip]. rewrite (IH Hs), isspace_cases, Hc, orb_false_r.
  reflexivity.
Qed.

Lemma no_separator_lstrip (s : string) :
  no_separator s = true -> no_separator (PyStr.lstrip s) = true.
Proof.
  induction s as [|c s IH]; [reflexivity|]. intros Hs. cbn [PyStr.lstrip].
  destruct (PyStr.isspace c); [|exact Hs].
  cbn [no_separator] in Hs. apply andb_true_iff in Hs. exact (IH (proj2 Hs)).
Qed.

Lemma no_separator_rstrip (s : string) :
  no_separator s = true -> no_separator (PyStr.rstrip s) = true.
Proof.
  induction s as [|c s IH]; [reflexivity|]. cbn [no_separator].
  intros Hs. apply andb_true_iff in Hs. destruct Hs as [Hc Hs].
  cbn [PyStr.rstrip].
  destruct (PyStr.is_empty (PyStr.rstrip s) && PyStr.isspace c); [reflexivity|].
  cbn [no_separator]. rewrite Hc, (IH Hs). reflexivity.
Qed.

Lemma no_separator_strip (s : string) :
  no_separator s = true -> no_separator (PyStr.strip s) = true.
Proof.
  intros Hs. unfold PyStr.strip. apply no_separator_lstrip, no_separator_rstrip, Hs.
Qed.

Lemma no_separator_split (s : string) :
  no_separator s = true ->
  Forall (fun p => no_separator p = true) (PyStr.split ":" s).
Proof.
  induction s as [|c s IH]; [intros _; repeat constructor|]. cbn [no_separator].
  intros Hs. apply andb_true_iff in Hs. destruct Hs as [Hc Hs].
  specialize (IH Hs). cbn [PyStr.split].
  destruct (Ascii.eqb c ":"); [constructor; [reflexivity | exact IH]|].
  destruct (PyStr.split ":" s) as [|h t]; [repeat constructor; cbn; rewrite Hc; reflexivity|].
  inversion IH as [|? ? Hh Ht]. subst.
  constructor; [cbn [no_separator]; rewrite Hc, Hh; reflexivity | exact Ht].
Qed.

Lemma count_digits_lstrip (s : string) :
  PyStr.count_digits (PyStr.lstrip s) = PyStr.count_digits s.
Proof.
  induction s as [|c s IH]; [reflexivity|]. cbn [PyStr.lstrip].
  destruct (PyStr.isspace c) eqn:Hc; [|reflexivity].
  cbn [PyStr.count_digits]. rewrite IH.
  destruct (PyStr.isdigit c) eqn:Hd; [|reflexivity].
  rewrite (isdigit_not_space c Hd) in Hc. discriminate Hc.
Qed.

Lemma count_digits_rstrip (s : string) :
  PyStr.count_digits (PyStr.rstrip s) = PyStr.count_digits s.
Proof.
  induction s as [|c s IH]; [reflexivity|]. cbn [PyStr.rstrip].
  destruct (PyStr.is_empty (PyStr.rstrip s) && PyStr.isspace c) eqn:E.
  - apply andb_true_iff in E. destruct E as [Er Hc].
    apply is_empty_true in Er. rewrite Er in IH.
    cbn [PyStr.count_digits]. rewrite <- IH.
    destruct (PyStr.isdigit c) eqn:Hd; [|reflexivity].
    rewrite (isdigit_not_space c Hd) in Hc. discriminate Hc.
  - cbn [PyStr.count_digits]. rewrite IH. reflexivity.
Qed.

(** On a text without separators [int] looks at the stripped text only. *)
Lemma int_of_stripped (p : string) :
  no_separator p = true ->
  PyStr.int p
  = if (PyStr.int_max_str_digits <? PyStr.count_digits (PyStr.strip p))%N then None
    else PyStr.int_signed (PyStr.strip p).
Proof.
  intros Hp. unfold PyStr.int, PyStr.int_of_literal, PyStr.int_strip, PyStr.strip.
  rewrite (int_rstrip_rstrip p Hp).
  rewrite (int_lstrip_lstrip _ (no_separator_rstrip p Hp)).
  rewrite count_digits_lstrip, count_digits_rstrip. reflexivity.
Qed.

Lemma ints_of_strip (p q : list string) :
  Forall (fun x => no_separator x = true) p ->
  Forall (fun x => no_separator x = true) q ->
  map PyStr.strip p = map PyStr.strip q -> ints_of p = ints_of q.
Proof.
  revert q. induction p as [|a p IH]; intros [|b q] Hp Hq E; try discriminate E.
  - reflexivity.
  - inversion Hp as [|? ? Ha Hp']. inversion Hq as [|? ? Hb Hq']. subst.
    cbn [map] in E.
    assert (Eh : PyStr.strip a = PyStr.strip b) by congruence.
    assert (Et : map PyStr.strip p = map PyStr.strip q) by congruence.
    cbn [ints_of]. rewrite (int_of_stripped a Ha), (int_of_stripped b Hb), Eh.
    rewrite (IH q Hp' Hq' Et). reflexivity.
Qed.

Lemma ints_of_none (p : list string) :
  (exists x, In x p /\ PyStr.int x = None) -> ints_of p = None.
Proof.
  induction p as [|a p IH]; intros [x [Hin Hx]]; [destruct Hin|].
  cbn [ints_of]. destruct Hin as [->|Hin].
  - rewrite Hx. reflexivity.
  - destruct (PyStr.int a); [|reflexivity].
    rewrite IH; [reflexivity | exists x; auto].
Qed.

Lemma ints_of_length (p : list string) (zs : list Z) :
  ints_of p = Some zs -> List.length zs = List.length p.
Proof.
  revert zs. induction p as [|a p IH]; intros zs E; cbn in E.
  - injection E as <-. reflexivity.
  - destruct (PyStr.int a); [|discriminate].
    destruct (ints_of p) as [zs'|]; [|discriminate].
    injection E as <-. cbn. f_equal. apply IH. reflexivity.
Qed.

(** C6 (TimeCodec), as the code has it.  The text is stripped of the
    white space around it and then split on [":"].  With the components
    of the stripped text: the empty text, a component that [int] rejects,
    or a number of components other than 2 and 3 give the NaN sentinel;
    three integer components [h], [m], [x] give [h*3600 + m*60 + x]; two
    give [m*60 + x].  For a text without the separators FS, GS, RS and US
    the components of the text itself are read to the same integers, so
    that the policy holds of them as well.  The four examples of the
    specification hold, and the function is total: every [ValueError] of
    [int] is turned into NaN. *)
Theorem parse_time_str_policy (s : string) :
  let parts := PyStr.split ":" (PyStr.strip s) in
  (s = EmptyString -> _parse_time_str s = nan) /\
  ((exists p, In p parts /\ PyStr.int p = None) -> _parse_time_str s = nan) /\
  (List.length parts <> 2%nat -> List.length parts <> 3%nat ->
   _parse_time_str s = nan) /\
  (forall a b c h m x,
      parts = [a; b; c] ->
      PyStr.int a = Some h -> PyStr.int b = Some m -> PyStr.int c = Some x ->
      _parse_time_str s = sec (h * 3600 + m * 60 + x)) /\
  (forall a b m x,
      parts = [a; b] ->
      PyStr.int a = Some m -> PyStr.int b = Some x ->
      _parse_time_str s = sec (m * 60 + x)) /\
  (no_separator s = true -> ints_of (PyStr.split ":" s) = ints_of parts) /\
  _parse_time_str "1:02:03" = sec 3723 /\
  _parse_time_str "02:03" = sec 123 /\
  _parse_time_str "" = nan /\
  _parse_time_str "ab:01" = nan.
Proof.
  intros parts.
  assert (Hne : forall l, parts = l -> List.length l <> 1%nat -> PyStr.is_empty s = false).
  { intros l El Hl. destruct s; [|reflexivity]. exfalso. apply Hl.
    rewrite <- El. reflexivity. }
  repeat split; try reflexivity.
  - intros ->. reflexivity.
  - intros Hbad. unfold _parse_time_str. fold parts.
    rewrite (ints_of_none _ Hbad). destruct (PyStr.is_empty s); reflexivity.
  - intros H2 H3. unfold _parse_time_str. fold parts.
    destruct (PyStr.is_empty s); [reflexivity|].
    destruct (ints_of parts) as [zs|] eqn:E; [|reflexivity].
    apply ints_of_length in E.
    destruct zs as [|z1 [|z2 [|z3 [|z4 zs]]]]; try reflexivity.
    + exfalso. apply H2. rewrite <- E. reflexivity.
    + exfalso. apply H3. rewrite <- E. reflexivity.
  - intros a b c h m x Es Ha Hb Hc. unfold _parse_time_str. fold parts.
    rewrite (Hne _ Es) by (cbn; lia).
    rewrite Es. cbn [ints_of]. rewrite Ha, Hb, Hc. reflexivity.
  - intros a b m x Es Ha Hb. unfold _parse_time_str. fold parts.
    rewrite (Hne _ Es) by (cbn; lia).
    rewrite Es. cbn [ints_of]. rewrite Ha, Hb. reflexivity.
  - intros Hs. symmetry. apply ints_of_strip.
    + apply no_separator_split, no_separator_strip, Hs.
    + apply no_separator_split, Hs.
    + apply split_strip.
Qed.

(** C6 as stated fails: the text made of the separator US and [1:02] has
    a first component, US followed by 1, that [int] rejects, and yet it is
    read as 62 seconds, because the separator is stripped before the text
    is split. *)
Lemma parse_time_str_separator :
  PyStr.split ":" (String "031" "1:02") = [String "031" "1"; "02"] /\
  PyStr.int (String "031" "1") = None /\
  _parse_time_str (String "031" "1:02") = sec 62.
Proof. repeat split; reflexivity. Qed.

(** ** The binary map format *)

Lemma decode_items_some {A} (dec : byte -> byte -> byte -> byte -> A)
    (count : nat) (bs : list byte) :
  (4 * count <= List.length bs)%nat ->
  exists l, decode_items dec count bs = Some l /\ List.length l = count.
Proof.
  revert bs. induction count as [|n IH]; intros bs Hlen.
  - exists []. split; reflexivity.
  - destruct bs as [|b0 [|b1 [|b2 [|b3 rest]]]]; cbn in Hlen; try lia.
    destruct (IH rest) as [l [El Hl]]; [lia|].
    exists (dec b0 b1 b2 b3 :: l). cbn [decode_items]. rewrite El.
    split; [reflexivity | cbn; f_equal; exact Hl].
Qed.

Lemma decode_items_nth {A} (dec : byte -> byte -> byte -> byte -> A)
    (count : nat) (bs : list byte) (l : list A) (d : A) :
  decode_items dec count bs = Some l ->
  forall k, (k < count)%nat ->
    nth k l d = dec (nth (4 * k) bs x00) (nth (4 * k + 1) bs x00)
                    (nth (4 * k + 2) bs x00) (nth (4 * k + 3) bs x00).
Proof.
  revert bs l. induction count as [|n IH]; intros bs l E k Hk; [lia|].
  destruct bs as [|b0 [|b1 [|b2 [|b3 rest]]]]; try discriminate E.
  cbn [decode_items] in E.
  destruct (decode_items dec n rest) as [l'|] eqn:E'; [|discriminate E].
  injection E as <-. destruct k as [|k]; [reflexivity|].
  cbn [nth]. rewrite (IH rest l' E' k) by lia.
  replace (4 * S k)%nat with (S (S (S (S (4 * k))))) by lia.
  reflexivity.
Qed.

Lemma decode_items_app {A} (dec : byte -> byte -> byte -> byte -> A)
    (count : nat) (bs rest : list byte) (l : list A) :
  decode_items dec count bs = Some l ->
  decode_items dec count (bs ++ rest) = Some l.
Proof.
  revert bs l. induction count as [|n IH]; intros bs l E; [exact E|].
  destruct bs as [|b0 [|b1 [|b2 [|b3 bs]]]]; try discriminate E.
  cbn [decode_items] in E. cbn [app decode_items].
  destruct (decode_items dec n bs) as [l'|] eqn:E'; [|discriminate E].
  rewrite (IH bs l' E'). exact E.
Qed.

Lemma chunk_rows_nth {A} (nrows ncols : nat) (l : list A) (i j : nat) (d : A) :
  (i < nrows)%nat -> (j < ncols)%nat ->
  nth j (nth i (chunk_rows nrows ncols l) []) d = nth (i * ncols + j) l d.
Proof.
  revert l i. induction nrows as [|n IH]; intros l i Hi Hj; [lia|].
  destruct i as [|i]; cbn [chunk_rows nth].
  - rewrite nth_firstn. destruct (Nat.ltb_spec j ncols); [reflexivity | lia].
  - rewrite IH by lia. rewrite nth_skipn. f_equal. lia.
Qed.

Lemma RMA_FILE_SIZE_eq : RMA_FILE_SIZE = (N_PIXELS * 4 + N_PIXELS * 4)%nat.
Proof. reflexivity. Qed.

(** What [read_rma_file] returns on a buffer of the right size. *)
Lemma read_rma_file_sized (path : string) (data : list byte) :
  List.length data = RMA_FILE_SIZE ->
  exists flat_rate flat_occ,
    decode_items be_f32 N_PIXELS data = Some flat_rate /\
    decode_items be_i32 N_PIXELS (skipn (N_PIXELS * 4) data) = Some flat_occ /\
    List.length flat_rate = N_PIXELS /\ List.length flat_occ = N_PIXELS /\
    read_rma_file path data =
      inr (mkRmaFile path
             (chunk_rows (fst MAP_SHAPE) (snd MAP_SHAPE) flat_rate)
             (chunk_rows (fst MAP_SHAPE) (snd MAP_SHAPE) flat_occ)
             (fst (_parse_rma_filename path)) (snd (_parse_rma_filename path))).
Proof.
  intros Hlen. pose proof Hlen as Hlen'. rewrite RMA_FILE_SIZE_eq in Hlen'.
  destruct (decode_items_some be_f32 N_PIXELS data) as [fr [Efr Lfr]]; [lia|].
  destruct (decode_items_some be_i32 N_PIXELS (skipn (N_PIXELS * 4) data))
    as [fo [Efo Lfo]]; [rewrite length_skipn; lia|].
  exists fr, fo. repeat (split; [assumption|]).
  unfold read_rma_file. rewrite Hlen, Nat.eqb_refl. cbn [negb].
  unfold frombuffer. cbn [skipn]. rewrite Efr, Efo.
  unfold reshape, ret, bind. rewrite Lfr, Lfo.
  change (fst MAP_SHAPE * snd MAP_SHAPE)%nat with N_PIXELS.
  rewrite Nat.eqb_refl.
  destruct (_parse_rma_filename path); reflexivity.
Qed.

(** C7 (BinaryMapParser size check).  The parse fails with
    UnexpectedBinarySize exactly when the input is not 32768 bytes long,
    and on a 32768-byte input it returns a map and raises nothing. *)
Theorem read_rma_file_size_check (path : string) (data : list byte) :
  (read_rma_file path data = inl (UnexpectedBinarySize path (List.length data))
   <-> List.length data <> RMA_FILE_SIZE) /\
  ((exists rma, read_rma_file path data = inr rma)
   <-> List.length data = RMA_FILE_SIZE).
Proof.
  destruct (Nat.eqb_spec (List.length data) RMA_FILE_SIZE) as [Heq|Hne].
  - destruct (read_rma_file_sized path data Heq) as (fr & fo & _ & _ & _ & _ & E).
    rewrite E. split; split; intros; try discriminate; try congruence; eauto.
  - assert (E : read_rma_file path data
                = inl (UnexpectedBinarySize path (List.length data))).
    { unfold read_rma_file.
      destruct (Nat.eqb_spec (List.length data) RMA_FILE_SIZE); [contradiction|].
      reflexivity. }
    rewrite E. split; split; intros; try assumption; try reflexivity.
    + destruct H as [rma Hr]. discriminate Hr.
    + contradiction.
Qed.

Lemma byte_of_val (v : Z) :
  0 <= v < 256 ->
  byte_val (match Byte.of_N (Z.to_N v) with Some b => b | None => x00 end) = v.
Proof.
  intros Hv. unfold byte_val.
  destruct (Byte.of_N (Z.to_N v)) as [b|] eqn:E.
  - apply Byte.to_of_N in E. rewrite E. lia.
  - apply Byte.of_N_None_iff in E. lia.
Qed.

Lemma land_255_range (x : Z) : 0 <= Z.land x 255 < 256.
Proof.
  change 255 with (Z.ones 8). rewrite Z.land_ones by lia.
  apply Z.mod_pos_bound. reflexivity.
Qed.

Lemma testbit_255 (n : Z) : 0 <= n -> Z.testbit 255 n = (n <? 8).
Proof.
  intros Hn. change 255 with (Z.ones 8).
  apply Z.testbit_ones_nonneg; lia.
Qed.

Lemma testbit_above (u k n : Z) :
  0 <= u < 2 ^ k -> 0 <= k <= n -> Z.testbit u n = false.
Proof.
  intros Hu Hk. destruct (Z.eq_dec u 0) as [->|Hnz]; [apply Z.bits_0|].
  apply Z.bits_above_log2; [lia|].
  apply Z.log2_lt_pow2; [lia|].
  apply Z.lt_le_trans with (2 ^ k); [lia|].
  apply Z.pow_le_mono_r; lia.
Qed.

(** Reading back the four bytes of an unsigned 32-bit number. *)
Lemma be_u32_bytes (u : Z) :
  0 <= u < 2 ^ 32 ->
  match u32_bytes u with
  | [b0; b1; b2; b3] => be_u32 b0 b1 b2 b3 = u
  | _ => False
  end.
Proof.
  intros Hu. unfold u32_bytes. cbn [map]. unfold be_u32.
  rewrite !byte_of_val by apply land_255_range.
  apply Z.bits_inj'. intros n Hn.
  rewrite !Z.lor_spec, !Z.shiftl_spec, !Z.land_spec by lia.
  rewrite (Z.shiftr_spec u 0) by lia.
  rewrite (testbit_255 n) by lia.
  destruct (Z.ltb_spec n 8) as [H8|H8].
  - rewrite !(Z.testbit_neg_r _ (n - _)) by lia. cbn [orb].
    rewrite Z.add_0_r, andb_true_r. reflexivity.
  - rewrite andb_false_r, orb_false_r.
    destruct (Z.ltb_spec n 16) as [H16|H16].
    + rewrite !(Z.testbit_neg_r _ (n - 24)), !(Z.testbit_neg_r _ (n - 16)) by lia.
      cbn [orb]. rewrite Z.shiftr_spec, testbit_255 by lia.
      replace (n - 8 + 8) with n by lia.
      destruct (Z.ltb_spec (n - 8) 8); [|lia]. apply andb_true_r.
    + rewrite (Z.shiftr_spec u 8), (testbit_255 (n - 8)) by lia.
      destruct (Z.ltb_spec (n - 8) 8); [lia|].
      rewrite andb_false_r, orb_false_r.
      destruct (Z.ltb_spec n 24) as [H24|H24].
      * rewrite !(Z.testbit_neg_r _ (n - 24)) by lia. cbn [orb].
        rewrite Z.shiftr_spec, testbit_255 by lia.
        replace (n - 16 + 16) with n by lia.
        destruct (Z.ltb_spec (n - 16) 8); [|lia]. apply andb_true_r.
      * rewrite (Z.shiftr_spec u 16), (testbit_255 (n - 16)) by lia.
        destruct (Z.ltb_spec (n - 16) 8); [lia|].
        rewrite andb_false_r, orb_false_r.
        rewrite Z.shiftr_spec, testbit_255 by lia.
        replace (n - 24 + 24) with n by lia.
        destruct (Z.ltb_spec (n - 24) 8) as [H32|H32]; [apply andb_true_r|].
        rewrite andb_false_r. symmetry.
        apply (testbit_above u 32 n); lia.
Qed.

Lemma u32_bytes_shape (u : Z) :
  exists b0 b1 b2 b3, u32_bytes u = [b0; b1; b2; b3].
Proof. unfold u32_bytes. cbn [map]. eauto. Qed.

Lemma be_i32_bytes (z : Z) :
  int32_wf z ->
  match i32_bytes z with
  | [b0; b1; b2; b3] => be_i32 b0 b1 b2 b3 = z
  | _ => False
  end.
Proof.
  intros Hz. unfold int32_wf in Hz. unfold i32_bytes.
  assert (Hm : 0 <= z mod 2 ^ 32 < 2 ^ 32) by (apply Z.mod_pos_bound; lia).
  pose proof (be_u32_bytes _ Hm) as Hu.
  destruct (u32_bytes (z mod 2 ^ 32)) as [|b0 [|b1 [|b2 [|b3 [|]]]]]; try contradiction.
  unfold be_i32. rewrite Hu.
  destruct (Z.testbit (z mod 2 ^ 32) 31) eqn:Hb.
  - destruct (Z_lt_le_dec z 0) as [Hneg|Hpos].
    + rewrite <- (Z.mod_unique z (2 ^ 32) (-1) (z + 2 ^ 32)); lia.
    + rewrite Z.mod_small in Hb by lia.
      rewrite (testbit_above z 31 31) in Hb by lia. discriminate Hb.
  - destruct (Z_lt_le_dec z 0) as [Hneg|Hpos].
    + exfalso.
      assert (Em : z mod 2 ^ 32 = z + 2 ^ 32)
        by (symmetry; apply (Z.mod_unique z (2 ^ 32) (-1)); lia).
      rewrite Em in Hb.
      assert (Hbit : Z.testbit (z + 2 ^ 32) 31 = true).
      { rewrite Z.testbit_true by lia.
        replace (z + 2 ^ 32) with ((z + 2 ^ 31) + 1 * 2 ^ 31) by lia.
        rewrite Z.div_add, Z.div_small by lia. reflexivity. }
      congruence.
    + apply Z.mod_small. lia.
Qed.

Lemma low_bits_bound (u k : Z) :
  0 <= k -> 0 <= u -> (forall n, k <= n -> Z.testbit u n = false) -> u < 2 ^ k.
Proof.
  intros Hk Hu Hhigh.
  assert (E : u mod 2 ^ k = u).
  { apply Z.bits_inj'. intros n Hn.
    destruct (Z_lt_le_dec n k).
    - apply Z.mod_pow2_bits_low. lia.
    - rewrite Z.mod_pow2_bits_high by lia. symmetry. apply Hhigh. lia. }
  rewrite <- E. apply Z.mod_pos_bound. apply Z.pow_pos_nonneg; lia.
Qed.

Lemma b2z_testbit_pos (s : bool) (n : Z) : 0 < n -> Z.testbit (Z.b2z s) n = false.
Proof.
  intros Hn. apply (testbit_above (Z.b2z s) 1 n); [destruct s; cbn; lia | lia].
Qed.

Lemma f32_word_bit (f : float32) (n : Z) :
  0 <= n ->
  Z.testbit (Z.lor (Z.shiftl (Z.b2z (f_sign f)) 31)
               (Z.lor (Z.shiftl (f_exponent f) 23) (f_fraction f))) n
  = Z.testbit (Z.b2z (f_sign f)) (n - 31)
    || (Z.testbit (f_exponent f) (n - 23) || Z.testbit (f_fraction f) n).
Proof.
  intros Hn. rewrite !Z.lor_spec, !Z.shiftl_spec by lia. reflexivity.
Qed.

Lemma be_f32_bytes (f : float32) :
  float32_wf f ->
  match f32_bytes f with
  | [b0; b1; b2; b3] => be_f32 b0 b1 b2 b3 = f
  | _ => False
  end.
Proof.
  intros [He Hf]. unfold f32_bytes.
  set (u := Z.lor (Z.shiftl (Z.b2z (f_sign f)) 31)
              (Z.lor (Z.shiftl (f_exponent f) 23) (f_fraction f))).
  assert (Hbit : forall n, 0 <= n ->
            Z.testbit u n
            = Z.testbit (Z.b2z (f_sign f)) (n - 31)
              || (Z.testbit (f_exponent f) (n - 23) || Z.testbit (f_fraction f) n))
    by (intros n Hn; apply f32_word_bit; exact Hn).
  assert (Hu0 : 0 <= u).
  { unfold u. rewrite !Z.lor_nonneg, !Z.shiftl_nonneg.
    destruct (f_sign f); cbn; lia. }
  assert (Hu : 0 <= u < 2 ^ 32).
  { split; [exact Hu0|]. apply low_bits_bound; [lia | exact Hu0 |].
    intros n Hn. rewrite Hbit by lia.
    rewrite b2z_testbit_pos by lia.
    rewrite (testbit_above (f_exponent f) 8 (n - 23)) by lia.
    rewrite (testbit_above (f_fraction f) 23 n) by lia. reflexivity. }
  pose proof (be_u32_bytes u Hu) as Hr.
  destruct (u32_bytes u) as [|b0 [|b1 [|b2 [|b3 [|]]]]]; try contradiction.
  unfold be_f32. rewrite Hr. destruct f as [s e m]. cbn [f_sign f_exponent f_fraction] in *.
  f_equal.
  - rewrite Hbit by lia. change (31 - 31) with 0. rewrite Z.b2z_bit0.
    rewrite (testbit_above e 8 (31 - 23)) by lia.
    rewrite (testbit_above m 23 31) by lia.
    rewrite !orb_false_r. reflexivity.
  - apply Z.bits_inj'. intros n Hn.
    rewrite Z.land_spec, Z.shiftr_spec, testbit_255, Hbit by lia.
    replace (n + 23 - 23) with n by lia.
    rewrite (testbit_above m 23 (n + 23)) by lia. rewrite orb_false_r.
    destruct (Z.ltb_spec n 8).
    + rewrite (Z.testbit_neg_r _ (n + 23 - 31)) by lia.
      rewrite andb_true_r. reflexivity.
    + rewrite andb_false_r. symmetry. apply (testbit_above e 8 n); lia.
  - apply Z.bits_inj'. intros n Hn.
    change (2 ^ 23 - 1) with (Z.ones 23).
    rewrite Z.land_spec, Z.testbit_ones_nonneg, Hbit by lia.
    destruct (Z.ltb_spec n 23).
    + rewrite !(Z.testbit_neg_r _ (n - _)) by lia.
      rewrite andb_true_r. reflexivity.
    + rewrite andb_false_r. symmetry. apply (testbit_above m 23 n); lia.
Qed.

Lemma decode_items_flat_map {A} (dec : byte -> byte -> byte -> byte -> A)
    (enc : A -> list byte) (P : A -> Prop) :
  (forall w, P w ->
     match enc w with
     | [b0; b1; b2; b3] => dec b0 b1 b2 b3 = w
     | _ => False
     end) ->
  forall ws, Forall P ws ->
    decode_items dec (List.length ws) (flat_map enc ws) = Some ws /\
    List.length (flat_map enc ws) = (4 * List.length ws)%nat.
Proof.
  intros Henc ws Hws. induction Hws as [|w ws Hw _ [IH1 IH2]].
  - split; reflexivity.
  - specialize (Henc w Hw). cbn [flat_map List.length].
    destruct (enc w) as [|b0 [|b1 [|b2 [|b3 [|]]]]]; try contradiction.
    cbn [app decode_items]. rewrite IH1, Henc. split; [reflexivity|].
    cbn [List.length]. lia.
Qed.

Lemma read_rma_file_written (path : string) (rates : list float32) (occ : list Z) :
  List.length rates = N_PIXELS -> List.length occ = N_PIXELS ->
  Forall float32_wf rates -> Forall int32_wf occ ->
  read_rma_file path (rma_bytes rates occ) =
    inr (mkRmaFile path
           (chunk_rows (fst MAP_SHAPE) (snd MAP_SHAPE) rates)
           (chunk_rows (fst MAP_SHAPE) (snd MAP_SHAPE) occ)
           (fst (_parse_rma_filename path)) (snd (_parse_rma_filename path))).
Proof.
  intros Lr Lo Wr Wo.
  destruct (decode_items_flat_map be_f32 f32_bytes float32_wf be_f32_bytes rates Wr)
    as [Dr Nr].
  destruct (decode_items_flat_map be_i32 i32_bytes int32_wf be_i32_bytes occ Wo)
    as [Do No].
  assert (Hlen : List.length (rma_bytes rates occ) = RMA_FILE_SIZE).
  { unfold rma_bytes. rewrite length_app, Nr, No, Lr, Lo. reflexivity. }
  destruct (read_rma_file_sized path _ Hlen) as (fr & fo & Efr & Efo & _ & _ & E).
  rewrite E. unfold rma_bytes in Efr, Efo.
  rewrite Lr in Dr. rewrite (decode_items_app _ _ _ _ _ Dr) in Efr.
  rewrite skipn_app in Efo.
  rewrite skipn_all2 in Efo by (rewrite Nr, Lr; lia).
  replace (N_PIXELS * 4 - List.length (flat_map f32_bytes rates))%nat with 0%nat in Efo
    by (rewrite Nr, Lr; lia).
  cbn [app skipn] in Efo. rewrite Lo in Do. rewrite Do in Efo.
  injection Efr as <-. injection Efo as <-. reflexivity.
Qed.

(** C8 (BinaryMapParser layout).  On every 32768-byte input the parse
    returns maps whose entry at row [i], column [j] is, for the rate map,
    the big-endian binary32 value of bytes [4*(64*i+j) .. 4*(64*i+j)+3],
    and for the occupancy map the big-endian signed 32-bit integer of the
    four bytes at [16384 + 4*(64*i+j)].  Hence a file written from a flat
    array of 4096 binary32 values followed by 4096 signed 32-bit integers
    is read back exactly: entry [i][j] of each map is element [64*i+j] of
    the array written, in particular at [0][0] and [63][63]. *)
Theorem read_rma_file_layout (path : string) :
  (forall data, List.length data = RMA_FILE_SIZE ->
     exists rma, read_rma_file path data = inr rma /\
       forall i j, (i < 64)%nat -> (j < 64)%nat ->
         let k := (64 * i + j)%nat in
         let o := (N_PIXELS * 4)%nat in
         nth j (nth i (rate_map rma) []) (mkFloat32 false 0 0)
         = be_f32 (nth (4 * k) data x00) (nth (4 * k + 1) data x00)
                  (nth (4 * k + 2) data x00) (nth (4 * k + 3) data x00) /\
         nth j (nth i (occupancy_map rma) []) 0
         = be_i32 (nth (o + 4 * k) data x00) (nth (o + (4 * k + 1)) data x00)
                  (nth (o + (4 * k + 2)) data x00) (nth (o + (4 * k + 3)) data x00)) /\
  (forall rates occ,
     List.length rates = N_PIXELS -> List.length occ = N_PIXELS ->
     Forall float32_wf rates -> Forall int32_wf occ ->
     exists rma, read_rma_file path (rma_bytes rates occ) = inr rma /\
       (forall i j df dz, (i < 64)%nat -> (j < 64)%nat ->
          nth j (nth i (rate_map rma) []) df = nth (64 * i + j) rates df /\
          nth j (nth i (occupancy_map rma) []) dz = nth (64 * i + j) occ dz) /\
       nth 0 (nth 0 (rate_map rma) []) (mkFloat32 false 0 0)
         = nth 0 rates (mkFloat32 false 0 0) /\
       nth 63 (nth 63 (rate_map rma) []) (mkFloat32 false 0 0)
         = nth (N_PIXELS - 1) rates (mkFloat32 false 0 0) /\
       nth 0 (nth 0 (occupancy_map rma) []) 0 = nth 0 occ 0 /\
       nth 63 (nth 63 (occupancy_map rma) []) 0 = nth (N_PIXELS - 1) occ 0).
Proof.
  split.
  - intros data Hlen.
    destruct (read_rma_file_sized path data Hlen) as (fr & fo & Efr & Efo & _ & _ & E).
    eexists. split; [exact E|]. intros i j Hi Hj k o.
    cbn [rate_map occupancy_map]. change (fst MAP_SHAPE) with 64%nat.
    change (snd MAP_SHAPE) with 64%nat.
    assert (Hk : (k < N_PIXELS)%nat) by (unfold N_PIXELS; cbn; lia).
    rewrite !chunk_rows_nth by lia.
    replace (i * 64 + j)%nat with k by lia.
    rewrite (decode_items_nth _ _ _ _ _ Efr k Hk).
    rewrite (decode_items_nth _ _ _ _ _ Efo k Hk).
    rewrite !nth_skipn. split; reflexivity.
  - intros rates occ Lr Lo Wr Wo.
    eexists. split; [exact (read_rma_file_written path rates occ Lr Lo Wr Wo)|].
    cbn [rate_map occupancy_map]. change (fst MAP_SHAPE) with 64%nat.
    change (snd MAP_SHAPE) with 64%nat.
    split; [|repeat split].
    + intros i j df dz Hi Hj. rewrite !chunk_rows_nth by lia.
      replace (i * 64 + j)%nat with (64 * i + j)%nat by lia. split; reflexivity.
    + rewrite chunk_rows_nth by lia. reflexivity.
    + rewrite chunk_rows_nth by lia. reflexivity.
    + rewrite chunk_rows_nth by lia. reflexivity.
    + rewrite chunk_rows_nth by lia. reflexivity.
Qed.

Lemma sample_rates_wf : Forall float32_wf sample_rates.
Proof.
  apply Forall_forall. intros f Hf. unfold sample_rates in Hf.
  apply in_map_iff in Hf. destruct Hf as [k [<- Hk]]. apply in_seq in Hk.
  unfold float32_wf. cbn [f_exponent f_fraction].
  change N_PIXELS with 4096%nat in Hk. lia.
Qed.

Lemma sample_occupancy_wf : Forall int32_wf sample_occupancy.
Proof.
  apply Forall_forall. intros z Hz. unfold sample_occupancy in Hz.
  apply in_map_iff in Hz. destruct Hz as [k [<- Hk]]. apply in_seq in Hk.
  unfold int32_wf. change N_PIXELS with 4096%nat in Hk. lia.
Qed.

(** The sample patterns written and read back, and the four corner
    entries. *)
Lemma read_rma_file_layout_sample :
  exists rma,
    read_rma_file "ESCELL~1.RMA" (rma_bytes sample_rates sample_occupancy) = inr rma /\
    nth 0 (nth 0 (rate_map rma) []) (mkFloat32 false 0 0) = mkFloat32 true 127 0 /\
    nth 63 (nth 63 (rate_map rma) []) (mkFloat32 false 0 0) = mkFloat32 false 127 4095 /\
    nth 0 (nth 0 (occupancy_map rma) []) 0 = -2048 /\
    nth 63 (nth 63 (occupancy_map rma) []) 0 = 2047.
Proof.
  destruct (proj2 (read_rma_file_layout "ESCELL~1.RMA")
              sample_rates sample_occupancy eq_refl eq_refl
              sample_rates_wf sample_occupancy_wf)
    as [rma [E [_ [H00 [H63 [O00 O63]]]]]].
  exists rma. split; [exact E|].
  rewrite H00, H63, O00, O63. repeat split; vm_compute; reflexivity.
Defined.

(** The bytes 3F 80 00 00 are the number one, BF C0 00 00 is -1.5. *)
Example be_f32_one :
  float32_value (be_f32 x3f x80 x00 x00) = S754_finite false 8388608 (-23) /\
  float32_value (be_f32 xbf xc0 x00 x00) = S754_finite true 12582912 (-23).
Proof. split; reflexivity. Qed.

(** ** The header scan of the text format *)

Lemma contains_lstrip (s : string) :
  PyStr.contains ":" (PyStr.lstrip s) = PyStr.contains ":" s.
Proof.
  induction s as [|c s IH]; [reflexivity|]. cbn [PyStr.lstrip].
  destruct (PyStr.isspace c) eqn:Hc; [|reflexivity].
  cbn [PyStr.contains]. rewrite (isspace_not_colon c Hc). exact IH.
Qed.

Lemma contains_rstrip (s : string) :
  PyStr.contains ":" (PyStr.rstrip s) = PyStr.contains ":" s.
Proof.
  induction s as [|c s IH]; [reflexivity|]. cbn [PyStr.rstrip].
  destruct (PyStr.is_empty (PyStr.rstrip s) && PyStr.isspace c) eqn:E.
  - apply andb_true_iff in E. destruct E as [Er Hc].
    apply is_empty_true in Er. rewrite Er in IH.
    cbn [PyStr.contains]. rewrite (isspace_not_colon c Hc), <- IH. reflexivity.
  - cbn [PyStr.contains]. rewrite IH. reflexivity.
Qed.

Lemma contains_strip (s : string) :
  PyStr.contains ":" (PyStr.strip s) = PyStr.contains ":" s.
Proof. unfold PyStr.strip. rewrite contains_lstrip. apply contains_rstrip. Qed.

Lemma contains_lstrip_percent (s : string) :
  PyStr.contains ":" (PyStr.lstrip_char "%" s) = PyStr.contains ":" s.
Proof.
  induction s as [|c s IH]; [reflexivity|]. cbn [PyStr.lstrip_char].
  destruct (Ascii.eqb_spec c "%") as [->|]; [|reflexivity].
  cbn [PyStr.contains]. exact IH.
Qed.

Lemma split1_contains (ch : ascii) (s : string) :
  PyStr.contains ch s = true -> exists k v, PyStr.split1 ch s = [k; v].
Proof.
  induction s as [|c s IH]; [discriminate|]. cbn [PyStr.contains PyStr.split1].
  destruct (Ascii.eqb c ch); [eauto|]. cbn [orb]. intros Hc.
  destruct (IH Hc) as [k [v E]]. rewrite E. eauto.
Qed.

Lemma match_word_contains (ch : ascii) (w x rest : string) :
  PyStr.match_word_ci w x = Some rest ->
  PyStr.contains ch rest = true -> PyStr.contains ch x = true.
Proof.
  revert x. induction w as [|a w IH]; intros x E Hc; cbn in E.
  - injection E as <-. exact Hc.
  - destruct x as [|c x]; [discriminate|].
    destruct (Ascii.eqb (PyStr.lower_char c) a); [|discriminate].
    cbn [PyStr.contains]. rewrite (IH x E Hc). apply orb_true_r.
Qed.

Lemma fields_re_contains (s : string) :
  fields_re s = true -> PyStr.contains ":" s = true.
Proof.
  unfold fields_re. intros Hre.
  assert (Hs1 : forall s1, match PyStr.match_word_ci "fields" (PyStr.lstrip s1) with
                           | Some rest => match PyStr.lstrip rest with
                                          | String ":" _ => true
                                          | _ => false
                                          end
                           | None => false
                           end = true -> PyStr.contains ":" s1 = true).
  { intros s1 H1.
    destruct (PyStr.match_word_ci "fields" (PyStr.lstrip s1)) as [rest|] eqn:Em;
      [|discriminate].
    rewrite <- contains_lstrip. apply (match_word_contains ":" _ _ _ Em).
    rewrite <- contains_lstrip.
    destruct (PyStr.lstrip rest) as [|c r]; [discriminate|].
    destruct (Ascii.eqb_spec c ":") as [->|Hn]; [reflexivity|].
    exfalso. revert H1.
    destruct c as [[] [] [] [] [] [] [] []]; try discriminate; congruence. }
  destruct s as [|c s]; [apply Hs1; exact Hre|].
  destruct (Ascii.eqb_spec c "%") as [->|Hn].
  - cbn [PyStr.contains]. cbn [Ascii.eqb Bool.eqb andb orb].
    apply Hs1. exact Hre.
  - apply Hs1.
    destruct c as [[] [] [] [] [] [] [] []]; try exact Hre; congruence.
Qed.

(** The constructor fails only in [_parse_cluster], on a run of digits
    that is too long, and otherwise fills the record as follows. *)
Lemma parse_cluster_error (header : dict) (e : exn) :
  _parse_cluster header = inl e -> e = ExceedsDigitLimit.
Proof.
  unfold _parse_cluster. destruct (PyStr.is_empty _); [discriminate|].
  destruct (PyStr.search_digits _) as [m|]; [|discriminate].
  destruct (PyStr.int m); [discriminate|].
  intros E. symmetry. exact (inl_inj _ _ E).
Qed.

Lemma CelFile_init_error {V} (path : string) (flds : list string) (hdr : dict)
    (df : DataFrame V) (e : exn) :
  CelFile_init path flds hdr df = inl e -> e = ExceedsDigitLimit.
Proof.
  unfold CelFile_init. destruct (_parse_cluster hdr) as [e'|c] eqn:Ec; [|discriminate].
  cbn [bind]. intros E. apply inl_inj in E. subst e'.
  exact (parse_cluster_error _ _ Ec).
Qed.

Lemma CelFile_init_inv {V} (path : string) (flds : list string) (hdr : dict)
    (df : DataFrame V) (cel : CelFile V) :
  CelFile_init path flds hdr df = inr cel ->
  exists c,
    _parse_cluster hdr = inr c /\
    cel = mkCelFile path flds hdr df c
            (_infer_session_type path)
            (_parse_time_str (dict_get "Start time" hdr ""))
            (_parse_time_str (dict_get "End time" hdr ""))
            (str_in "pos_x" flds && str_in "pos_y" flds).
Proof.
  unfold CelFile_init. destruct (_parse_cluster hdr) as [e|c]; [discriminate|].
  cbn [bind ret]. intros E. apply inr_inj in E. subst cel. exists c. auto.
Qed.

(** The body of the loop raises nothing, and leaves a fields list exactly
    when it had one or the line declares one. *)
Lemma scan_line_ok (s : string) (st : scan_state) :
  exists st',
    scan_line s st = inr st' /\
    sc_endheader_idx st' = sc_endheader_idx st /\
    (sc_fields st' = None <-> sc_fields st = None /\ fields_re s = false).
Proof.
  unfold scan_line.
  set (hdr := PyStr.startswith "%" s && PyStr.contains ":" s && negb (fields_re s)).
  destruct (fields_re s) eqn:Hre.
  - replace hdr with false by (unfold hdr; rewrite andb_false_r; reflexivity).
    cbn [bind ret].
    destruct (split1_contains ":" s (fields_re_contains s Hre)) as [k [v E]].
    rewrite E. eexists. split; [reflexivity|]. cbn.
    split; [reflexivity|]. split; [discriminate | intros [_ ?]; discriminate].
  - destruct hdr eqn:Hh.
    + unfold hdr in Hh. rewrite andb_true_r in Hh.
      apply andb_true_iff in Hh. destruct Hh as [_ Hc].
      destruct (split1_contains ":" (PyStr.strip (PyStr.lstrip_char "%" s)))
        as [k [v E]].
      { rewrite contains_strip, contains_lstrip_percent. exact Hc. }
      rewrite E. cbn [bind ret]. eexists. split; [reflexivity|]. cbn.
      split; [reflexivity|]. tauto.
    + cbn [bind ret]. eexists. split; [reflexivity|].
      split; [reflexivity|]. tauto.
Qed.

Lemma scan_spec (lines : list string) :
  forall (i : nat) (st : scan_state),
  exists st',
    scan lines i st = inr st' /\
    (sc_fields st' = None <->
       sc_fields st = None /\
       forall l, In l (scan_window lines) -> fields_re (PyStr.strip l) = false) /\
    (sc_endheader_idx st = None ->
       (sc_endheader_idx st' = None <->
          forall l, In l lines -> PyStr.strip l <> ENDHEADER)).
Proof.
  induction lines as [|line rest IH]; intros i st.
  - exists st. split; [reflexivity|]. split.
    + split; [intros Hf; split; [exact Hf | intros l []] | intros [Hf _]; exact Hf].
    + intros Hn. split; [intros _ l [] | intros _; exact Hn].
  - cbn [scan scan_window].
    destruct (scan_line_ok (PyStr.strip line) st) as [st1 [E1 [End1 F1]]].
    rewrite E1. cbn [bind].
    destruct (String.eqb_spec (PyStr.strip line) ENDHEADER) as [Heq|Hne].
    + eexists. split; [reflexivity|]. cbn [sc_fields sc_endheader_idx]. split.
      * rewrite F1. split.
        -- intros [Hf Hre]. split; [exact Hf|]. intros l [<-|[]]. exact Hre.
        -- intros [Hf Hall]. split; [exact Hf|]. apply Hall. left. reflexivity.
      * intros _. split; [discriminate|].
        intros Hall. exfalso. apply (Hall line); [left; reflexivity | exact Heq].
    + destruct (IH (S i) st1) as [st' [E' [F' End']]].
      exists st'. split; [exact E'|]. split.
      * rewrite F', F1. split.
        -- intros [[Hf Hre] Hall]. split; [exact Hf|].
           intros l [<-|Hin]; [exact Hre | apply Hall; exact Hin].
        -- intros [Hf Hall]. split; [split; [exact Hf|]|].
           ++ apply Hall. left. reflexivity.
           ++ intros l Hin. apply Hall. right. exact Hin.
      * intros Hn. rewrite End1 in End'. rewrite (End' Hn). split.
        -- intros Hall l [<-|Hin]; [exact Hne | apply Hall; exact Hin].
        -- intros Hall l Hin. apply Hall. right. exact Hin.
Qed.

Lemma missing_errors_differ (path : string) :
  MissingFieldsDeclaration path <> MissingEndHeader path.
Proof. unfold MissingFieldsDeclaration, MissingEndHeader. cbn. discriminate. Qed.

(** The errors [read_csv] can raise are neither of the two header errors. *)
Lemma read_csv_errors {V} `{Float64 V} (text : string) (n : nat)
    (names : list string) (path : string) (e : exn) :
  read_csv text n names = inl e ->
  e <> MissingFieldsDeclaration path /\ e <> MissingEndHeader path.
Proof.
  unfold read_csv, MissingFieldsDeclaration, MissingEndHeader, raise, ret.
  destruct (has_duplicates names).
  - intros E. injection E as <-. cbn. split; discriminate.
  - intros E.
    destruct names as [|nm names];
      destruct (filter keeps_line (map tokens (skipn n (PyStr.file_lines text))))
        as [|r content]; cbn zeta in E;
      repeat match type of E with
             | (if ?c then _ else _) = _ => destruct c
             end;
      try discriminate E; injection E as <-; split; discriminate.
Qed.

(** C5 (TextRecordParser error cases), as the code has it.  With the first
    800 lines of the text, each stripped of the white space around it
    before it is compared, as the scan does: the parse fails
    with MissingFieldsDeclaration exactly when no line of the scan window
    (those lines up to and including the first sentinel line) is a fields
    declaration; when the window holds a fields declaration, it fails with
    MissingEndHeader exactly when none of the first 800 lines is the
    sentinel [%%ENDHEADER]; and when a fields declaration and the sentinel
    both occur, the result is neither of these two errors. *)
Theorem read_cel_file_header_errors {V : Type} `{Float64 V} (path text : string) :
  let lines := firstn 800 (read_lines text) in
  let parsed : result (CelFile V) := read_cel_file path text in
  (parsed = inl (MissingFieldsDeclaration path) <->
     forall l, In l (scan_window lines) -> fields_re (PyStr.strip l) = false) /\
  ((exists l, In l (scan_window lines) /\ fields_re (PyStr.strip l) = true) ->
     (parsed = inl (MissingEndHeader path) <->
        forall l, In l lines -> PyStr.strip l <> ENDHEADER)) /\
  ((exists l, In l (scan_window lines) /\ fields_re (PyStr.strip l) = true) ->
   (exists l, In l lines /\ PyStr.strip l = ENDHEADER) ->
     parsed <> inl (MissingFieldsDeclaration path) /\
     parsed <> inl (MissingEndHeader path)).
Proof.
  intros lines parsed.
  destruct (scan_spec lines 0%nat (mkScan None [] None)) as [st [Es [Hf He]]].
  cbn [sc_fields sc_endheader_idx] in Hf, He. specialize (He eq_refl).
  assert (Hparsed : parsed =
            match sc_fields st with
            | None => raise (MissingFieldsDeclaration path)
            | Some fields =>
                match sc_endheader_idx st with
                | None => raise (MissingEndHeader path)
                | Some idx =>
                    df <- read_csv text (S idx) fields ;;
                    CelFile_init path fields (sc_header st) (dropna_all df)
                end
            end).
  { unfold parsed, read_cel_file. fold lines. rewrite Es. reflexivity. }
  assert (Hcsv : forall fields idx,
            (df <- read_csv text (S idx) fields ;;
             CelFile_init path fields (sc_header st) (dropna_all df))
            <> inl (MissingFieldsDeclaration path) /\
            (df <- @read_csv V _ text (S idx) fields ;;
             CelFile_init path fields (sc_header st) (dropna_all df))
            <> inl (MissingEndHeader path)).
  { intros fields idx.
    destruct (read_csv text (S idx) fields) as [e|df] eqn:Ec; cbn [bind ret].
    - destruct (read_csv_errors _ _ _ path e Ec) as [N1 N2].
      split; intros Heq; injection Heq as Heq; contradiction.
    - destruct (CelFile_init path fields (sc_header st) (dropna_all df))
        as [e|cel] eqn:Ei; [|split; discriminate].
      apply CelFile_init_error in Ei. subst e.
      unfold ExceedsDigitLimit, MissingFieldsDeclaration, MissingEndHeader.
      split; cbn; discriminate. }
  assert (Hwin : (exists l, In l (scan_window lines) /\ fields_re (PyStr.strip l) = true)
                 -> sc_fields st <> None).
  { intros [l [Hin Hre]] Hnone. apply Hf in Hnone. destruct Hnone as [_ Hall].
    rewrite (Hall l Hin) in Hre. discriminate Hre. }
  rewrite Hparsed. split; [|split].
  - split.
    + intros Hp. apply Hf.
      destruct (sc_fields st) as [fields|]; [|reflexivity]. exfalso.
      destruct (sc_endheader_idx st) as [idx|].
      * exact (proj1 (Hcsv fields idx) Hp).
      * injection Hp as Hp. symmetry in Hp. revert Hp.
        unfold MissingFieldsDeclaration, MissingEndHeader. cbn. discriminate.
    + intros Hall. assert (Hn : sc_fields st = None) by (apply Hf; tauto).
      rewrite Hn. reflexivity.
  - intros Hex. apply Hwin in Hex.
    destruct (sc_fields st) as [fields|]; [|contradiction]. rewrite <- He. split.
    + intros Hp. destruct (sc_endheader_idx st) as [idx|]; [|reflexivity].
      exfalso. exact (proj2 (Hcsv fields idx) Hp).
    + intros Hn. rewrite Hn. reflexivity.
  - intros Hex [l [Hin Hl]]. apply Hwin in Hex.
    destruct (sc_fields st) as [fields|]; [|contradiction].
    destruct (sc_endheader_idx st) as [idx|] eqn:Ei.
    + apply Hcsv.
    + exfalso. exact (proj1 He eq_refl l Hin Hl).
Qed.

(** C5 as stated fails: in the file below a fields line is seen and no
    line equals the sentinel token, the sentinel line being indented, and
    yet the parse does not fail with MissingEndHeader, and succeeds. *)
Lemma indented_sentinel_parses :
  (exists l, In l (scan_window (firstn 800 (read_lines sample_indented))) /\
             fields_re (PyStr.strip l) = true) /\
  (forall l, In l (firstn 800 (read_lines sample_indented)) -> l <> ENDHEADER) /\
  exists cel : CelFile Z,
    read_cel_file "BL1.CEL" sample_indented = inr cel /\
    rows (data cel) = [[Num 5]].
Proof.
  split; [|split].
  - exists "% Fields: time". split; [left; reflexivity | reflexivity].
  - assert (Hl : firstn 800 (read_lines sample_indented)
                 = ["% Fields: time"; "  %%ENDHEADER  "; "5"])
      by (vm_compute; reflexivity).
    rewrite Hl. intros l [<-|[<-|[<-|[]]]]; discriminate.
  - vm_compute. eexists. split; reflexivity.
Qed.

(** ** Sorting *)

Section SortingFacts.
Context {A : Type} (le : A -> A -> bool).

Let leP (a b : A) : Prop := le a b = true.

Lemma insert_sorted_perm (x : A) (l : list A) :
  Permutation (x :: l) (insert_sorted le x l).
Proof.
  induction l as [|y l IH]; cbn [insert_sorted]; [apply Permutation_refl|].
  destruct (le x y); [apply Permutation_refl|].
  eapply perm_trans; [apply perm_swap|]. apply perm_skip. exact IH.
Qed.

Lemma stable_sort_perm (l : list A) : Permutation l (stable_sort le l).
Proof.
  induction l as [|x l IH]; cbn [stable_sort]; [apply perm_nil|].
  eapply perm_trans; [apply perm_skip; exact IH|]. apply insert_sorted_perm.
Qed.

Lemma stable_sort_in (l : list A) (x : A) : In x (stable_sort le l) <-> In x l.
Proof.
  split; apply Permutation_in;
    [apply Permutation_sym|]; apply stable_sort_perm.
Qed.

(** A sorted list is left as it is. *)
Lemma stable_sort_sorted_id (l : list A) :
  StronglySorted leP l -> stable_sort le l = l.
Proof.
  induction 1 as [|x l Hs IH Hx]; [reflexivity|].
  cbn [stable_sort]. rewrite IH. destruct l as [|y l]; [reflexivity|].
  cbn [insert_sorted]. inversion Hx as [|? ? Hxy _]; subst.
  unfold leP in Hxy. rewrite Hxy. reflexivity.
Qed.

Hypothesis le_total : forall a b, le a b = true \/ le b a = true.
Hypothesis le_trans : forall a b c, le a b = true -> le b c = true -> le a c = true.

Lemma insert_sorted_sorted (x : A) (l : list A) :
  StronglySorted leP l -> StronglySorted leP (insert_sorted le x l).
Proof.
  induction 1 as [|y l Hs IH Hy]; cbn [insert_sorted].
  - constructor; constructor.
  - destruct (le x y) eqn:Exy.
    + constructor; [constructor; assumption|].
      constructor; [exact Exy|].
      eapply Forall_impl; [|exact Hy]. intros z Hz. exact (le_trans _ _ _ Exy Hz).
    + constructor; [exact IH|].
      eapply Permutation_Forall; [apply insert_sorted_perm|].
      constructor; [|exact Hy].
      destruct (le_total x y) as [Hc|Hc]; [congruence | exact Hc].
Qed.

Lemma stable_sort_sorted (l : list A) : StronglySorted leP (stable_sort le l).
Proof.
  induction l as [|x l IH]; cbn [stable_sort]; [constructor|].
  apply insert_sorted_sorted. exact IH.
Qed.

(** Stability, as seen by a search: when the elements that pass a test
    [p] are equivalent for the order, the first hit is the same before
    and after sorting. *)
Lemma insert_sorted_find (p : A -> bool) (x : A) (l : list A) :
  (forall a b, p a = true -> p b = true -> le a b = true) ->
  find p (insert_sorted le x l) = if p x then Some x else find p l.
Proof.
  intros Hp. induction l as [|y l IH]; cbn [insert_sorted find]; [reflexivity|].
  destruct (le x y) eqn:Exy; cbn [find]; [reflexivity|].
  destruct (p y) eqn:Py; [|exact IH].
  destruct (p x) eqn:Px; [|reflexivity].
  rewrite (Hp x y Px Py) in Exy. discriminate Exy.
Qed.

Lemma stable_sort_find (p : A -> bool) (l : list A) :
  (forall a b, p a = true -> p b = true -> le a b = true) ->
  find p (stable_sort le l) = find p l.
Proof.
  intros Hp. induction l as [|x l IH]; [reflexivity|].
  cbn [stable_sort find]. rewrite insert_sorted_find by exact Hp.
  rewrite IH. reflexivity.
Qed.

End SortingFacts.

(** ** The order of the dictionary keys *)

Lemma str_compare_refl (s : string) : String.compare s s = Eq.
Proof.
  pose proof (String.compare_antisym s s) as H.
  destruct (String.compare s s); [reflexivity | discriminate H | discriminate H].
Qed.


Lemma str_compare_gt_lt (a b : string) :
  String.compare a b = Gt <-> String.compare b a = Lt.
Proof.
  rewrite (String.compare_antisym a b).
  destruct (String.compare b a); cbn; split; congruence.
Qed.









Lemma unit_key_eqb_eq (a b : unit_key) : unit_key_eqb a b = true <-> a = b.
Proof.
  destruct a as [t1 c1], b as [t2 c2]. unfold unit_key_eqb.
  rewrite andb_true_iff, Z.eqb_eq, String.eqb_eq.
  split; [intros [-> ->]; reflexivity | intros E; injection E; auto].
Qed.



(** ** The epoch set *)






(** The example of the specification: the triple (0, 600, BL) in two files
    and (600, 1200, ES) in a third give two epochs in this order. *)
Example epochs_sample : epochs sample_records = [(0, 600, "BL"); (600, 1200, "ES")].
Proof. vm_compute. reflexivity. Qed.

(** ** The unit table *)

Lemma Float64Laws_Z : Float64Laws Z.
Proof.
  split; cbn [fleb Float64_Z]; intros.
  - destruct (Z.leb_spec a b), (Z.leb_spec b a); auto; lia.
  - rewrite Z.leb_le in *. lia.
  - rewrite Z.leb_le in *. lia.
Qed.

Section UnitFacts.
Context {V : Type} `{Float64 V}.

Lemma dd_get_append (k k' : unit_key) (a : list V) (d : list (unit_key * list (list V))) :
  dd_get k' (dd_append k a d)
  = if unit_key_eqb k k' then (dd_get k' d ++ [a])%list else dd_get k' d.
Proof.
  induction d as [|[k0 l] d IH]; cbn [dd_append dd_get].
  - destruct (unit_key_eqb k k'); reflexivity.
  - destruct (unit_key_eqb k0 k) eqn:E0; cbn [dd_get].
    + apply unit_key_eqb_eq in E0. subst k0.
      destruct (unit_key_eqb k k'); reflexivity.
    + destruct (unit_key_eqb k0 k') eqn:E1; [|exact IH].
      apply unit_key_eqb_eq in E1. subst k0.
      destruct (unit_key_eqb k k') eqn:E2; [|reflexivity].
      apply unit_key_eqb_eq in E2. subst k'.
      assert (Ht : unit_key_eqb k k = true) by (apply unit_key_eqb_eq; reflexivity).
      congruence.
Qed.

Lemma dd_keys_append (k k' : unit_key) (a : list V) (d : list (unit_key * list (list V))) :
  In k' (map fst (dd_append k a d)) <-> In k' (map fst d) \/ k' = k.
Proof.
  induction d as [|[k0 l] d IH]; cbn [dd_append map fst In].
  - split; [intros [<-|[]]; auto | intros [[]| ->]; auto].
  - destruct (unit_key_eqb k0 k) eqn:E0; cbn [map fst In].
    + apply unit_key_eqb_eq in E0. subst k0. split; [tauto|].
      intros [[?|?]| ->]; auto.
    + rewrite IH. tauto.
Qed.

Lemma dd_keys_nodup (k : unit_key) (a : list V) (d : list (unit_key * list (list V))) :
  NoDup (map fst d) -> NoDup (map fst (dd_append k a d)).
Proof.
  induction d as [|[k0 l] d IH]; cbn [dd_append map fst]; intros Hd.
  - constructor; [intros [] | constructor].
  - inversion Hd as [|? ? Hnin Hd']; subst.
    destruct (unit_key_eqb k0 k) eqn:E0; cbn [map fst].
    + constructor; assumption.
    + constructor; [|exact (IH Hd')].
      rewrite dd_keys_append. intros [Hin| ->]; [contradiction|].
      assert (Ht : unit_key_eqb k k = true) by (apply unit_key_eqb_eq; reflexivity).
      congruence.
Qed.

Lemma group_times_cons (p : string * CelFile V) (all : list (string * CelFile V))
    (k : unit_key) :
  group_times (p :: all) k
  = ((if unit_key_eqb (unit_key_of p) k then valid_spike_times (snd p) else [])
       ++ group_times all k)%list.
Proof. reflexivity. Qed.

Lemma unit_spikes_spec (all : list (string * CelFile V)) :
  forall d d', unit_spikes all d = inr d' ->
    (forall k, List.concat (dd_get k d')
               = (List.concat (dd_get k d) ++ group_times all k)%list) /\
    (forall k, In k (map fst d') <-> In k (map fst d) \/ group_times all k <> []) /\
    (NoDup (map fst d) -> NoDup (map fst d')).
Proof.
  induction all as [|[tt cel] all IH]; intros d d' E.
  - cbn in E. injection E as <-. split; [|split].
    + intros k. cbn. rewrite app_nil_r. reflexivity.
    + intros k. cbn. split; [auto | intros [?|Hn]; [assumption | congruence]].
    + auto.
  - cbn [unit_spikes] in E.
    assert (Hv : forall k, group_times ((tt, cel) :: all) k
                 = ((if unit_key_eqb (tt, cluster_id_of cel) k
                     then valid_spike_times cel else []) ++ group_times all k)%list)
      by (intros k; apply group_times_cons).
    unfold valid_spike_times in Hv.
    destruct (spike_times cel) as [e|ts]; [discriminate E|]. cbn [bind] in E.
    destruct (drop_nan ts) as [|v vs] eqn:Ev; cbn [List.length Nat.ltb Nat.leb] in E.
    + destruct (IH _ _ E) as [Hc [Hk Hn]]. split; [|split; [|exact Hn]].
      * intros k. rewrite Hc, Hv. destruct (unit_key_eqb _ k); reflexivity.
      * intros k. rewrite Hk, Hv. destruct (unit_key_eqb _ k); reflexivity.
    + destruct (IH _ _ E) as [Hc [Hk Hn]]. split; [|split].
      * intros k. rewrite Hc, Hv, dd_get_append.
        destruct (unit_key_eqb _ k); [|reflexivity].
        rewrite concat_app. cbn [List.concat]. rewrite app_nil_r, app_assoc.
        reflexivity.
      * intros k. rewrite Hk, Hv, dd_keys_append.
        destruct (unit_key_eqb (tt, cluster_id_of cel) k) eqn:Ek.
        -- apply unit_key_eqb_eq in Ek. subst k. split; [|auto].
           intros _. right. discriminate.
        -- cbn [app]. split; [|tauto]. intros [[?| ->]|?]; auto.
           assert (Ht : unit_key_eqb (tt, cluster_id_of cel) (tt, cluster_id_of cel) = true)
             by (apply unit_key_eqb_eq; reflexivity).
           congruence.
      * intros Hd. apply Hn. apply dd_keys_nodup. exact Hd.
Qed.

Lemma unit_spikes_total (all : list (string * CelFile V)) :
  (forall p, In p all -> exists ts, spike_times (snd p) = inr ts) ->
  forall d, exists d', unit_spikes all d = inr d'.
Proof.
  induction all as [|[tt cel] all IH]; intros Hall d.
  - exists d. reflexivity.
  - cbn [unit_spikes].
    destruct (Hall (tt, cel) (or_introl eq_refl)) as [ts Ets]. cbn [snd] in Ets.
    rewrite Ets. cbn [bind].
    destruct (0 <? List.length (drop_nan ts))%nat;
      apply IH; intros p Hp; apply Hall; right; exact Hp.
Qed.

(** The rows [units] returns, from the dictionary the loop built. *)
Lemma units_rows (all : list (string * CelFile V)) (us : list (string * Z * list V)) :
  units all = inr us ->
  exists d,
    unit_spikes all [] = inr d /\
    map (fun u => (fst (fst u), snd (fst u))) us
      = stable_sort unit_key_leb (map fst d) /\
    forall tt cid ts,
      In (tt, cid, ts) us <->
      In (tt, cid) (map fst d) /\
      ts = stable_sort fleb (group_times all (tt, cid)).
Proof.
  unfold units. destruct (unit_spikes all []) as [e|d] eqn:E; [discriminate|].
  cbn [bind ret]. intros Eus. injection Eus as <-. exists d.
  destruct (unit_spikes_spec all [] d E) as [Hc _].
  split; [reflexivity|]. split.
  - rewrite map_map. cbn [fst snd].
    erewrite map_ext; [apply map_id|]. intros [t c]. reflexivity.
  - intros tt cid ts. rewrite in_map_iff. split.
    + intros [[t c] [Eu Hin]]. cbn [fst snd] in Eu. injection Eu as -> -> <-.
      apply stable_sort_in in Hin. split; [exact Hin|].
      rewrite Hc. reflexivity.
    + intros [Hin ->]. exists (tt, cid). cbn [fst snd]. split.
      * rewrite Hc. reflexivity.
      * apply stable_sort_in. exact Hin.
Qed.

End UnitFacts.

Lemma group_times_nil {V} `{Float64 V} (all : list (string * CelFile V)) (k : unit_key) :
  group_times all k = [] <->
  forall p, In p all -> unit_key_of p = k -> valid_spike_times (snd p) = [].
Proof.
  induction all as [|p all IH].
  - split; [intros _ p [] | reflexivity].
  - rewrite group_times_cons. split.
    + intros E q [<-|Hq] Hk.
      * apply app_eq_nil in E. destruct E as [E _].
        assert (Ht : unit_key_eqb (unit_key_of p) k = true)
          by (apply unit_key_eqb_eq; exact Hk).
        rewrite Ht in E. exact E.
      * apply app_eq_nil in E. destruct E as [_ E].
        exact (proj1 IH E q Hq Hk).
    + intros Hall.
      assert (E : group_times all k = [])
        by (apply IH; intros q Hq; apply Hall; right; exact Hq).
      rewrite E, app_nil_r.
      destruct (unit_key_eqb (unit_key_of p) k) eqn:Ek; [|reflexivity].
      apply Hall; [left; reflexivity | apply unit_key_eqb_eq; exact Ek].
Qed.




(** C10 (empty units omitted).  A group has a row in the unit table
    exactly when its records hold some valid spike time; so a group whose
    records all have no valid spike time has no row, no row has an empty
    spike-time sequence, and leaving out the records without a valid spike
    time leaves the unit table unchanged. *)
Theorem empty_units_omitted {V : Type} `{Float64 V}
    (all : list (string * CelFile V)) (us : list (string * Z * list V)) :
  units all = inr us ->
  (forall tt cid, (exists ts, In (tt, cid, ts) us) <-> group_times all (tt, cid) <> []) /\
  (forall tt cid,
      (forall p, In p all -> unit_key_of p = (tt, cid) ->
                 valid_spike_times (snd p) = []) ->
      forall ts, ~ In (tt, cid, ts) us) /\
  (forall tt cid ts, In (tt, cid, ts) us -> ts <> []) /\
  units (filter (fun p => (0 <? List.length (valid_spike_times (snd p)))%nat) all)
    = inr us.
Proof.
  intros Eus. destruct (units_rows all us Eus) as [d [Ed [_ Hrows]]].
  destruct (unit_spikes_spec all [] d Ed) as [_ [Hk _]].
  assert (Hiff : forall tt cid,
            (exists ts, In (tt, cid, ts) us) <-> group_times all (tt, cid) <> []).
  { intros tt cid. split.
    - intros [ts Hin]. apply Hrows in Hin. destruct Hin as [Hin _].
      apply Hk in Hin. destruct Hin as [[]|Hne]. exact Hne.
    - intros Hne. eexists. apply Hrows. split; [|reflexivity].
      apply Hk. right. exact Hne. }
  split; [exact Hiff|]. split; [|split].
  - intros tt cid Hall ts Hin.
    apply (proj1 (Hiff tt cid)); [eauto|]. apply group_times_nil. exact Hall.
  - intros tt cid ts Hin Hnil. pose proof (proj1 (Hiff tt cid) (ex_intro _ ts Hin)) as Hne.
    apply Hrows in Hin. destruct Hin as [_ Ets]. subst ts.
    apply Hne. apply Permutation_nil.
    rewrite <- Hnil. apply Permutation_sym, stable_sort_perm.
  - assert (Hf : forall l d0 d1, unit_spikes l d0 = inr d1 ->
              unit_spikes
                (filter (fun p => (0 <? List.length (valid_spike_times (snd p)))%nat) l) d0
              = inr d1).
    { induction l as [|[tt cel] l IH]; intros d0 d1 E; [exact E|].
      cbn [unit_spikes] in E. cbn [filter snd]. unfold valid_spike_times.
      destruct (spike_times cel) as [e|ts] eqn:Ets; [discriminate E|]. cbn [bind] in E.
      destruct (0 <? List.length (drop_nan ts))%nat eqn:El.
      - cbn [unit_spikes]. rewrite Ets. cbn [bind]. rewrite El. apply IH. exact E.
      - apply IH. exact E. }
    revert Eus. unfold units. rewrite Ed, (Hf _ _ _ Ed). auto.
Qed.

(** A session with a file whose only time is a word: its group (TT0, 4)
    has no row. *)
Lemma empty_units_omitted_sample :
  units sample_records_words = inr [("TT0", 3, [1; 3])] /\
  group_times sample_records_words ("TT0", 4) = [] /\
  forall ts, ~ In ("TT0", 4, ts) [("TT0", 3, [1; 3])].
Proof.
  assert (E : units sample_records_words = inr [("TT0", 3, [1; 3])])
    by (vm_compute; reflexivity).
  split; [exact E|]. split; [vm_compute; reflexivity|].
  apply (proj1 (proj2 (@empty_units_omitted Z _ sample_records_words _ E))).
  apply group_times_nil. vm_compute. reflexivity.
Defined.

(** ** The position trace *)

Lemma take_seq {A} (l pre : list A) :
  take (pre ++ l) (seq (List.length pre) (List.length l)) = l.
Proof.
  revert pre. induction l as [|x l IH]; intros pre; [reflexivity|].
  cbn [List.length seq]. unfold take. cbn [flat_map].
  rewrite nth_error_app2 by lia. rewrite Nat.sub_diag. cbn [nth_error app].
  f_equal. specialize (IH (pre ++ [x])%list).
  rewrite <- app_assoc, length_app in IH. cbn [app List.length] in IH.
  rewrite Nat.add_1_r in IH. exact IH.
Qed.

Lemma map_snd_combine_seq {A} (l : list A) (idx : list nat) :
  List.length l = List.length idx -> map snd (combine l idx) = idx.
Proof.
  revert idx. induction l as [|x l IH]; intros [|i idx] E; try discriminate E.
  - reflexivity.
  - cbn. f_equal. apply IH. cbn in E. lia.
Qed.

Lemma find_all_false {A} (p : A -> bool) (l : list A) :
  (forall x, In x l -> p x = false) -> find p l = None.
Proof.
  induction l as [|x l IH]; intros Hall; [reflexivity|]. cbn [find].
  rewrite (Hall x (or_introl eq_refl)). apply IH. intros y Hy. apply Hall. right. exact Hy.
Qed.

Section PositionFacts.
Context {V : Type} `{Float64 V} `{!Float64Laws V}.

Let le3 (a b : V * V * V) : bool := fleb (time_of a) (time_of b).

Lemma fleb_refl (a : V) : fleb a a = true.
Proof. destruct (fleb_total a a); assumption. Qed.

Lemma feqb_eq (a b : V) : feqb a b = true <-> a = b.
Proof.
  unfold feqb. rewrite andb_true_iff. split.
  - intros [Hab Hba]. exact (fleb_antisym a b Hab Hba).
  - intros ->. split; apply fleb_refl.
Qed.

Lemma feqb_neq (a b : V) : feqb a b = false <-> a <> b.
Proof.
  split.
  - intros E Heq. apply feqb_eq in Heq. congruence.
  - intros Hne. destruct (feqb a b) eqn:E; [|reflexivity].
    apply feqb_eq in E. contradiction.
Qed.

Lemma flt_trans_l (a b c : V) : fle a b -> flt b c -> flt a c.
Proof.
  unfold fle, flt. intros Hab [Hbc Hne]. split; [exact (fleb_trans _ _ _ Hab Hbc)|].
  intros ->. apply Hne. apply fleb_antisym; assumption.
Qed.

(** On a sorted array the stable argsort is the identity. *)
Lemma argsort_sorted (ar : list V) :
  StronglySorted fle ar -> argsort ar = seq 0 (List.length ar).
Proof.
  intros Hs. unfold argsort.
  rewrite stable_sort_sorted_id.
  - apply map_snd_combine_seq. rewrite length_seq. reflexivity.
  - generalize (seq 0 (List.length ar)). induction Hs as [|x ar Hs IH Hx];
      intros [|i idx]; cbn [combine]; try constructor.
    + apply IH.
    + apply Forall_forall. intros [y j] Hin. apply in_combine_l in Hin.
      rewrite Forall_forall in Hx. exact (Hx y Hin).
Qed.

(** Taking the heads of the runs by index is taking them directly. *)
Lemma take_run_heads {B} (f : V * V * V -> B) (l : list (V * V * V)) :
  forall (pre : list (V * V * V)) (prev : option V),
    take (map f (pre ++ l))
      (run_heads prev (map time_of l) (seq (List.length pre) (List.length l)))
    = map f (run_firsts prev l).
Proof.
  induction l as [|s l IH]; intros pre prev; [reflexivity|].
  cbn [map List.length seq run_heads run_firsts].
  assert (Hrest : forall prev',
            take (map f (pre ++ s :: l))
              (run_heads prev' (map time_of l) (seq (S (List.length pre)) (List.length l)))
            = map f (run_firsts prev' l)).
  { intros prev'. specialize (IH (pre ++ [s])%list prev').
    rewrite <- app_assoc, length_app in IH. cbn [app List.length] in IH.
    rewrite Nat.add_1_r in IH. exact IH. }
  assert (Hhead : forall idx,
            take (map f (pre ++ s :: l)) (List.length pre :: idx)
            = f s :: take (map f (pre ++ s :: l)) idx).
  { intros idx. unfold take. cbn [flat_map].
    rewrite nth_error_map, nth_error_app2 by lia.
    rewrite Nat.sub_diag. reflexivity. }
  destruct prev as [u|].
  - destruct (feqb (time_of s) u).
    + apply Hrest.
    + rewrite Hhead, Hrest. reflexivity.
  - rewrite Hhead, Hrest. reflexivity.
Qed.

Lemma run_firsts_incl (l : list (V * V * V)) :
  forall prev s, In s (run_firsts prev l) -> In s l.
Proof.
  induction l as [|x l IH]; intros prev s; [intros []|]. cbn [run_firsts].
  destruct prev as [u|]; [destruct (feqb (time_of x) u)|]; cbn [In];
    intros Hin; try (destruct Hin as [->|Hin]; [left; reflexivity|]);
    right; exact (IH _ _ Hin).
Qed.

Lemma run_firsts_sorted (l : list (V * V * V)) :
  StronglySorted (fun a b => le3 a b = true) l ->
  forall u, Forall (fun s => fle u (time_of s)) l ->
    StronglySorted flt (map time_of (run_firsts (Some u) l)) /\
    Forall (fun s => flt u (time_of s)) (run_firsts (Some u) l).
Proof.
  induction 1 as [|x l Hs IH Hx]; intros u Hu; cbn [run_firsts map].
  - split; constructor.
  - inversion Hu as [|? ? Hux Hul]; subst.
    destruct (IH (time_of x) Hx) as [IHs IHf].
    destruct (feqb (time_of x) u) eqn:E.
    + apply feqb_eq in E. rewrite <- E. split; assumption.
    + apply feqb_neq in E. cbn [map].
      assert (Hlt : flt u (time_of x)) by (split; [exact Hux | congruence]).
      split.
      * constructor; [exact IHs|]. apply Forall_map. exact IHf.
      * constructor; [exact Hlt|].
        eapply Forall_impl; [|exact IHf]. intros s Hsx.
        exact (flt_trans_l _ _ _ Hux Hsx).
Qed.

Lemma run_firsts_find (t : V) (l : list (V * V * V)) :
  StronglySorted (fun a b => le3 a b = true) l ->
  forall u, Forall (fun s => fle u (time_of s)) l ->
    first_at t (run_firsts (Some u) l)
    = if feqb u t then None else first_at t l.
Proof.
  unfold first_at.
  induction 1 as [|x l Hs IH Hx]; intros u Hu; cbn [run_firsts find].
  - destruct (feqb u t); reflexivity.
  - inversion Hu as [|? ? Hux Hul]; subst.
    specialize (IH (time_of x) Hx).
    destruct (feqb (time_of x) u) eqn:E.
    + apply feqb_eq in E. rewrite E in IH |- *. rewrite IH.
      destruct (feqb u t); reflexivity.
    + apply feqb_neq in E. cbn [find].
      destruct (feqb (time_of x) t) eqn:Ext.
      * apply feqb_eq in Ext.
        assert (Hut : feqb u t = false) by (apply feqb_neq; congruence).
        rewrite Hut. reflexivity.
      * rewrite IH. destruct (feqb u t) eqn:Eut; [|reflexivity].
        apply feqb_eq in Eut. subst t.
        apply find_all_false. intros y Hy. apply feqb_neq. intros Hyu.
        rewrite Forall_forall in Hx. specialize (Hx y Hy).
        unfold le3 in Hx. rewrite Hyu in Hx.
        apply E. apply fleb_antisym; assumption.
Qed.

Lemma run_firsts_none_find (t : V) (l : list (V * V * V)) :
  StronglySorted (fun a b => le3 a b = true) l ->
  first_at t (run_firsts None l) = first_at t l.
Proof.
  intros Hs. destruct Hs as [|x l Hs Hx]; [reflexivity|].
  unfold first_at. cbn [run_firsts find].
  destruct (feqb (time_of x) t) eqn:E; [reflexivity|].
  pose proof (run_firsts_find t l Hs (time_of x) Hx) as Hf.
  unfold first_at in Hf. rewrite Hf, E. reflexivity.
Qed.

Lemma run_firsts_none_sorted (l : list (V * V * V)) :
  StronglySorted (fun a b => le3 a b = true) l ->
  StronglySorted flt (map time_of (run_firsts None l)).
Proof.
  intros Hs. destruct Hs as [|x l Hs Hx]; [constructor|].
  cbn [run_firsts map].
  destruct (run_firsts_sorted l Hs (time_of x) Hx) as [S1 F1].
  constructor; [exact S1|]. apply Forall_map. exact F1.
Qed.

Lemma stable_sort_first_at (t : V) (l : list (V * V * V)) :
  first_at t (stable_sort le3 l) = first_at t l.
Proof.
  unfold first_at. apply stable_sort_find.
  intros a b Ha Hb. apply feqb_eq in Ha, Hb. unfold le3.
  rewrite Ha, Hb. apply fleb_refl.
Qed.

Lemma le3_sorted (l : list (V * V * V)) :
  StronglySorted (fun a b => le3 a b = true) (stable_sort le3 l).
Proof.
  apply stable_sort_sorted; unfold le3; intros.
  - apply fleb_total.
  - eapply fleb_trans; eassumption.
Qed.

Lemma le3_sorted_times (l : list (V * V * V)) :
  StronglySorted (fun a b => le3 a b = true) l -> StronglySorted fle (map time_of l).
Proof.
  induction 1 as [|x l Hs IH Hx]; cbn [map]; constructor; [exact IH|].
  apply Forall_map. exact Hx.
Qed.

(** The three arrays [_add_position_data] returns are the columns of the
    pooled samples, sorted by time, without the samples that repeat the
    time of the one before. *)
Lemma position_arrays (all : list (string * CelFile V))
    (r : option (list V * list V * list V)) :
  _add_position_data all = inr r ->
  exists pool,
    time_pos_pairs all = inr pool /\
    r = match pool with
        | [] => None
        | _ =>
            let trace := run_firsts None (stable_sort le3 pool) in
            Some (map time_of trace, map (fun p => snd (fst p)) trace, map snd trace)
        end.
Proof.
  unfold _add_position_data.
  destruct (time_pos_pairs all) as [e|pool]; [discriminate|]. cbn [bind].
  intros E. exists pool. split; [reflexivity|].
  destruct pool as [|s0 pool0]; [injection E as <-; reflexivity|].
  set (pool := s0 :: pool0) in *. unfold ret in E.
  apply inr_inj in E. rewrite <- E. cbv zeta.
  fold le3. set (sorted := stable_sort le3 pool).
  assert (Hs : StronglySorted (fun a b => le3 a b = true) sorted) by apply le3_sorted.
  unfold unique_index.
  rewrite (argsort_sorted _ (le3_sorted_times _ Hs)).
  pose proof (take_seq (map time_of sorted) []) as Ht.
  cbn [app List.length] in Ht. rewrite Ht. clear Ht.
  rewrite length_map.
  pose proof (take_run_heads time_of sorted [] None) as H1.
  pose proof (take_run_heads (fun p => snd (fst p)) sorted [] None) as H2.
  pose proof (take_run_heads snd sorted [] None) as H3.
  cbn [app List.length] in H1, H2, H3. rewrite H1, H2, H3. reflexivity.
Qed.

End PositionFacts.

Section PoolFacts.
Context {V : Type} `{Float64 V}.

Lemma zip_masked_in (times x y : list (option V)) (s : V * V * V) :
  In s (zip_masked times x y) <->
  exists i, nth_error times i = Some (Some (fst (fst s))) /\
            nth_error x i = Some (Some (snd (fst s))) /\
            nth_error y i = Some (Some (snd s)).
Proof.
  revert x y. induction times as [|t times IH]; intros x y.
  - cbn. split; [intros [] | intros [[|i] [E _]]; discriminate E].
  - destruct x as [|px x]; [|destruct y as [|py y]].
    + cbn. split; [intros [] | intros [[|i] [_ [E _]]]; discriminate E].
    + cbn. split; [intros [] | intros [[|i] [_ [_ E]]]; discriminate E].
    + assert (Hstep : forall l,
                (In s l <-> In s (zip_masked times x y)) ->
                (match t, px, py with
                 | Some a, Some b, Some c => s = (a, b, c)
                 | _, _, _ => False
                 end \/ In s l) <->
                exists i, nth_error (t :: times) i = Some (Some (fst (fst s))) /\
                          nth_error (px :: x) i = Some (Some (snd (fst s))) /\
                          nth_error (py :: y) i = Some (Some (snd s))).
      { intros l Hl. rewrite Hl, IH. split.
        - intros [Hhead|[i Hi]]; [|exists (S i); exact Hi].
          destruct t as [a|], px as [b|], py as [c|]; try contradiction.
          subst s. exists 0%nat. cbn. auto.
        - intros [[|i] Hi]; [|right; exists i; exact Hi].
          left. cbn in Hi. destruct Hi as [E1 [E2 E3]].
          injection E1 as ->. injection E2 as ->. injection E3 as ->.
          destruct s as [[a b] c]. reflexivity. }
      cbn [zip_masked].
      destruct t as [a|], px as [b|], py as [c|]; cbn [In];
        try (rewrite <- (Hstep (zip_masked times x y)) by reflexivity;
             split; [intros ?; right; assumption | intros [[]|?]; assumption]).
      rewrite <- (Hstep (zip_masked times x y)) by reflexivity.
      split; (intros [?|?]; [left; congruence | right; assumption]).
Qed.

Lemma time_pos_pairs_in (all : list (string * CelFile V)) :
  forall pool, time_pos_pairs all = inr pool ->
    forall s, In s pool <-> exists p, In p all /\ sample_of (snd p) s.
Proof.
  induction all as [|[tt cel] all IH]; intros pool E s.
  - cbn in E. injection E as <-. split; [intros [] | intros [p [[] _]]].
  - cbn [time_pos_pairs] in E.
    destruct (has_position cel) eqn:Hp; cbn [negb] in E.
    + unfold pos_x, pos_y in E. rewrite Hp in E. cbn [negb] in E.
      destruct (spike_times cel) as [e|times] eqn:Et; [discriminate E|].
      cbn [bind] in E.
      destruct (getitem (data cel) "pos_x") as [e|xc] eqn:Ex; [discriminate E|].
      cbn [bind ret] in E.
      destruct (getitem (data cel) "pos_y") as [e|yc] eqn:Ey; [discriminate E|].
      cbn [bind ret] in E.
      destruct (time_pos_pairs all) as [e|later] eqn:El; [discriminate E|].
      cbn [bind ret] in E. apply inr_inj in E. subst pool.
      rewrite in_app_iff, zip_masked_in, (IH later eq_refl). split.
      * intros [[i Hi]|[p [Hin Hs]]].
        -- exists (tt, cel). split; [left; reflexivity|]. split; [exact Hp|].
           exists times, xc, yc, i. cbn [snd]. auto.
        -- exists p. split; [right; exact Hin | exact Hs].
      * intros [p [[<-|Hin] Hs]].
        -- left. destruct Hs as [_ (times' & x' & y' & i & Et' & Ex' & Ey' & Hi)].
           cbn [snd] in Et', Ex', Ey'.
           rewrite Et in Et'. rewrite Ex in Ex'. rewrite Ey in Ey'.
           apply inr_inj in Et', Ex', Ey'. subst times' x' y'.
           exists i. exact Hi.
        -- right. exists p. split; assumption.
    + rewrite (IH pool E). split.
      * intros [p [Hin Hs]]. exists p. split; [right; exact Hin | exact Hs].
      * intros [p [[<-|Hin] Hs]].
        -- destruct Hs as [Hp' _]. cbn [snd] in Hp'. congruence.
        -- exists p. split; assumption.
Qed.

Lemma time_pos_pairs_total (all : list (string * CelFile V)) :
  (forall p, In p all -> has_position (snd p) = true ->
     (exists ts, spike_times (snd p) = inr ts) /\
     (exists x, getitem (data (snd p)) "pos_x" = inr x) /\
     (exists y, getitem (data (snd p)) "pos_y" = inr y)) ->
  exists pool, time_pos_pairs all = inr pool.
Proof.
  induction all as [|[tt cel] all IH]; intros Hall.
  - exists []. reflexivity.
  - destruct IH as [later El]; [intros p Hp; apply Hall; right; exact Hp|].
    cbn [time_pos_pairs]. destruct (has_position cel) eqn:Hp; cbn [negb].
    + destruct (Hall (tt, cel) (or_introl eq_refl) Hp) as [[ts Et] [[x Ex] [y Ey]]].
      cbn [snd] in Et, Ex, Ey. unfold pos_x, pos_y.
      rewrite Hp, Et, Ex, Ey, El. cbn. eauto.
    + eauto.
Qed.

Lemma flat_map_nil {A B} (f : A -> list B) (l : list A) :
  (forall a, f a = []) -> flat_map f l = [].
Proof.
  intros Hf. induction l as [|a l IH]; [reflexivity|]. cbn [flat_map].
  rewrite Hf, IH. reflexivity.
Qed.

Lemma flat_map_seq_S {B} (f : nat -> list B) (n : nat) :
  flat_map f (seq 1 n) = flat_map (fun i => f (S i)) (seq 0 n).
Proof.
  rewrite <- seq_shift, !flat_map_concat_map, map_map. reflexivity.
Qed.

(** The masked zip holds the samples of the rows, in the order of the
    rows. *)
Lemma zip_masked_rows (times x y : list (option V)) :
  zip_masked times x y
  = flat_map (row_sample times x y) (seq 0 (List.length times)).
Proof.
  revert x y. induction times as [|t times IH]; intros x y; [reflexivity|].
  cbn [List.length seq flat_map]. rewrite flat_map_seq_S.
  destruct x as [|px x].
  { cbn [zip_masked]. unfold row_sample at 1. cbn [nth_error].
    rewrite flat_map_nil; [destruct t; reflexivity|].
    intros i. unfold row_sample. cbn [nth_error].
    destruct (nth_error times i) as [[v|]|]; destruct i; reflexivity. }
  destruct y as [|py y].
  { cbn [zip_masked]. unfold row_sample at 1. cbn [nth_error].
    rewrite flat_map_nil; [destruct t, px; reflexivity|].
    intros i. unfold row_sample. cbn [nth_error].
    destruct (nth_error times i) as [[v|]|]; [|reflexivity|reflexivity].
    destruct (nth_error x i) as [[w|]|]; destruct i; reflexivity. }
  cbn [zip_masked]. rewrite (IH x y).
  unfold row_sample at 1. cbn [nth_error].
  destruct t, px, py; reflexivity.
Qed.

(** The pool is built in pooling order. *)
Lemma time_pos_pairs_pooled (all : list (string * CelFile V)) :
  (forall p, In p all -> has_position (snd p) = true ->
     (exists ts, spike_times (snd p) = inr ts) /\
     (exists x, getitem (data (snd p)) "pos_x" = inr x) /\
     (exists y, getitem (data (snd p)) "pos_y" = inr y)) ->
  time_pos_pairs all = inr (pooled all).
Proof.
  induction all as [|[tt cel] all IH]; intros Hall; [reflexivity|].
  assert (El : time_pos_pairs all = inr (pooled all)).
  { apply IH. intros p Hp. apply Hall. right. exact Hp. }
  cbn [time_pos_pairs]. unfold pooled. cbn [flat_map snd]. fold (pooled all).
  unfold record_samples.
  destruct (has_position cel) eqn:Hp; cbn [negb]; [|exact El].
  destruct (Hall (tt, cel) (or_introl eq_refl) Hp) as [[ts Et] [[x Ex] [y Ey]]].
  cbn [snd] in Et, Ex, Ey. unfold pos_x, pos_y.
  rewrite Hp, Et, Ex, Ey, El. cbn [negb bind ret].
  rewrite zip_masked_rows. reflexivity.
Qed.

End PoolFacts.

(** C3 (position trace).  When every position-bearing record has its time
    and coordinate columns, the pool is made of the rows of the
    position-bearing records that have time, x and y all present, in
    pooling order: the records in the order they were read, the rows of
    each in file order.  No trace is made when the pool is empty, and
    otherwise a trace is made: its samples are samples of the pool, its
    times are strictly ascending, and at every time it holds the sample
    that comes first at that time in pooling order, so that the later ones
    are dropped. *)
Theorem position_trace {V : Type} `{Float64 V} `{!Float64Laws V}
    (all : list (string * CelFile V)) :
  (forall p, In p all -> has_position (snd p) = true ->
     (exists ts, spike_times (snd p) = inr ts) /\
     (exists x, getitem (data (snd p)) "pos_x" = inr x) /\
     (exists y, getitem (data (snd p)) "pos_y" = inr y)) ->
  exists trace,
    _add_position_data all
    = inr (match pooled all with
           | [] => None
           | _ => Some (map time_of trace,
                        map (fun s => snd (fst s)) trace,
                        map snd trace)
           end) /\
    (forall s, In s (pooled all) <-> exists p, In p all /\ sample_of (snd p) s) /\
    (forall s, In s trace -> In s (pooled all)) /\
    StronglySorted flt (map time_of trace) /\
    (forall t, first_at t trace = first_at t (pooled all)).
Proof.
  intros Hall.
  pose proof (time_pos_pairs_pooled all Hall) as Ep.
  set (sorted := stable_sort (fun a b => fleb (time_of a) (time_of b)) (pooled all)).
  assert (Hs : StronglySorted
                 (fun a b => fleb (time_of a) (time_of b) = true) sorted)
    by apply le3_sorted.
  exists (run_firsts None sorted). split; [|split; [|split; [|split]]].
  - assert (Hr : exists r, _add_position_data all = inr r).
    { unfold _add_position_data. rewrite Ep. cbn [bind].
      destruct (pooled all); eexists; reflexivity. }
    destruct Hr as [r Er]. rewrite Er. f_equal.
    destruct (position_arrays all r Er) as [pool [Ep' ->]].
    rewrite Ep in Ep'. apply inr_inj in Ep'. subst pool.
    destruct (pooled all); reflexivity.
  - exact (time_pos_pairs_in all (pooled all) Ep).
  - intros s Hin. apply run_firsts_incl in Hin.
    apply stable_sort_in in Hin. exact Hin.
  - apply run_firsts_none_sorted. exact Hs.
  - intros t. rewrite (run_firsts_none_find t sorted Hs).
    apply stable_sort_first_at.
Qed.

(** The sample session: two files report time 3 with different
    coordinates; the trace keeps the one pooled first, that of BL1. *)
Lemma position_trace_sample :
  exists trace,
    _add_position_data sample_records
    = inr (Some (map time_of trace, map (fun s => snd (fst s)) trace, map snd trace)) /\
    first_at 3 trace = Some (3, 11, 21) /\
    StronglySorted flt (map time_of trace).
Proof.
  assert (Hrec : forall p, In p sample_records -> has_position (snd p) = true ->
            (exists ts, spike_times (snd p) = inr ts) /\
            (exists x, getitem (data (snd p)) "pos_x" = inr x) /\
            (exists y, getitem (data (snd p)) "pos_y" = inr y)).
  { intros p Hp _. vm_compute in Hp.
    destruct Hp as [<-|[<-|[<-|[]]]];
      (split; [|split]); vm_compute; eexists; reflexivity. }
  assert (Hpool : pooled sample_records
                  = [(1, 10, 20); (3, 11, 21); (2, 12, 22); (3, 50, 60); (7, 1, 1)])
    by (vm_compute; reflexivity).
  destruct (@position_trace Z _ Float64Laws_Z sample_records Hrec)
    as (trace & E & _ & _ & Hs & Hfirst).
  exists trace. rewrite Hpool in E. split; [exact E|]. split; [|exact Hs].
  rewrite (Hfirst 3), Hpool. reflexivity.
Defined.

(** ** The row table *)


Lemma existsb_false_all {A} (p : A -> bool) (l : list A) :
  existsb p l = false -> forall x, In x l -> p x = false.
Proof.
  intros E x Hin. destruct (p x) eqn:Px; [|reflexivity].
  assert (Ht : existsb p l = true) by (apply existsb_exists; eauto). congruence.
Qed.


Lemma negb_forallb {A} (p : A -> bool) (l : list A) :
  negb (forallb p l) = existsb (fun a => negb (p a)) l.
Proof.
  induction l as [|a l IH]; [reflexivity|]. cbn [forallb existsb].
  rewrite negb_andb, IH. reflexivity.
Qed.


Section RowTable.
Context {V : Type} `{Float64 V}.

Lemma not_all_na (r : list (cell V)) :
  negb (forallb isna r) = true <-> exists c, In c r /\ isna c = false.
Proof.
  rewrite negb_forallb, existsb_exists. split; intros [c [Hin Hc]]; exists c;
    (split; [exact Hin|]); [apply negb_true_iff; exact Hc | rewrite Hc; reflexivity].
Qed.










End RowTable.




(** ** Failure isolation *)

(** What the [try] around [read_cel_file] isolates: a file whose parse
    raises is left out of the records. *)
Lemma parse_failure_skipped {V} `{Float64 V} (tt path text : string) (e : exn)
    (rest : list (string * string)) :
  read_cel_file path text = inl e ->
  parse_cel_paths tt ((path, text) :: rest) = parse_cel_paths tt rest.
Proof. intros E. cbn [parse_cel_paths]. rewrite E. reflexivity. Qed.

(** What it does not isolate: a record without a time column stops the
    unit merge. *)
Lemma units_raise {V} `{Float64 V} (all : list (string * CelFile V)) :
  (exists p e, In p all /\ spike_times (snd p) = inl e) ->
  exists e, units all = inl e.
Proof.
  intros [p [e [Hin Ep]]]. unfold units.
  assert (Hf : forall d, exists e', unit_spikes all d = inl e').
  { induction all as [|[tt cel] all IH]; [destruct Hin|]. intros d.
    cbn [unit_spikes]. destruct Hin as [<-|Hin].
    - cbn [snd] in Ep. rewrite Ep. cbn. eauto.
    - destruct (spike_times cel); cbn [bind]; [eauto|].
      destruct (0 <? _)%nat; apply (IH Hin). }
  destruct (Hf []) as [e' E]. rewrite E. cbn. eauto.
Qed.

(** C4 (failure isolation) fails on a file that parses but has no time
    column: the file is accepted, and the session then raises [KeyError]
    in the unit merge, so no unit, position trace or map table is produced
    although the other file is sound.  A file whose parse fails is isolated
    as claimed. *)
Theorem convert_session_not_isolated :
  (exists cel : CelFile Z, read_cel_file "ES1.CEL" sample_no_time = inr cel) /\
  convert_session (V:=Z) sample_session_no_time None false = inl (KeyError "time") /\
  (exists s, convert_session (V:=Z) sample_session_bl1 None false = inr s) /\
  convert_session (V:=Z) sample_session_garbage None false
  = convert_session (V:=Z) sample_session_bl1 None false.
Proof.
  split; [vm_compute; eexists; reflexivity|].
  split; [vm_compute; reflexivity|].
  split; [vm_compute; eexists; reflexivity|].
  vm_compute. reflexivity.
Qed.

(** * Further properties *)

(** ** The cluster id *)

Lemma isdigit_not_sign (c : ascii) (s : string) :
  PyStr.isdigit c = true ->
  PyStr.int_signed (String c s) = PyStr.int_digits (String c s) 0 false.
Proof.
  destruct c as [[] [] [] [] [] [] [] []]; intros Hd; try reflexivity; discriminate Hd.
Qed.

Lemma isdigit_not_int_space (c : ascii) :
  PyStr.isdigit c = true -> PyStr.int_isspace c = false.
Proof.
  destruct c as [[] [] [] [] [] [] [] []]; intros Hd; try reflexivity; discriminate Hd.
Qed.

Lemma digits_int_rstrip (s : string) :
  all_chars PyStr.isdigit s = true -> PyStr.int_rstrip s = s.
Proof.
  induction s as [|c s IH]; [reflexivity|]. cbn [all_chars PyStr.int_rstrip].
  intros Hd. apply andb_true_iff in Hd. destruct Hd as [Hc Hs].
  rewrite (IH Hs), (isdigit_not_int_space c Hc), andb_false_r. reflexivity.
Qed.

Lemma digits_int_strip (s : string) :
  all_chars PyStr.isdigit s = true -> PyStr.int_strip s = s.
Proof.
  intros Hd. unfold PyStr.int_strip. rewrite (digits_int_rstrip s Hd).
  destruct s as [|c s]; [reflexivity|]. cbn [all_chars] in Hd.
  apply andb_true_iff in Hd. destruct Hd as [Hc _].
  cbn [PyStr.int_lstrip]. rewrite (isdigit_not_int_space c Hc). reflexivity.
Qed.

Lemma int_digits_decimal (s : string) :
  all_chars PyStr.isdigit s = true ->
  forall acc b, (s <> EmptyString \/ b = true) ->
    PyStr.int_digits s acc b = Some (decimal_value s acc).
Proof.
  induction s as [|c s IH]; intros Hd acc b Hne.
  - destruct Hne as [Hne| ->]; [contradiction | reflexivity].
  - cbn [all_chars] in Hd. apply andb_true_iff in Hd. destruct Hd as [Hc Hs].
    cbn [PyStr.int_digits decimal_value]. unfold PyStr.digit_val. rewrite Hc.
    apply IH; [exact Hs | right; reflexivity].
Qed.

(** The value of a literal made of digits is the number it writes. *)
Lemma int_of_literal_digits (s : string) :
  all_chars PyStr.isdigit s = true -> s <> EmptyString ->
  PyStr.int_of_literal s = Some (decimal_value s 0).
Proof.
  intros Hd Hne. unfold PyStr.int_of_literal. rewrite (digits_int_strip s Hd).
  destruct s as [|c s]; [contradiction|].
  pose proof Hd as Hd'. cbn [all_chars] in Hd'. apply andb_true_iff in Hd'.
  rewrite (isdigit_not_sign c s (proj1 Hd')).
  apply int_digits_decimal; [exact Hd | left; discriminate].
Qed.

Lemma count_digits_digits (s : string) :
  all_chars PyStr.isdigit s = true ->
  PyStr.count_digits s = N.of_nat (String.length s).
Proof.
  induction s as [|c s IH]; [reflexivity|]. cbn [all_chars].
  intros Hd. apply andb_true_iff in Hd. destruct Hd as [Hc Hs].
  cbn [PyStr.count_digits String.length]. rewrite Hc, (IH Hs). lia.
Qed.

(** [int] of a string of digits is the number it writes when there are at
    most 4300 of them, and fails when there are more. *)
Lemma int_of_digits (s : string) :
  all_chars PyStr.isdigit s = true -> s <> EmptyString ->
  (String.length s <= 4300)%nat ->
  PyStr.int s = Some (decimal_value s 0).
Proof.
  intros Hd Hne Hl. unfold PyStr.int. rewrite (count_digits_digits s Hd).
  destruct (N.ltb_spec PyStr.int_max_str_digits (N.of_nat (String.length s))) as [Hlt|_].
  - unfold PyStr.int_max_str_digits in Hlt. lia.
  - exact (int_of_literal_digits s Hd Hne).
Qed.

Lemma int_of_long_digits (s : string) :
  all_chars PyStr.isdigit s = true -> (4300 < String.length s)%nat ->
  PyStr.int s = None.
Proof.
  intros Hd Hl. unfold PyStr.int. rewrite (count_digits_digits s Hd).
  destruct (N.ltb_spec PyStr.int_max_str_digits (N.of_nat (String.length s))) as [_|Hge];
    [reflexivity|].
  unfold PyStr.int_max_str_digits in Hge. lia.
Qed.

Lemma int_some_literal (s : string) (n : Z) :
  PyStr.int s = Some n -> PyStr.int_of_literal s = Some n.
Proof.
  unfold PyStr.int. destruct (_ <? _)%N; [discriminate | auto].
Qed.

Lemma decimal_value_nonneg (s : string) :
  all_chars PyStr.isdigit s = true -> forall acc, 0 <= acc -> 0 <= decimal_value s acc.
Proof.
  induction s as [|c s IH]; intros Hd acc Hacc; [exact Hacc|].
  cbn [all_chars] in Hd. apply andb_true_iff in Hd. destruct Hd as [Hc Hs].
  cbn [decimal_value]. apply IH; [exact Hs|].
  unfold PyStr.isdigit in Hc. apply andb_true_iff in Hc. destruct Hc as [Hlo _].
  apply N.leb_le in Hlo. lia.
Qed.

Lemma take_digits_digits (s : string) : all_chars PyStr.isdigit (PyStr.take_digits s) = true.
Proof.
  induction s as [|c s IH]; [reflexivity|]. cbn [PyStr.take_digits].
  destruct (PyStr.isdigit c) eqn:Hc; [|reflexivity].
  cbn [all_chars]. rewrite Hc, IH. reflexivity.
Qed.

Lemma take_digits_app (ds post : string) :
  all_chars PyStr.isdigit ds = true -> no_digit_ahead post = true ->
  PyStr.take_digits (ds ++ post) = ds.
Proof.
  induction ds as [|c ds IH]; intros Hd Hp.
  - cbn [String.append]. destruct post as [|c post]; [reflexivity|].
    cbn [no_digit_ahead] in Hp. cbn [PyStr.take_digits].
    destruct (PyStr.isdigit c); [discriminate Hp | reflexivity].
  - cbn [all_chars] in Hd. apply andb_true_iff in Hd. destruct Hd as [Hc Hs].
    cbn [String.append PyStr.take_digits]. rewrite Hc, (IH Hs Hp). reflexivity.
Qed.

Lemma search_digits_none (s : string) :
  all_chars (fun c => negb (PyStr.isdigit c)) s = true -> PyStr.search_digits s = None.
Proof.
  induction s as [|c s IH]; [reflexivity|]. cbn [all_chars PyStr.search_digits].
  intros Hd. apply andb_true_iff in Hd. destruct Hd as [Hc Hs].
  destruct (PyStr.isdigit c); [discriminate Hc | exact (IH Hs)].
Qed.

Lemma search_digits_some (s m : string) :
  PyStr.search_digits s = Some m ->
  all_chars PyStr.isdigit m = true /\ m <> EmptyString.
Proof.
  revert m. induction s as [|c s IH]; intros m; [discriminate|].
  cbn [PyStr.search_digits].
  destruct (PyStr.isdigit c) eqn:Hc; [|apply IH].
  intros E.
  assert (Em : m = PyStr.take_digits (String c s)) by congruence. subst m.
  split; [apply take_digits_digits|].
  cbn [PyStr.take_digits]. rewrite Hc. discriminate.
Qed.

Lemma search_digits_first (pre ds post : string) :
  all_chars (fun c => negb (PyStr.isdigit c)) pre = true ->
  all_chars PyStr.isdigit ds = true -> ds <> EmptyString ->
  no_digit_ahead post = true ->
  PyStr.search_digits (pre ++ ds ++ post) = Some ds.
Proof.
  intros Hpre Hd Hne Hp. induction pre as [|c pre IH].
  - cbn [String.append]. destruct ds as [|c ds]; [contradiction|].
    pose proof Hd as Hd'. cbn [all_chars] in Hd'. apply andb_true_iff in Hd'.
    change (String c ds ++ post) with (String c (ds ++ post)).
    cbn [PyStr.search_digits]. rewrite (proj1 Hd').
    change (String c (ds ++ post)) with (String c ds ++ post).
    rewrite (take_digits_app _ _ Hd Hp). reflexivity.
  - cbn [all_chars] in Hpre. apply andb_true_iff in Hpre. destruct Hpre as [Hc Hs].
    cbn [String.append PyStr.search_digits].
    destruct (PyStr.isdigit c); [discriminate Hc | exact (IH Hs)].
Qed.

(** X1 (_parse_cluster).  A "Cluster" value without a digit (or no such
    header key) gives no cluster id.  Otherwise the first run of digits of
    the value decides, whatever surrounds it: a run of at most 4300 digits
    gives the number it writes as the id, and a longer run makes [int]
    raise ValueError, which leaves the constructor.  An id is never
    negative. *)
Theorem parse_cluster_first_run (header : dict) :
  (all_chars (fun c => negb (PyStr.isdigit c)) (dict_get "Cluster" header "") = true ->
   _parse_cluster header = inr None) /\
  (forall pre ds post,
      dict_get "Cluster" header "" = pre ++ ds ++ post ->
      all_chars (fun c => negb (PyStr.isdigit c)) pre = true ->
      all_chars PyStr.isdigit ds = true -> ds <> EmptyString ->
      no_digit_ahead post = true ->
      ((String.length ds <= 4300)%nat ->
       _parse_cluster header = inr (Some (decimal_value ds 0))) /\
      ((4300 < String.length ds)%nat ->
       exists msg, _parse_cluster header = inl (ValueError msg))) /\
  (forall n, _parse_cluster header = inr (Some n) -> 0 <= n).
Proof.
  unfold _parse_cluster. split; [|split].
  - intros Hn. rewrite (search_digits_none _ Hn).
    destruct (PyStr.is_empty _); reflexivity.
  - intros pre ds post E Hpre Hd Hne Hp. rewrite E.
    rewrite (search_digits_first pre ds post Hpre Hd Hne Hp).
    assert (Ee : PyStr.is_empty (pre ++ ds ++ post) = false).
    { destruct (PyStr.is_empty (pre ++ ds ++ post)) eqn:Ee; [|reflexivity].
      apply is_empty_true in Ee. destruct pre; [|discriminate Ee].
      destruct ds; [contradiction | discriminate Ee]. }
    rewrite Ee. split.
    + intros Hl. rewrite (int_of_digits ds Hd Hne Hl). reflexivity.
    + intros Hl. rewrite (int_of_long_digits ds Hd Hl). eexists. reflexivity.
  - intros n. destruct (PyStr.is_empty _); [discriminate|].
    destruct (PyStr.search_digits _) as [m|] eqn:Em; [|discriminate].
    destruct (search_digits_some _ _ Em) as [Hd Hne].
    destruct (PyStr.int m) as [v|] eqn:Ev; [|discriminate].
    apply int_some_literal in Ev. rewrite (int_of_literal_digits m Hd Hne) in Ev.
    intros E. apply inr_inj in E.
    assert (En : n = decimal_value m 0) by congruence. subst n.
    apply decimal_value_nonneg; [exact Hd | lia].
Qed.

Example parse_cluster_examples :
  _parse_cluster [("Cluster", "cl-12 of 7")] = inr (Some 12) /\
  _parse_cluster [("Cluster", "none")] = inr None /\
  _parse_cluster [("Start time", "0:10:00")] = inr None.
Proof. repeat split; reflexivity. Qed.

(** ** The task type read from a file name *)

Lemma upper_app (a b : string) :
  PyStr.upper (a ++ b) = PyStr.upper a ++ PyStr.upper b.
Proof.
  induction a as [|c a IH]; [reflexivity|]. cbn [String.append PyStr.upper].
  rewrite IH, string_app_assoc. reflexivity.
Qed.

Lemma upper_char_idem (c : ascii) :
  PyStr.upper (PyStr.upper_char c) = PyStr.upper_char c.
Proof. destruct c as [[] [] [] [] [] [] [] []]; reflexivity. Qed.

Lemma upper_idem (s : string) : PyStr.upper (PyStr.upper s) = PyStr.upper s.
Proof.
  induction s as [|c s IH]; [reflexivity|]. cbn [PyStr.upper].
  rewrite upper_app, upper_char_idem, IH. reflexivity.
Qed.

(** The upper-case form of a character is a dot for the dot, and holds no
    dot for any other character. *)
Lemma upper_char_dot (c : ascii) :
  if Ascii.eqb c "." then PyStr.upper_char c = "."
  else PyStr.contains "." (PyStr.upper_char c) = false.
Proof. destruct c as [[] [] [] [] [] [] [] []]; reflexivity. Qed.

Lemma upper_char_not_empty (c : ascii) (s : string) :
  PyStr.is_empty (PyStr.upper_char c ++ s) = false.
Proof. destruct c as [[] [] [] [] [] [] [] []]; reflexivity. Qed.

(** The last dot of a text that starts with a word without dots. *)
Lemma rsplit_dot_word (w s : string) :
  PyStr.contains "." w = false ->
  rsplit_dot (w ++ s)
  = option_map (fun p => (w ++ fst p, snd p)) (rsplit_dot s).
Proof.
  induction w as [|c w IH]; intros Hw.
  - cbn [String.append]. destruct (rsplit_dot s) as [[b a]|]; reflexivity.
  - cbn [PyStr.contains] in Hw. apply orb_false_iff in Hw. destruct Hw as [Hc Hw].
    cbn [String.append rsplit_dot]. rewrite (IH Hw).
    destruct (rsplit_dot s) as [[b a]|]; cbn [option_map fst snd]; [reflexivity|].
    rewrite Hc. reflexivity.
Qed.

Lemma rsplit_dot_upper (s : string) :
  rsplit_dot (PyStr.upper s)
  = option_map (fun p => (PyStr.upper (fst p), PyStr.upper (snd p))) (rsplit_dot s).
Proof.
  induction s as [|c s IH]; [reflexivity|]. cbn [PyStr.upper rsplit_dot].
  pose proof (upper_char_dot c) as Hc.
  destruct (Ascii.eqb c ".") eqn:Ec.
  - rewrite Hc. cbn [String.append rsplit_dot]. rewrite IH.
    destruct (rsplit_dot s) as [[b a]|]; cbn [option_map fst snd PyStr.upper].
    + rewrite Hc. reflexivity.
    + reflexivity.
  - rewrite (rsplit_dot_word _ _ Hc), IH.
    destruct (rsplit_dot s) as [[b a]|]; reflexivity.
Qed.

Lemma is_empty_upper (s : string) : PyStr.is_empty (PyStr.upper s) = PyStr.is_empty s.
Proof.
  destruct s as [|c s]; [reflexivity|]. cbn [PyStr.upper PyStr.is_empty].
  apply upper_char_not_empty.
Qed.

Lemma stem_upper (s : string) : stem (PyStr.upper s) = PyStr.upper (stem s).
Proof.
  unfold stem. rewrite rsplit_dot_upper.
  destruct (rsplit_dot s) as [[b a]|]; cbn [option_map fst snd]; [|reflexivity].
  rewrite !is_empty_upper. destruct (PyStr.is_empty b || PyStr.is_empty a); reflexivity.
Qed.

Lemma rsplit_dot_app (s b a : string) :
  rsplit_dot s = Some (b, a) -> s = b ++ String "." a.
Proof.
  revert b. induction s as [|c s IH]; intros b; [discriminate|]. cbn [rsplit_dot].
  destruct (rsplit_dot s) as [[b' a']|].
  - intros E. injection E as <- <-. cbn [String.append]. rewrite (IH b' eq_refl).
    reflexivity.
  - destruct (Ascii.eqb_spec c "."); [|discriminate].
    intros E. injection E as <- <-. subst c. reflexivity.
Qed.

(** The stem is the whole name, or what precedes the last dot and is not
    empty. *)
Lemma stem_cases (name : string) :
  stem name = name \/
  exists a, name = stem name ++ String "." a /\ stem name <> EmptyString.
Proof.
  unfold stem. destruct (rsplit_dot name) as [[b a]|] eqn:E; [|left; reflexivity].
  destruct (PyStr.is_empty b || PyStr.is_empty a) eqn:Ee; [left; reflexivity|].
  right. exists a. split; [exact (rsplit_dot_app _ _ _ E)|].
  intros ->. discriminate Ee.
Qed.

Lemma prefix_empty (s : string) : String.prefix EmptyString s = true.
Proof. destruct s; reflexivity. Qed.

(** A two-letter prefix is seen alike in a name and in its stem. *)
Lemma prefix2_stem (p1 p2 : ascii) (name : string) :
  p2 <> "."%char ->
  String.prefix (String p1 (String p2 EmptyString)) (PyStr.upper (stem name))
  = String.prefix (String p1 (String p2 EmptyString)) (PyStr.upper name).
Proof.
  intros Hp. destruct (stem_cases name) as [->|[a [E Hne]]]; [reflexivity|].
  rewrite E at 2. rewrite upper_app.
  assert (Hu : PyStr.upper (stem name) <> EmptyString).
  { intros Hu. apply Hne. pose proof (is_empty_upper (stem name)) as He.
    rewrite Hu in He. symmetry in He. exact (is_empty_true _ He). }
  change (PyStr.upper (String "." a)) with (String "." (PyStr.upper a)).
  destruct (PyStr.upper (stem name)) as [|c1 [|c2 b]]; [contradiction| |].
  - cbn. destruct (ascii_dec p1 c1); [|reflexivity].
    destruct (ascii_dec p2 "."); [contradiction | reflexivity].
  - cbn. destruct (ascii_dec p1 c1); [|reflexivity].
    destruct (ascii_dec p2 c2); [|reflexivity].
    rewrite !prefix_empty. reflexivity.
Qed.

Lemma prefix2_exclusive (p1 p2 q1 q2 : ascii) (s : string) :
  p1 <> q1 ->
  String.prefix (String p1 (String p2 EmptyString)) s = true ->
  String.prefix (String q1 (String q2 EmptyString)) s = false.
Proof.
  intros Hne. destruct s as [|x s]; [discriminate|]. cbn.
  destruct (ascii_dec p1 x) as [<-|]; [|discriminate].
  intros _. destruct (ascii_dec q1 p1); [congruence | reflexivity].
Qed.

(** X2 (_infer_session_type and _parse_rma_filename).  The classifier of text
    files, which looks at the stem, and the classifier of map files, which
    looks at the whole name and tests the prefixes in another order, give
    every file name the same task type; the case of the letters does not
    matter to either; and the type is one of the four labels. *)
Theorem session_type_classifiers (name : string) :
  _infer_session_type name = fst (_parse_rma_filename name) /\
  _infer_session_type (PyStr.upper name) = _infer_session_type name /\
  _parse_rma_filename (PyStr.upper name) = _parse_rma_filename name /\
  In (_infer_session_type name) ["BL"; "ES"; "MC"; "unknown"].
Proof.
  split; [|split; [|split]].
  - unfold _infer_session_type, _parse_rma_filename, PyStr.startswith. cbn [fst].
    rewrite (prefix2_stem "B" "L"), (prefix2_stem "E" "S"), (prefix2_stem "M" "C")
      by discriminate.
    destruct (String.prefix "BL" (PyStr.upper name)) eqn:Eb.
    + rewrite (prefix2_exclusive "B" "L" "E" "S" _ ltac:(discriminate) Eb).
      rewrite (prefix2_exclusive "B" "L" "M" "C" _ ltac:(discriminate) Eb).
      reflexivity.
    + destruct (String.prefix "ES" (PyStr.upper name)) eqn:Ee; [reflexivity|].
      destruct (String.prefix "MC" (PyStr.upper name)); reflexivity.
  - unfold _infer_session_type. rewrite stem_upper, upper_idem. reflexivity.
  - unfold _parse_rma_filename. rewrite upper_idem. reflexivity.
  - unfold _infer_session_type.
    destruct (PyStr.startswith "BL" _); [cbn; auto|].
    destruct (PyStr.startswith "ES" _); [cbn; auto|].
    destruct (PyStr.startswith "MC" _); cbn; auto.
Qed.

(** ** The end of the header and the header dictionary *)




Lemma dict_get_set_same (k v d0 : string) (d : dict) :
  dict_get k (dict_set k v d) d0 = v.
Proof.
  induction d as [|[k' v'] d IH]; cbn [dict_set dict_get].
  - rewrite String.eqb_refl. reflexivity.
  - destruct (String.eqb k' k) eqn:E; cbn [dict_get].
    + rewrite String.eqb_refl. reflexivity.
    + rewrite E. exact IH.
Qed.

Lemma dict_get_set_other (k k' v d0 : string) (d : dict) :
  k' <> k -> dict_get k (dict_set k' v d) d0 = dict_get k d d0.
Proof.
  intros Hne. induction d as [|[k0 v0] d IH]; cbn [dict_set dict_get].
  - destruct (String.eqb_spec k' k); [contradiction | reflexivity].
  - destruct (String.eqb_spec k0 k') as [->|H0]; cbn [dict_get].
    + destruct (String.eqb_spec k' k); [contradiction | reflexivity].
    + destruct (String.eqb k0 k); [reflexivity | exact IH].
Qed.

(** What one line does to the header dictionary. *)
Lemma scan_line_header (s : string) (st st1 : scan_state) :
  scan_line s st = inr st1 ->
  sc_header st1 =
  match header_entry s with
  | Some (k, v) => dict_set k v (sc_header st)
  | None => sc_header st
  end.
Proof.
  unfold scan_line, header_entry.
  destruct (PyStr.startswith "%" s && PyStr.contains ":" s && negb (fields_re s)) eqn:Eh.
  - apply andb_true_iff in Eh. destruct Eh as [_ Hre].
    apply negb_true_iff in Hre. rewrite Hre.
    destruct (PyStr.split1 ":" (PyStr.strip (PyStr.lstrip_char "%" s)))
      as [|k [|v [|x l]]]; cbn [bind ret raise]; try discriminate.
    intros E. apply inr_inj in E. subst st1. reflexivity.
  - cbn [bind ret]. destruct (fields_re s).
    + destruct (PyStr.split1 ":" s) as [|a [|rhs l]]; try discriminate.
      intros E. apply inr_inj in E. subst st1. reflexivity.
    + intros E. apply inr_inj in E. subst st1. reflexivity.
Qed.

Lemma last_header_fold (k : string) (w : list string) :
  forall (acc : option string) (base : string),
    match fold_left (fun acc line =>
                       match header_entry (PyStr.strip line) with
                       | Some (k', v) => if String.eqb k' k then Some v else acc
                       | None => acc
                       end) w acc with
    | Some v => v
    | None => base
    end
    = match last_header_value k w with
      | Some v => v
      | None => match acc with Some v => v | None => base end
      end.
Proof.
  unfold last_header_value.
  induction w as [|x w IH]; intros acc base; cbn [fold_left]; [reflexivity|].
  rewrite IH. symmetry. rewrite IH. symmetry.
  destruct (fold_left _ w None); [reflexivity|].
  destruct (header_entry (PyStr.strip x)) as [[k' v]|]; [|reflexivity].
  destruct (String.eqb k' k); reflexivity.
Qed.

Lemma scan_header (lines : list string) (k d0 : string) :
  forall i st st',
    scan lines i st = inr st' ->
    dict_get k (sc_header st') d0
    = match last_header_value k (scan_window lines) with
      | Some v => v
      | None => dict_get k (sc_header st) d0
      end.
Proof.
  induction lines as [|line rest IH]; intros i st st' E.
  - cbn in E. apply inr_inj in E. subst st'. reflexivity.
  - cbn [scan scan_window] in *.
    destruct (scan_line (PyStr.strip line) st) as [e|st1] eqn:E1; [discriminate E|].
    cbn [bind] in E. pose proof (scan_line_header _ _ _ E1) as Hh.
    assert (Hst1 : dict_get k (sc_header st1) d0
                   = match header_entry (PyStr.strip line) with
                     | Some (k', v) => if String.eqb k' k then v
                                       else dict_get k (sc_header st) d0
                     | None => dict_get k (sc_header st) d0
                     end).
    { rewrite Hh. destruct (header_entry (PyStr.strip line)) as [[k' v]|]; [|reflexivity].
      destruct (String.eqb_spec k' k) as [->|Hne].
      - apply dict_get_set_same.
      - apply dict_get_set_other. exact Hne. }
    destruct (String.eqb (PyStr.strip line) ENDHEADER).
    + apply inr_inj in E. subst st'. cbn [sc_header]. rewrite Hst1.
      unfold last_header_value. cbn [fold_left].
      destruct (header_entry (PyStr.strip line)) as [[k' v]|]; [|reflexivity].
      destruct (String.eqb k' k); reflexivity.
    + rewrite (IH _ _ _ E), Hst1.
      pose proof (last_header_fold k (scan_window rest)) as Hf.
      unfold last_header_value at 2. cbn [fold_left].
      specialize (Hf (match header_entry (PyStr.strip line) with
                      | Some (k', v) => if String.eqb k' k then Some v else None
                      | None => None
                      end) (dict_get k (sc_header st) d0)).
      rewrite Hf.
      destruct (last_header_value k (scan_window rest)); [reflexivity|].
      destruct (header_entry (PyStr.strip line)) as [[k' v]|]; [|reflexivity].
      destruct (String.eqb k' k); reflexivity.
Qed.

(** X4 (read_cel_file).  The header of a file that parses gives, for every key,
    the value of the last header line with that key among the lines
    scanned (the first 800, up to the sentinel line), and the default when
    there is none: a repeated key keeps its last value, and lines after
    the sentinel add nothing. *)
Theorem read_cel_file_header_last {V : Type} `{Float64 V}
    (path text : string) (cel : CelFile V) :
  read_cel_file path text = inr cel ->
  forall k d0,
    dict_get k (header cel) d0
    = match last_header_value k (scan_window (firstn 800 (read_lines text))) with
      | Some v => v
      | None => d0
      end.
Proof.
  unfold read_cel_file.
  destruct (scan (firstn 800 (read_lines text)) 0 (mkScan None [] None))
    as [e|st] eqn:Es; [discriminate|]. cbn [bind].
  destruct (sc_fields st) as [flds|]; [|discriminate].
  destruct (sc_endheader_idx st) as [idx|]; [|discriminate].
  destruct (read_csv text (S idx) flds) as [e|df]; [discriminate|].
  cbn [bind]. intros E k d0. apply CelFile_init_inv in E. destruct E as [cl [_ ->]].
  cbn [header CelFile_init]. rewrite (scan_header _ k d0 _ _ _ Es). reflexivity.
Qed.

Lemma read_cel_file_header_last_sample :
  exists cel : CelFile Z,
    read_cel_file "BL1.CEL" sample_two_clusters = inr cel /\
    dict_get "Cluster" (header cel) "" = "2".
Proof.
  assert (Hc : exists cel : CelFile Z, read_cel_file "BL1.CEL" sample_two_clusters = inr cel)
    by (vm_compute; eexists; reflexivity).
  destruct Hc as [cel E]. exists cel. split; [exact E|].
  rewrite (read_cel_file_header_last "BL1.CEL" sample_two_clusters cel E "Cluster" "").
  vm_compute. reflexivity.
Defined.

(** ** The table of a parsed file and its accessors *)

Section TableShape.
Context {V : Type} `{Float64 V}.

Lemma table_rows_length (ncols implicit : nat) (content : list (list string))
    (numeric : list dtype) :
  List.length numeric = ncols ->
  (forall r, In r content -> (List.length r <= ncols + implicit)%nat) ->
  Forall (fun r : list (cell V) => List.length r = ncols)
    (map (convert_row numeric)
       (map (fun r => skipn implicit (pad (ncols + implicit) r)) content)).
Proof.
  intros Hn Hc. apply Forall_forall. intros row Hrow.
  apply in_map_iff in Hrow. destruct Hrow as [raw [<- Hraw]].
  apply in_map_iff in Hraw. destruct Hraw as [r [<- Hr]].
  unfold convert_row, pad.
  rewrite length_map, length_combine, length_skipn, length_app, length_map, repeat_length.
  specialize (Hc r Hr). lia.
Qed.

(** What [read_csv] returns: the names are distinct, they label the
    columns, and every row has one cell per column. *)
Lemma read_csv_shape (text : string) (n : nat) (names : list string) (df : DataFrame V) :
  read_csv text n names = inr df ->
  has_duplicates names = false /\
  (names <> [] -> columns df = map LStr names) /\
  (names = [] -> exists k, columns df = map LInt (seq 0 k)) /\
  Forall (fun r => List.length r = List.length (columns df)) (rows df).
Proof.
  unfold read_csv, raise, ret.
  destruct (has_duplicates names) eqn:Hd; [discriminate|].
  intros E. split; [reflexivity|].
  destruct names as [|nm names];
    destruct (filter keeps_line (map tokens (skipn n (PyStr.file_lines text))))
      as [|r0 content]; cbv zeta in E; try discriminate E.
  - (* no names: the columns are numbered after the first row *)
    replace (List.length r0 - List.length r0)%nat with 0%nat in E by lia.
    destruct (existsb _ (r0 :: content)) eqn:Ex; [discriminate E|].
    apply inr_inj in E. subst df. cbn [columns rows].
    split; [intros Hne; contradiction|]. split; [intros _; eauto|].
    rewrite length_map, length_seq.
    apply (table_rows_length (List.length r0) 0).
    + rewrite length_map, length_seq. reflexivity.
    + intros r Hr. pose proof (existsb_false_all _ _ Ex r Hr) as Hlt.
      apply Nat.ltb_ge in Hlt. exact Hlt.
  - (* names, no data row *)
    replace (List.length (nm :: names) - List.length (nm :: names))%nat with 0%nat in E by lia.
    cbn [existsb] in E. apply inr_inj in E. subst df. cbn [columns rows map].
    split; [reflexivity|]. split; [discriminate | constructor].
  - (* names and data rows *)
    destruct (existsb _ (r0 :: content)) eqn:Ex; [discriminate E|].
    apply inr_inj in E. subst df. cbn [columns rows].
    split; [reflexivity|]. split; [discriminate|].
    rewrite length_map.
    apply (table_rows_length (List.length (nm :: names))
             (List.length r0 - List.length (nm :: names))).
    + rewrite length_map, length_seq. reflexivity.
    + intros r Hr. pose proof (existsb_false_all _ _ Ex r Hr) as Hlt.
      apply Nat.ltb_ge in Hlt. exact Hlt.
Qed.

Lemma column_index_names (name : string) (names : list string) :
  if str_in name names
  then exists j, column_index name (map LStr names) = Some j
  else column_index name (map LStr names) = None.
Proof.
  induction names as [|x names IH]; [reflexivity|].
  cbn [map column_index]. unfold str_in in *. cbn [existsb].
  rewrite (String.eqb_sym name x).
  destruct (String.eqb x name); cbn [orb]; [eauto|].
  destruct (existsb (String.eqb name) names).
  - destruct IH as [j Ej]. rewrite Ej. cbn. eauto.
  - rewrite IH. reflexivity.
Qed.

Lemma column_index_numbered (name : string) (l : list nat) :
  column_index name (map LInt l) = None.
Proof.
  induction l as [|x l IH]; [reflexivity|]. cbn [map column_index].
  rewrite IH. reflexivity.
Qed.

(** Reading a column of a parsed file: it is there exactly when its name
    is a field, and it has one cell per row. *)
Lemma getitem_parsed (path text : string) (cel : CelFile V) (name : string) :
  read_cel_file path text = inr cel ->
  if str_in name (fields cel)
  then exists col, getitem (data cel) name = inr col /\
                   List.length col = List.length (rows (data cel))
  else getitem (data cel) name = inl (KeyError name).
Proof.
  unfold read_cel_file.
  destruct (scan (firstn 800 (read_lines text)) 0 (mkScan None [] None))
    as [e|st]; [discriminate|]. cbn [bind].
  destruct (sc_fields st) as [flds|]; [|discriminate].
  destruct (sc_endheader_idx st) as [idx|]; [|discriminate].
  destruct (read_csv text (S idx) flds) as [e|df] eqn:Ec; [discriminate|].
  cbn [bind]. intros E. apply CelFile_init_inv in E. destruct E as [cl [_ ->]].
  cbn [fields data CelFile_init]. unfold getitem, dropna_all. cbn [columns rows].
  destruct (read_csv_shape _ _ _ _ Ec) as (_ & Hnames & Hnone & _).
  destruct flds as [|f flds].
  - destruct (Hnone eq_refl) as [k Ek]. rewrite Ek, column_index_numbered. reflexivity.
  - rewrite (Hnames ltac:(discriminate)).
    pose proof (column_index_names name (f :: flds)) as Hc.
    destruct (str_in name (f :: flds)).
    + destruct Hc as [j Ej]. rewrite Ej. eexists. split; [reflexivity|].
      apply length_map.
    + rewrite Hc. reflexivity.
Qed.

(** The position flag of a parsed file is read off its fields. *)
Lemma has_position_parsed (path text : string) (cel : CelFile V) :
  read_cel_file path text = inr cel ->
  has_position cel = str_in "pos_x" (fields cel) && str_in "pos_y" (fields cel).
Proof.
  unfold read_cel_file.
  destruct (scan _ _ _) as [e|st]; [discriminate|]. cbn [bind].
  destruct (sc_fields st); [|discriminate].
  destruct (sc_endheader_idx st); [|discriminate].
  destruct (read_csv _ _ _); [discriminate|]. cbn [bind ret].
  intros E. apply CelFile_init_inv in E. destruct E as [cl [_ ->]]. reflexivity.
Qed.

End TableShape.

(** X5 (read_cel_file).  In a file that parses no field name is repeated, the
    columns of the table are the fields in their order (when there are
    fields), and every row has exactly one cell per column: short rows were
    padded and a file with a row too long did not parse. *)
Theorem read_cel_file_table_shape {V : Type} `{Float64 V}
    (path text : string) (cel : CelFile V) :
  read_cel_file path text = inr cel ->
  has_duplicates (fields cel) = false /\
  (fields cel <> [] -> columns (data cel) = map LStr (fields cel)) /\
  Forall (fun r => List.length r = List.length (columns (data cel))) (rows (data cel)).
Proof.
  unfold read_cel_file.
  destruct (scan (firstn 800 (read_lines text)) 0 (mkScan None [] None))
    as [e|st]; [discriminate|]. cbn [bind].
  destruct (sc_fields st) as [flds|]; [|discriminate].
  destruct (sc_endheader_idx st) as [idx|]; [|discriminate].
  destruct (read_csv text (S idx) flds) as [e|df] eqn:Ec; [discriminate|].
  cbn [bind]. intros E. apply CelFile_init_inv in E. destruct E as [cl [_ ->]].
  cbn [fields data CelFile_init]. unfold dropna_all. cbn [columns rows].
  destruct (read_csv_shape _ _ _ _ Ec) as (Hd & Hnames & _ & Hrows).
  split; [exact Hd|]. split; [exact Hnames|].
  apply Forall_forall. intros r Hr. apply filter_In in Hr.
  rewrite Forall_forall in Hrows. exact (Hrows r (proj1 Hr)).
Qed.

Lemma read_cel_file_table_shape_sample :
  exists cel : CelFile Z,
    read_cel_file "BL1.CEL" sample_bl1 = inr cel /\
    Forall (fun r => List.length r = List.length (columns (data cel))) (rows (data cel)).
Proof.
  assert (Hc : exists cel : CelFile Z, read_cel_file "BL1.CEL" sample_bl1 = inr cel)
    by (vm_compute; eexists; reflexivity).
  destruct Hc as [cel E]. exists cel. split; [exact E|].
  exact (proj2 (proj2 (read_cel_file_table_shape "BL1.CEL" sample_bl1 cel E))).
Defined.

(** X6 (CelFile.spike_times, pos_x, pos_y).  On a file that parses, the spike
    times are read exactly when "time" is a field, with one value per row,
    and otherwise the access raises KeyError for "time"; without both
    position fields the coordinates are absent and nothing is raised; with
    them both coordinate arrays are read, each with one value per row. *)
Theorem cel_accessors {V : Type} `{Float64 V} (path text : string) (cel : CelFile V) :
  read_cel_file path text = inr cel ->
  (str_in "time" (fields cel) = true ->
   exists ts, spike_times cel = inr ts /\
              List.length ts = List.length (rows (data cel))) /\
  (str_in "time" (fields cel) = false -> spike_times cel = inl (KeyError "time")) /\
  (has_position cel = false -> pos_x cel = inr None /\ pos_y cel = inr None) /\
  (has_position cel = true ->
   exists x y, pos_x cel = inr (Some x) /\ pos_y cel = inr (Some y) /\
               List.length x = List.length (rows (data cel)) /\
               List.length y = List.length (rows (data cel))).
Proof.
  intros E.
  pose proof (getitem_parsed path text cel "time" E) as Ht.
  pose proof (getitem_parsed path text cel "pos_x" E) as Hx.
  pose proof (getitem_parsed path text cel "pos_y" E) as Hy.
  pose proof (has_position_parsed path text cel E) as Hp.
  unfold spike_times, pos_x, pos_y, to_numeric. split; [|split; [|split]].
  - intros Hin. rewrite Hin in Ht. destruct Ht as [col [Ec El]]. rewrite Ec.
    cbn [bind ret]. eexists. split; [reflexivity|]. rewrite length_map. exact El.
  - intros Hin. rewrite Hin in Ht. rewrite Ht. reflexivity.
  - intros Hn. rewrite Hn. auto.
  - intros Hn. rewrite Hn. cbn [negb]. rewrite Hn in Hp. symmetry in Hp.
    apply andb_true_iff in Hp. destruct Hp as [Px Py].
    rewrite Px in Hx. rewrite Py in Hy.
    destruct Hx as [cx [Ex Lx]]. destruct Hy as [cy [Ey Ly]].
    rewrite Ex, Ey. cbn [bind ret]. do 2 eexists.
    split; [reflexivity|]. split; [reflexivity|].
    rewrite !length_map. auto.
Qed.

Lemma cel_accessors_sample :
  exists cel : CelFile Z,
    read_cel_file "ES1.CEL" sample_no_time = inr cel /\
    spike_times cel = inl (KeyError "time") /\
    exists x y, pos_x cel = inr (Some x) /\ pos_y cel = inr (Some y).
Proof.
  assert (Hc : exists cel : CelFile Z,
             read_cel_file "ES1.CEL" sample_no_time = inr cel /\
             str_in "time" (fields cel) = false /\ has_position cel = true)
    by (vm_compute; eexists; repeat split; reflexivity).
  destruct Hc as [cel [E [Ht Hp]]]. exists cel. split; [exact E|].
  destruct (cel_accessors "ES1.CEL" sample_no_time cel E) as (_ & Hno & _ & Hpos).
  split; [exact (Hno Ht)|].
  destruct (Hpos Hp) as (x & y & Ex & Ey & _). eauto.
Defined.

(** ** The tetrode directories *)

Lemma keyed_spec {A} (name : A -> string) (items : list A) :
  (forall dec, keyed name items = inr dec ->
     map snd dec = items /\
     Forall (fun p => tt_key (name (snd p)) = Some (fst p)) dec) /\
  (forall e, keyed name items = inl e ->
     (exists msg, e = ValueError msg) /\
     exists x, In x items /\ tt_key (name x) = None) /\
  ((forall x, In x items -> tt_key (name x) <> None) ->
   exists dec, keyed name items = inr dec).
Proof.
  induction items as [|item rest (IHr & IHl & IHt)].
  - split; [|split].
    + intros dec E. apply inr_inj in E. subst dec. split; [reflexivity | constructor].
    + intros e E. discriminate E.
    + intros _. eexists. reflexivity.
  - cbn [keyed]. destruct (tt_key (name item)) as [k|] eqn:Ek.
    + destruct (keyed name rest) as [e'|later]; cbn [bind ret].
      * split; [intros dec E; discriminate E|]. split.
        -- intros e E. apply inl_inj in E. subst e'.
           destruct (IHl e eq_refl) as [Hm [x [Hx Ex]]].
           split; [exact Hm|]. exists x. split; [right; exact Hx | exact Ex].
        -- intros Hall. destruct IHt as [dec Ed]; [|discriminate Ed].
           intros x Hx. apply Hall. right. exact Hx.
      * split; [|split].
        -- intros dec E. apply inr_inj in E. subst dec.
           destruct (IHr later eq_refl) as [Hm Hf]. cbn [map snd].
           split; [rewrite Hm; reflexivity|]. constructor; [exact Ek | exact Hf].
        -- intros e E. discriminate E.
        -- intros _. eexists. reflexivity.
    + split; [intros dec E; discriminate E|]. split.
      * intros e E. apply inl_inj in E. subst e. split; [eexists; reflexivity|].
        exists item. split; [left; reflexivity | exact Ek].
      * intros Hall. exfalso. apply (Hall item); [left; reflexivity | exact Ek].
Qed.

Lemma sorted_keys_names {A} (name : A -> string) (l : list (Z * A)) :
  Forall (fun p => tt_key (name (snd p)) = Some (fst p)) l ->
  StronglySorted (fun a b => (fst a <=? fst b) = true) l ->
  StronglySorted
    (fun a b => exists x y, tt_key (name a) = Some x /\ tt_key (name b) = Some y /\ x <= y)
    (map snd l).
Proof.
  induction l as [|p l IH]; intros Hk Hs; [constructor|].
  inversion Hk as [|? ? Hp Hl]. inversion Hs as [|? ? Hs' Hall]. subst.
  cbn [map]. constructor; [exact (IH Hl Hs')|].
  apply Forall_forall. intros n Hn. apply in_map_iff in Hn.
  destruct Hn as [q [<- Hq]]. rewrite Forall_forall in Hl, Hall.
  exists (fst p), (fst q). split; [exact Hp|]. split; [exact (Hl q Hq)|].
  apply Z.leb_le. exact (Hall q Hq).
Qed.

(** What the sort by number returns, and when it raises. *)
Lemma sorted_by_number_spec {A} (name : A -> string) (items : list A) :
  ((forall x, In x items -> tt_key (name x) <> None) ->
   exists l, sorted_by_number name items = inr l) /\
  (forall l, sorted_by_number name items = inr l ->
     Permutation items l /\
     StronglySorted
       (fun a b => exists x y,
            tt_key (name a) = Some x /\ tt_key (name b) = Some y /\ x <= y) l) /\
  (forall e, sorted_by_number name items = inl e ->
     (exists msg, e = ValueError msg) /\
     exists x, In x items /\ tt_key (name x) = None).
Proof.
  unfold sorted_by_number. destruct (keyed_spec name items) as (Hr & Hl & Ht).
  split; [|split].
  - intros Hall. destruct (Ht Hall) as [dec Ed]. rewrite Ed. cbn [bind ret]. eauto.
  - intros l. destruct (keyed name items) as [e|dec]; [discriminate|]. cbn [bind ret].
    intros E. apply inr_inj in E. subst l.
    destruct (Hr dec eq_refl) as [Hm Hf]. split.
    + rewrite <- Hm at 1. apply Permutation_map. apply stable_sort_perm.
    + apply sorted_keys_names.
      * apply Forall_forall. intros p Hp. apply stable_sort_in in Hp.
        rewrite Forall_forall in Hf. exact (Hf p Hp).
      * apply stable_sort_sorted.
        -- intros a b. destruct (Z.leb_spec (fst a) (fst b)); [left; reflexivity|].
           right. apply Z.leb_le. lia.
        -- intros a b c Hab Hbc. apply Z.leb_le in Hab. apply Z.leb_le in Hbc.
           apply Z.leb_le. lia.
  - intros e. destruct (keyed name items) as [e'|dec]; [|discriminate]. cbn [bind].
    intros E. apply inl_inj in E. subst e'. exact (Hl e eq_refl).
Qed.

(** X17 (convert_session and _add_rate_maps).  The tetrode directories
    are the entries that are directories and whose name starts with TT in
    any case of the letters.  When what follows the first two characters
    of each such name is an integer they are returned, all of them and no
    other, in ascending order of that integer (TT10 after TT2); and when
    one of these names has no integer there, sorting raises ValueError and
    no list is made. *)
Theorem tt_dirs_sorted (entries : list (string * bool)) :
  let found :=
    map fst (filter (fun p => snd p && PyStr.startswith "TT" (PyStr.upper (fst p)))
               entries) in
  ((forall n, In n found -> tt_key n <> None) ->
   exists dirs, tt_dirs entries = inr dirs) /\
  (forall dirs, tt_dirs entries = inr dirs ->
     Permutation found dirs /\
     StronglySorted
       (fun a b => exists x y, tt_key a = Some x /\ tt_key b = Some y /\ x <= y) dirs) /\
  (forall e, tt_dirs entries = inl e ->
     (exists msg, e = ValueError msg) /\
     exists n, In n found /\ tt_key n = None).
Proof.
  intros found. unfold tt_dirs. fold found.
  exact (sorted_by_number_spec (fun name => name) found).
Qed.

Example tt_dirs_examples :
  tt_dirs [("TT10", true); ("notes.txt", false); ("tt2", true); ("TT0", true);
           ("TT9.bak", false); ("LOGS", true)]
  = inr ["TT0"; "tt2"; "TT10"] /\
  exists msg, tt_dirs [("TT0", true); ("TT_old", true)] = inl (ValueError msg).
Proof. split; [reflexivity | eexists; reflexivity]. Qed.

(** ** When a session fails *)

Lemma in_firstn {A} (n : nat) (l : list A) (x : A) : In x (firstn n l) -> In x l.
Proof.
  revert l. induction n as [|n IH]; intros [|y l]; cbn; try tauto.
  intros [->|Hin]; [left; reflexivity | right; exact (IH l Hin)].
Qed.

Section SessionFailure.
Context {V : Type} `{Float64 V}.

Lemma parse_cel_paths_parsed (tt : string) (cel_paths : list (string * string))
    (p : string * CelFile V) :
  In p (parse_cel_paths tt cel_paths) ->
  fst p = tt /\
  exists f, In f cel_paths /\ read_cel_file (fst f) (snd f) = inr (snd p).
Proof.
  induction cel_paths as [|[path text] rest IH]; [intros []|].
  cbn [parse_cel_paths].
  destruct (read_cel_file path text) as [e|cel] eqn:E.
  - intros Hin. destruct (IH Hin) as [Ht [f [Hf Ef]]].
    split; [exact Ht|]. exists f. split; [right; exact Hf | exact Ef].
  - intros [<-|Hin].
    + split; [reflexivity|]. exists (path, text). split; [left; reflexivity | exact E].
    + destruct (IH Hin) as [Ht [f [Hf Ef]]].
      split; [exact Ht|]. exists f. split; [right; exact Hf | exact Ef].
Qed.

(** Every record of a session is a file of one of its directories, parsed
    without error, under the name of that directory. *)
Lemma all_cel_files_parsed (tt_dirs : list (string * list (string * string)))
    (stub_test : bool) (p : string * CelFile V) :
  In p (all_cel_files tt_dirs stub_test) ->
  exists d f, In d tt_dirs /\ fst p = fst d /\ In f (snd d) /\
              read_cel_file (fst f) (snd f) = inr (snd p).
Proof.
  unfold all_cel_files. rewrite in_flat_map. intros [d [Hd Hin]].
  apply parse_cel_paths_parsed in Hin. destruct Hin as [Ht [f [Hf Ef]]].
  exists d, f. split; [exact Hd|]. split; [exact Ht|]. split; [|exact Ef].
  destruct stub_test; [exact (in_firstn _ _ _ Hf) | exact Hf].
Qed.

Lemma unit_spikes_error (all : list (string * CelFile V)) :
  forall d e, unit_spikes all d = inl e ->
    exists p, In p all /\ spike_times (snd p) = inl e.
Proof.
  induction all as [|[tt cel] all IH]; intros d e E; [discriminate E|].
  cbn [unit_spikes] in E.
  destruct (spike_times cel) as [e'|ts] eqn:Et; cbn [bind] in E.
  - apply (f_equal (fun r => match r with inl x => x | inr _ => e end)) in E.
    subst e'. exists (tt, cel). split; [left; reflexivity | exact Et].
  - destruct (0 <? _)%nat; destruct (IH _ _ E) as [p [Hp Ep]];
      exists p; (split; [right; exact Hp | exact Ep]).
Qed.

Lemma unit_spikes_all_read (all : list (string * CelFile V)) :
  forall d d', unit_spikes all d = inr d' ->
    forall p, In p all -> exists ts, spike_times (snd p) = inr ts.
Proof.
  induction all as [|[tt cel] all IH]; intros d d' E p Hp; [destruct Hp|].
  cbn [unit_spikes] in E.
  destruct (spike_times cel) as [e'|ts] eqn:Et; [discriminate E|]. cbn [bind] in E.
  destruct Hp as [<-|Hp]; [eauto|].
  destruct (0 <? _)%nat; exact (IH _ _ E p Hp).
Qed.

End SessionFailure.

Section SessionSteps.
Context {V : Type} `{Float64 V}.

Lemma np_isnan_spec (t : seconds) :
  if in_64_bits t then np_isnan t = inr (isnan t)
  else exists msg, np_isnan t = inl (TypeError msg).
Proof.
  destruct t as [|z]; [reflexivity|]. cbn [in_64_bits np_isnan isnan].
  destruct ((- 2 ^ 63 <=? z) && (z <? 2 ^ 64)); [reflexivity | eexists; reflexivity].
Qed.

Lemma epoch_checks_ok (all : list (string * CelFile V)) :
  (forall p, In p all ->
     in_64_bits (start_time_sec (snd p)) = true /\
     in_64_bits (end_time_sec (snd p)) = true) ->
  epoch_checks all = inr tt.
Proof.
  induction all as [|[tt_name cel] all IH]; intros Hall; [reflexivity|].
  cbn [epoch_checks].
  destruct (Hall (tt_name, cel) (or_introl eq_refl)) as [Hs He]. cbn [snd] in Hs, He.
  pose proof (np_isnan_spec (start_time_sec cel)) as Ps. rewrite Hs in Ps.
  pose proof (np_isnan_spec (end_time_sec cel)) as Pe. rewrite He in Pe.
  rewrite Ps. cbn [bind].
  destruct (isnan (start_time_sec cel)); cbn [bind ret];
    [|rewrite Pe; cbn [bind]];
    apply IH; intros p Hp; apply Hall; right; exact Hp.
Qed.

Lemma epoch_checks_error (all : list (string * CelFile V)) (e : exn) :
  epoch_checks all = inl e ->
  (exists msg, e = TypeError msg) /\
  exists p, In p all /\
    (in_64_bits (start_time_sec (snd p)) = false \/
     in_64_bits (end_time_sec (snd p)) = false).
Proof.
  induction all as [|[tt_name cel] all IH]; [discriminate|]. cbn [epoch_checks].
  assert (Hrest : epoch_checks all = inl e ->
            (exists msg, e = TypeError msg) /\
            exists p, In p ((tt_name, cel) :: all) /\
              (in_64_bits (start_time_sec (snd p)) = false \/
               in_64_bits (end_time_sec (snd p)) = false)).
  { intros E. destruct (IH E) as [Hm [p [Hp Hb]]].
    split; [exact Hm|]. exists p. split; [right; exact Hp | exact Hb]. }
  pose proof (np_isnan_spec (start_time_sec cel)) as Ps.
  pose proof (np_isnan_spec (end_time_sec cel)) as Pe.
  destruct (in_64_bits (start_time_sec cel)) eqn:Hs.
  - rewrite Ps. cbn [bind].
    destruct (isnan (start_time_sec cel)); cbn [bind ret]; [exact Hrest|].
    destruct (in_64_bits (end_time_sec cel)) eqn:He.
    + rewrite Pe. cbn [bind]. exact Hrest.
    + destruct Pe as [msg Pe]. rewrite Pe. cbn [bind]. intros E.
      apply inl_inj in E. subst e. split; [eauto|].
      exists (tt_name, cel). split; [left; reflexivity | right; exact He].
  - destruct Ps as [msg Ps]. rewrite Ps. cbn [bind]. intros E.
    apply inl_inj in E. subst e. split; [eauto|].
    exists (tt_name, cel). split; [left; reflexivity | left; exact Hs].
Qed.

(** The directories kept and sorted are directories of the listing whose
    name starts with TT. *)
Lemma tt_dirs_of_in {A} (dirs tt_dirs : list (string * A)) (d : string * A) :
  tt_dirs_of dirs = inr tt_dirs -> In d tt_dirs ->
  In d dirs /\ PyStr.startswith "TT" (PyStr.upper (fst d)) = true.
Proof.
  unfold tt_dirs_of. intros E Hd.
  destruct (sorted_by_number_spec fst
              (filter (fun d => PyStr.startswith "TT" (PyStr.upper (fst d))) dirs))
    as (_ & Hs & _).
  destruct (Hs _ E) as [Hperm _].
  apply Permutation_sym in Hperm.
  apply (Permutation_in _ Hperm) in Hd. apply filter_In in Hd. exact Hd.
Qed.

Lemma tt_dirs_of_error {A} (dirs : list (string * A)) (e : exn) :
  tt_dirs_of dirs = inl e ->
  (exists msg, e = ValueError msg) /\
  exists name, In name (map fst dirs) /\
    PyStr.startswith "TT" (PyStr.upper name) = true /\ tt_key name = None.
Proof.
  unfold tt_dirs_of. intros E.
  destruct (sorted_by_number_spec fst
              (filter (fun d => PyStr.startswith "TT" (PyStr.upper (fst d))) dirs))
    as (_ & _ & He).
  destruct (He _ E) as [Hm [d [Hd Hk]]]. split; [exact Hm|].
  apply filter_In in Hd. destruct Hd as [Hd Htt].
  exists (fst d). split; [apply in_map; exact Hd|]. split; [exact Htt | exact Hk].
Qed.

Lemma tt_dirs_of_ok {A} (dirs : list (string * A)) :
  (forall name, In name (map fst dirs) ->
     PyStr.startswith "TT" (PyStr.upper name) = true -> tt_key name <> None) ->
  exists tt_dirs, tt_dirs_of dirs = inr tt_dirs.
Proof.
  intros Hall. unfold tt_dirs_of.
  apply (proj1 (sorted_by_number_spec fst _)).
  intros d Hd. apply filter_In in Hd. destruct Hd as [Hd Htt].
  apply Hall; [apply in_map; exact Hd | exact Htt].
Qed.

(** What the accessors of a record of a session do. *)
Lemma record_accessors (tt_dirs : list (string * list (string * string)))
    (stub_test : bool) (p : string * CelFile V) :
  In p (all_cel_files tt_dirs stub_test) ->
  (str_in "time" (fields (snd p)) = true ->
   exists ts, spike_times (snd p) = inr ts) /\
  (str_in "time" (fields (snd p)) = false ->
   spike_times (snd p) = inl (KeyError "time")) /\
  (has_position (snd p) = true ->
   (exists x, getitem (data (snd p)) "pos_x" = inr x) /\
   (exists y, getitem (data (snd p)) "pos_y" = inr y)).
Proof.
  intros Hp. destruct (all_cel_files_parsed _ _ _ Hp) as (d & f & _ & _ & _ & Ef).
  pose proof (getitem_parsed _ _ _ "time" Ef) as Ht.
  pose proof (getitem_parsed _ _ _ "pos_x" Ef) as Hx.
  pose proof (getitem_parsed _ _ _ "pos_y" Ef) as Hy.
  pose proof (has_position_parsed _ _ _ Ef) as Hpp.
  split; [|split].
  - intros Hin. rewrite Hin in Ht. destruct Ht as [col [Ec _]].
    unfold spike_times. rewrite Ec. eexists. reflexivity.
  - intros Hin. rewrite Hin in Ht. unfold spike_times. rewrite Ht. reflexivity.
  - intros Hn. rewrite Hn in Hpp. symmetry in Hpp.
    apply andb_true_iff in Hpp. destruct Hpp as [Px Py].
    rewrite Px in Hx. rewrite Py in Hy.
    destruct Hx as [cx [Ex _]]. destruct Hy as [cy [Ey _]]. eauto.
Qed.

End SessionSteps.

(** X7 (convert_session).  A session fails in one of three ways, and in
    no other: with ValueError from one of the two sorts of the tetrode
    directories, when a directory of the raw or of the analyzed root has a
    name that starts with TT and has no integer after these two letters;
    with TypeError from np.isnan, when a record has a start or end time
    that does not fit 64 bits; and with KeyError for "time", when a text
    file parses and has no time column.  When no directory name, time or
    field list is of that kind the session is converted, whatever else the
    files hold. *)
Theorem convert_session_failure {V : Type} `{Float64 V}
    (raw : list (string * list (string * string)))
    (analyzed : option (list (string * list (string * list byte))))
    (stub_test : bool) :
  (forall e, convert_session raw analyzed stub_test = inl e ->
     ((exists msg, e = ValueError msg) /\
      exists name,
        (In name (map fst raw) \/
         exists dirs, analyzed = Some dirs /\ In name (map fst dirs)) /\
        PyStr.startswith "TT" (PyStr.upper name) = true /\ tt_key name = None) \/
     (exists tt_dirs p,
        tt_dirs_of raw = inr tt_dirs /\ In p (all_cel_files tt_dirs stub_test) /\
        (((exists msg, e = TypeError msg) /\
          (in_64_bits (start_time_sec (snd p)) = false \/
           in_64_bits (end_time_sec (snd p)) = false)) \/
         (e = KeyError "time" /\ str_in "time" (fields (snd p)) = false)))) /\
  ((forall name,
      (In name (map fst raw) \/
       exists dirs, analyzed = Some dirs /\ In name (map fst dirs)) ->
      PyStr.startswith "TT" (PyStr.upper name) = true -> tt_key name <> None) ->
   (forall tt_dirs p,
      tt_dirs_of raw = inr tt_dirs -> In p (all_cel_files tt_dirs stub_test) ->
      in_64_bits (start_time_sec (snd p)) = true /\
      in_64_bits (end_time_sec (snd p)) = true /\
      str_in "time" (fields (snd p)) = true) ->
   exists s, convert_session raw analyzed stub_test = inr s).
Proof.
  assert (Hpos : forall tt_dirs,
            let all := all_cel_files tt_dirs stub_test in
            (forall p, In p all -> exists ts, spike_times (snd p) = inr ts) ->
            exists r, (if existsb (fun p => has_position (snd p)) all
                       then _add_position_data all else ret None) = inr r).
  { intros tt_dirs all Hall. destruct (existsb _ all); [|eexists; reflexivity].
    destruct (time_pos_pairs_total all) as [pool Ep].
    - intros p Hp Hpp. split; [exact (Hall p Hp)|].
      exact (proj2 (proj2 (record_accessors _ _ p Hp)) Hpp).
    - unfold _add_position_data. rewrite Ep. cbn [bind].
      destruct pool; eexists; reflexivity. }
  unfold convert_session. split.
  - intros e.
    destruct (tt_dirs_of raw) as [e0|tt_dirs] eqn:Er; cbn [bind].
    { intros E. apply inl_inj in E. subst e0. left.
      destruct (tt_dirs_of_error _ _ Er) as [Hm [name [Hn Hk]]].
      split; [exact Hm|]. exists name. split; [left; exact Hn | exact Hk]. }
    specialize (Hpos tt_dirs). cbv zeta in Hpos.
    set (all := all_cel_files tt_dirs stub_test) in *.
    destruct (epoch_checks all) as [e1|[]] eqn:Ee; cbn [bind].
    { intros E. apply inl_inj in E. subst e1. right.
      destruct (epoch_checks_error _ _ Ee) as [Hm [p [Hp Hb]]].
      exists tt_dirs, p. split; [reflexivity|]. split; [exact Hp|]. left. auto. }
    unfold units.
    destruct (unit_spikes all []) as [e2|d] eqn:Eu; cbn [bind ret].
    { intros E. apply inl_inj in E. subst e2. right.
      destruct (unit_spikes_error _ _ _ Eu) as [p [Hp Ep]].
      exists tt_dirs, p. split; [reflexivity|]. split; [exact Hp|]. right.
      destruct (record_accessors _ _ p Hp) as (Ht & Hn & _).
      destruct (str_in "time" (fields (snd p))) eqn:Hin.
      - destruct (Ht eq_refl) as [ts Ets]. congruence.
      - rewrite (Hn eq_refl) in Ep. apply inl_inj in Ep. auto. }
    destruct (Hpos (unit_spikes_all_read _ _ _ Eu)) as [r Er']. rewrite Er'.
    cbn [bind].
    destruct analyzed as [dirs|]; cbn [bind ret]; [|discriminate].
    unfold add_rate_maps_of_root.
    destruct (tt_dirs_of dirs) as [e3|sorted] eqn:Ea; cbn [bind ret]; [|discriminate].
    intros E. apply inl_inj in E. subst e3. left.
    destruct (tt_dirs_of_error _ _ Ea) as [Hm [name [Hn Hk]]].
    split; [exact Hm|]. exists name. split; [right; eauto | exact Hk].
  - intros Hnames Hrec.
    destruct (tt_dirs_of_ok raw) as [tt_dirs Er].
    { intros name Hn. apply Hnames. left. exact Hn. }
    rewrite Er. cbn [bind].
    specialize (Hpos tt_dirs). cbv zeta in Hpos.
    specialize (Hrec tt_dirs).
    set (all := all_cel_files tt_dirs stub_test) in *.
    rewrite epoch_checks_ok
      by (intros p Hp; destruct (Hrec p Er Hp) as (Hs & He & _); auto).
    cbn [bind].
    assert (Hread : forall p, In p all -> exists ts, spike_times (snd p) = inr ts).
    { intros p Hp. apply (proj1 (record_accessors _ _ p Hp)).
      exact (proj2 (proj2 (Hrec p Er Hp))). }
    destruct (unit_spikes_total all Hread []) as [d Ed].
    unfold units. rewrite Ed. cbn [bind ret].
    destruct (Hpos Hread) as [r Er']. rewrite Er'. cbn [bind].
    destruct analyzed as [dirs|]; cbn [bind ret]; [|eauto].
    unfold add_rate_maps_of_root.
    destruct (tt_dirs_of_ok dirs) as [sorted Ea].
    { intros name Hn. apply Hnames. right. eauto. }
    rewrite Ea. cbn [bind ret]. eauto.
Qed.

(** X8 (convert_session).  When the two sorts of the tetrode directories
    succeed, a session in which no text file parses is still converted:
    no epoch, no unit, no position trace, and the map table of the binary
    files. *)
Theorem convert_session_no_records {V : Type} `{Float64 V}
    (raw : list (string * list (string * string)))
    (analyzed : option (list (string * list (string * list byte))))
    (stub_test : bool)
    (tt_dirs : list (string * list (string * string)))
    (maps : option (list MapRow)) :
  tt_dirs_of raw = inr tt_dirs ->
  match analyzed with
  | Some dirs => add_rate_maps_of_root dirs stub_test
  | None => ret None
  end = inr maps ->
  (forall d f, In d raw -> In f (snd d) ->
     exists e, read_cel_file (V:=V) (fst f) (snd f) = inl e) ->
  convert_session (V:=V) raw analyzed stub_test = inr (mkSession [] [] None maps).
Proof.
  intros Er Ea Hfail.
  assert (Hall : all_cel_files (V:=V) tt_dirs stub_test = []).
  { destruct (all_cel_files tt_dirs stub_test) as [|p l] eqn:E; [reflexivity|]. exfalso.
    destruct (all_cel_files_parsed tt_dirs stub_test p) as (d & f & Hd & _ & Hf & Ef).
    - rewrite E. left. reflexivity.
    - destruct (tt_dirs_of_in _ _ d Er Hd) as [Hraw _].
      destruct (Hfail d f Hraw Hf) as [e Ee]. congruence. }
  unfold convert_session. rewrite Er. cbn [bind]. rewrite Hall. cbn.
  rewrite Ea. reflexivity.
Qed.

Lemma convert_session_no_records_sample :
  convert_session (V:=Z) sample_session_unparsable None false
  = inr (mkSession [] [] None None).
Proof.
  apply (convert_session_no_records (V:=Z) sample_session_unparsable None false
           sample_session_unparsable None).
  - reflexivity.
  - reflexivity.
  - intros d f Hd Hf. cbn in Hd.
    destruct Hd as [<-|[<-|[]]]; cbn in Hf; [|destruct Hf].
    destruct Hf as [<-|[]]. vm_compute. eexists. reflexivity.
Defined.

(** ** The table of maps *)

Lemma chunk_rows_sized {A} (nrows ncols : nat) (l : list A) :
  List.length l = (nrows * ncols)%nat -> sized nrows ncols (chunk_rows nrows ncols l).
Proof.
  revert l. induction nrows as [|n IH]; intros l Hl.
  - split; [reflexivity | constructor].
  - destruct (IH (skipn ncols l)) as [Hn Hr]; [rewrite length_skipn; lia|].
    cbn [chunk_rows]. split; [cbn [List.length]; rewrite Hn; reflexivity|].
    constructor; [|exact Hr]. rewrite length_firstn. lia.
Qed.

Lemma read_rma_file_unsized (path : string) (data : list byte) :
  List.length data <> RMA_FILE_SIZE ->
  read_rma_file path data = inl (UnexpectedBinarySize path (List.length data)).
Proof.
  intros Hne. unfold read_rma_file.
  destruct (Nat.eqb_spec (List.length data) RMA_FILE_SIZE); [contradiction | reflexivity].
Qed.

Lemma rma_rows_spec (tt : string) (paths : list (string * list byte)) :
  map (fun r => (row_tetrode r, row_source_file r)) (rma_rows tt paths)
  = map (fun x => (fst x, fst (snd x)))
      (filter map_sized (map (fun f => (tt, f)) paths)) /\
  Forall row_of_name (rma_rows tt paths).
Proof.
  induction paths as [|[path data] rest [IHn IHr]]; [split; [reflexivity | constructor]|].
  cbn [rma_rows map filter]. unfold map_sized at 1. cbn [fst snd].
  destruct (Nat.eqb_spec (List.length data) RMA_FILE_SIZE) as [Heq|Hne].
  - destruct (read_rma_file_sized path data Heq) as (fr & fo & _ & _ & Lfr & Lfo & E).
    rewrite E. cbn [map row_tetrode row_source_file fst snd rma_session_type cell_number
                    rate_map occupancy_map].
    split; [rewrite IHn; reflexivity|].
    constructor; [|exact IHr].
    unfold row_of_name. cbn [row_session_type row_cell_number row_source_file
                             row_rate_map row_occupancy_map].
    split; [reflexivity|]. split; [reflexivity|].
    split; apply (chunk_rows_sized 64 64); assumption.
  - rewrite (read_rma_file_unsized path data Hne). split; assumption.
Qed.

(** X9 (_add_rate_maps).  The table has one row for each listed file of 32768
    bytes, in the order of the listing, under the names of its directory
    and of the file; a file of another size leaves no row.  Every row has
    the task type and cell number read from the file name (-1 for no cell
    number) and two maps of 64 rows of 64 entries.  No table is made
    exactly when no listed file has 32768 bytes. *)
Theorem add_rate_maps_rows (tt_dirs : list (string * list (string * list byte)))
    (stub_test : bool) :
  let rows := table_rows (_add_rate_maps tt_dirs stub_test) in
  let kept := filter map_sized (listed tt_dirs stub_test) in
  map (fun r => (row_tetrode r, row_source_file r)) rows
  = map (fun x => (fst x, fst (snd x))) kept /\
  (forall r, In r rows ->
     row_session_type r = fst (_parse_rma_filename (row_source_file r)) /\
     row_cell_number r
     = match snd (_parse_rma_filename (row_source_file r)) with
       | Some n => n
       | None => -1
       end /\
     sized 64 64 (row_rate_map r) /\ sized 64 64 (row_occupancy_map r)) /\
  (_add_rate_maps tt_dirs stub_test = None <-> kept = []).
Proof.
  intros rows kept.
  set (all := flat_map (fun d => rma_rows (fst d)
                          (if stub_test then firstn 2 (snd d) else snd d)) tt_dirs).
  assert (Hrows : rows = all).
  { unfold rows, _add_rate_maps. fold all. destruct all; reflexivity. }
  assert (Hall : map (fun r => (row_tetrode r, row_source_file r)) all
                 = map (fun x => (fst x, fst (snd x))) kept /\
                 Forall row_of_name all).
  { unfold all, kept, listed. clear. induction tt_dirs as [|d tt_dirs [IHn IHr]].
    - split; [reflexivity | constructor].
    - cbn [flat_map]. rewrite filter_app, !map_app.
      destruct (rma_rows_spec (fst d) (if stub_test then firstn 2 (snd d) else snd d))
        as [Hn Hr].
      split; [rewrite Hn, IHn; reflexivity|].
      apply Forall_app. split; assumption. }
  destruct Hall as [Hn Hr]. rewrite Hrows. split; [exact Hn|]. split.
  - intros r Hin. rewrite Forall_forall in Hr. exact (Hr r Hin).
  - assert (Hnone : _add_rate_maps tt_dirs stub_test = None <-> all = []).
    { unfold _add_rate_maps. fold all. destruct all; split; intros E;
        try reflexivity; discriminate E. }
    rewrite Hnone. split; intros E.
    + rewrite E in Hn. destruct kept; [reflexivity | discriminate Hn].
    + rewrite E in Hn. destruct all; [reflexivity | discriminate Hn].
Qed.

(** ** The cell number of a map file *)

Lemma contains_app (ch : ascii) (a b : string) :
  PyStr.contains ch (a ++ b) = PyStr.contains ch a || PyStr.contains ch b.
Proof.
  induction a as [|c a IH]; [reflexivity|]. cbn [String.append PyStr.contains].
  rewrite IH, orb_assoc. reflexivity.
Qed.

Lemma upper_char_tilde (c : ascii) :
  PyStr.contains "~" (PyStr.upper_char c) = Ascii.eqb c "~".
Proof. destruct c as [[] [] [] [] [] [] [] []]; reflexivity. Qed.

Lemma contains_tilde_upper (s : string) :
  PyStr.contains "~" (PyStr.upper s) = PyStr.contains "~" s.
Proof.
  induction s as [|c s IH]; [reflexivity|]. cbn [PyStr.upper PyStr.contains].
  rewrite contains_app, upper_char_tilde, IH. reflexivity.
Qed.

Lemma prefix_app_inv (p s : string) : String.prefix p s = true -> exists r, s = p ++ r.
Proof.
  revert s. induction p as [|a p IH]; intros s; [exists s; reflexivity|].
  destruct s as [|b s]; [discriminate|]. cbn [String.prefix].
  destruct (ascii_dec a b) as [<-|]; [|discriminate].
  intros E. destruct (IH s E) as [r ->]. exists r. reflexivity.
Qed.

Lemma substring_all (s : string) : String.substring 0 (String.length s) s = s.
Proof.
  induction s as [|c s IH]; [reflexivity|]. cbn [String.length String.substring].
  rewrite IH. reflexivity.
Qed.

Lemma search_cell_cons (c : ascii) (s : string) :
  search_cell (String c s)
  = if PyStr.startswith "CELL~" (String c s)
    then match PyStr.take_digits
                 (String.substring 5 (String.length (String c s) - 5) (String c s)) with
         | EmptyString => search_cell s
         | String a b => Some (String a b)
         end
    else search_cell s.
Proof. reflexivity. Qed.

Lemma search_cell_some (s ds : string) :
  search_cell s = Some ds -> all_chars PyStr.isdigit ds = true /\ ds <> EmptyString.
Proof.
  induction s as [|c s IH]; [discriminate|]. rewrite search_cell_cons.
  destruct (PyStr.startswith "CELL~" (String c s)); [|exact IH].
  destruct (PyStr.take_digits _) as [|a b] eqn:Et; [exact IH|].
  intros E. injection E as <-. split; [|discriminate].
  rewrite <- Et. apply take_digits_digits.
Qed.

Lemma search_cell_no_tilde (s : string) :
  PyStr.contains "~" s = false -> search_cell s = None.
Proof.
  induction s as [|c s IH]; [reflexivity|]. intros Hc. rewrite search_cell_cons.
  assert (Hs : search_cell s = None).
  { apply IH. cbn [PyStr.contains] in Hc. apply orb_false_iff in Hc. exact (proj2 Hc). }
  destruct (PyStr.startswith "CELL~" (String c s)) eqn:Ep; [|exact Hs].
  apply prefix_app_inv in Ep. destruct Ep as [r E]. rewrite E in Hc. discriminate Hc.
Qed.

(** The search finds the first [CELL~] that digits follow when no [~]
    comes before it. *)
Lemma search_cell_first (pre ds post : string) :
  PyStr.contains "~" pre = false ->
  all_chars PyStr.isdigit ds = true -> ds <> EmptyString ->
  no_digit_ahead post = true ->
  search_cell (pre ++ "CELL~" ++ ds ++ post) = Some ds.
Proof.
  intros Hpre Hd Hne Hp. induction pre as [|c pre IH].
  - change (EmptyString ++ "CELL~" ++ ds ++ post)
      with (String "C" (String "E" (String "L" (String "L" (String "~" (ds ++ post)))))).
    rewrite search_cell_cons. unfold PyStr.startswith.
    cbn [String.prefix String.length Nat.sub String.substring].
    destruct (ascii_dec "C" "C"); [|congruence].
    destruct (ascii_dec "E" "E"); [|congruence].
    destruct (ascii_dec "L" "L"); [|congruence].
    destruct (ascii_dec "~" "~"); [|congruence].
    rewrite prefix_empty, Nat.sub_0_r, substring_all, (take_digits_app _ _ Hd Hp).
    destruct ds; [contradiction | reflexivity].
  - assert (Hs : PyStr.contains "~" pre = false).
    { cbn [PyStr.contains] in Hpre. apply orb_false_iff in Hpre. exact (proj2 Hpre). }
    change (String c pre ++ "CELL~" ++ ds ++ post)
      with (String c (pre ++ "CELL~" ++ ds ++ post)).
    rewrite search_cell_cons.
    destruct (PyStr.startswith "CELL~" (String c (pre ++ "CELL~" ++ ds ++ post))) eqn:Ep;
      [|exact (IH Hs)].
    exfalso. apply prefix_app_inv in Ep. destruct Ep as [r E].
    cbn [String.append] in E. injection E as -> E.
    destruct pre as [|c2 pre]; [discriminate E|]. injection E as -> E.
    destruct pre as [|c3 pre]; [discriminate E|]. injection E as -> E.
    destruct pre as [|c4 pre]; [discriminate E|]. injection E as -> E.
    destruct pre as [|c5 pre]; [discriminate E|]. injection E as -> E.
    discriminate Hpre.
Qed.

(** X10 (_parse_rma_filename).  A name without "~" has no cell number; in a name
    whose upper-case form holds CELL~ and digits, with no "~" before, the
    cell number is the number those digits write, all of them, whatever
    follows; and a cell number is never negative, so that the -1 written
    to the table for a missing cell number is not the number of a cell. *)
Theorem parse_rma_filename_cell (name : string) :
  (PyStr.contains "~" name = false -> snd (_parse_rma_filename name) = None) /\
  (forall pre ds post,
      PyStr.upper name = pre ++ "CELL~" ++ ds ++ post ->
      PyStr.contains "~" pre = false ->
      all_chars PyStr.isdigit ds = true -> ds <> EmptyString ->
      no_digit_ahead post = true ->
      snd (_parse_rma_filename name) = Some (decimal_value ds 0)) /\
  (forall n, snd (_parse_rma_filename name) = Some n -> 0 <= n).
Proof.
  unfold _parse_rma_filename. cbn [snd]. split; [|split].
  - intros Hc. rewrite search_cell_no_tilde; [reflexivity|].
    rewrite contains_tilde_upper. exact Hc.
  - intros pre ds post E Hpre Hd Hne Hp.
    rewrite E, (search_cell_first pre ds post Hpre Hd Hne Hp).
    exact (int_of_literal_digits ds Hd Hne).
  - intros n. destruct (search_cell (PyStr.upper name)) as [ds|] eqn:Es; [|discriminate].
    destruct (search_cell_some _ _ Es) as [Hd Hne].
    rewrite (int_of_literal_digits ds Hd Hne). intros E. injection E as <-.
    apply decimal_value_nonneg; [exact Hd | lia].
Qed.

Example parse_rma_filename_examples :
  _parse_rma_filename "ESCELL~1.RMA" = ("ES", Some 1) /\
  _parse_rma_filename "mccell~12.rma" = ("MC", Some 12) /\
  _parse_rma_filename "ES2BC0~1.RMA" = ("ES", None).
Proof. repeat split; reflexivity. Qed.

(** ** The electrodes of a unit *)

Lemma assoc_get_set_same {A} (k : string) (v : A) (d : list (string * A)) :
  assoc_get k (assoc_set k v d) = inr v.
Proof.
  induction d as [|[k' v'] d IH]; cbn [assoc_set assoc_get].
  - rewrite String.eqb_refl. reflexivity.
  - destruct (String.eqb k' k) eqn:E; cbn [assoc_get].
    + rewrite String.eqb_refl. reflexivity.
    + rewrite E. exact IH.
Qed.

Lemma assoc_get_set_other {A} (k k' : string) (v : A) (d : list (string * A)) :
  k <> k' -> assoc_get k (assoc_set k' v d) = assoc_get k d.
Proof.
  intros Hne.
  assert (Hk : String.eqb k' k = false) by (apply String.eqb_neq; congruence).
  induction d as [|[k0 v0] d IH]; cbn [assoc_set assoc_get].
  - rewrite Hk. reflexivity.
  - destruct (String.eqb k0 k') eqn:E; cbn [assoc_get].
    + apply String.eqb_eq in E. subst k0. rewrite Hk. reflexivity.
    + rewrite IH. reflexivity.
Qed.

Lemma electrode_tt_indices_from_spec (tt_names : list string) :
  forall idx d name,
    NoDup tt_names ->
    (~ In name tt_names ->
     assoc_get name (electrode_tt_indices_from tt_names idx d) = assoc_get name d) /\
    (forall i, nth_error tt_names i = Some name ->
     assoc_get name (electrode_tt_indices_from tt_names idx d)
     = inr (seq (idx + 4 * i) 4)).
Proof.
  induction tt_names as [|n tt_names IH]; intros idx d name Hnd.
  - split; [reflexivity|]. intros [|i]; discriminate.
  - inversion Hnd as [|? ? Hn Hnd']. subst.
    cbn [electrode_tt_indices_from].
    destruct (IH (idx + 4)%nat (assoc_set n (seq idx 4) d) name Hnd') as [Hout Hin].
    split.
    + intros Hnot. rewrite Hout by (intros Hi; apply Hnot; right; exact Hi).
      apply assoc_get_set_other. intros ->. apply Hnot. left. reflexivity.
    + intros [|i] Ei.
      * cbn [nth_error] in Ei. injection Ei as ->.
        rewrite Hout by exact Hn. rewrite assoc_get_set_same.
        replace (idx + 4 * 0)%nat with idx by lia. reflexivity.
      * cbn [nth_error] in Ei. rewrite (Hin i Ei).
        replace (idx + 4 + 4 * i)%nat with (idx + 4 * S i)%nat by lia. reflexivity.
Qed.

Lemma electrode_rows_nth (tt_names : list string) :
  forall i j name,
    nth_error tt_names i = Some name -> (4 * i <= j < 4 * i + 4)%nat ->
    nth_error (electrode_rows tt_names) j = Some name.
Proof.
  induction tt_names as [|n tt_names IH]; intros i j name Ei Hj;
    [destruct i; discriminate Ei|].
  change (electrode_rows (n :: tt_names))
    with (n :: n :: n :: n :: electrode_rows tt_names).
  destruct i as [|i].
  - cbn [nth_error] in Ei. injection Ei as ->.
    destruct j as [|[|[|[|j]]]]; try reflexivity. lia.
  - cbn [nth_error] in Ei.
    destruct j as [|[|[|[|j]]]]; try lia. cbn [nth_error].
    apply (IH i j name Ei). lia.
Qed.

Lemma group_times_member {V : Type} `{Float64 V} (all : list (string * CelFile V))
    (k : unit_key) :
  group_times all k <> [] -> exists p, In p all /\ fst p = fst k.
Proof.
  unfold group_times. induction all as [|p all IH]; [intros Hne; contradiction|].
  cbn [flat_map]. destruct (unit_key_eqb (unit_key_of p) k) eqn:E.
  - intros _. exists p. split; [left; reflexivity|].
    apply unit_key_eqb_eq in E. rewrite <- E. reflexivity.
  - cbn [app]. intros Hne. destruct (IH Hne) as [q [Hq Eq]].
    exists q. split; [right; exact Hq | exact Eq].
Qed.

(** X11 (convert_session).  The tetrode directories have distinct names.  For
    every unit added, the lookup of its tetrode in the electrode index
    succeeds: the unit comes from a file of the i-th directory, the lookup
    gives the four rows 4i .. 4i+3, and these are the rows of the electrode
    table that belong to the group of that tetrode. *)
Theorem unit_electrodes {V : Type} `{Float64 V}
    (raw : list (string * list (string * string))) (stub_test : bool)
    (us : list (string * Z * list V)) :
  NoDup (map fst raw) ->
  units (all_cel_files raw stub_test) = inr us ->
  forall tt cid ts, In (tt, cid, ts) us ->
    exists i,
      nth_error (map fst raw) i = Some tt /\
      assoc_get tt (electrode_tt_indices (map fst raw)) = inr (seq (4 * i) 4) /\
      forall j, In j (seq (4 * i) 4) ->
        nth_error (electrode_rows (map fst raw)) j = Some tt.
Proof.
  intros Hnd Eus tt cid ts Hin.
  destruct (units_rows _ _ Eus) as [d [Ed [_ Hrows]]].
  apply Hrows in Hin. destruct Hin as [Hk _].
  destruct (unit_spikes_spec _ _ _ Ed) as [_ [Hkeys _]].
  apply Hkeys in Hk. destruct Hk as [[]|Hne].
  destruct (group_times_member _ _ Hne) as [p [Hp Ep]]. cbn [fst] in Ep.
  destruct (all_cel_files_parsed _ _ _ Hp) as (dir & f & Hdir & Edir & _ & _).
  assert (Htt : In tt (map fst raw)).
  { rewrite <- Ep, Edir. apply in_map. exact Hdir. }
  apply In_nth_error in Htt. destruct Htt as [i Ei]. exists i.
  split; [exact Ei|]. split.
  - exact (proj2 (electrode_tt_indices_from_spec _ 0%nat [] tt Hnd) i Ei).
  - intros j Hj. apply in_seq in Hj.
    apply (electrode_rows_nth _ i j tt Ei). lia.
Qed.

Lemma unit_electrodes_sample :
  exists i,
    nth_error (map fst sample_session_tetrodes) i = Some "TT1" /\
    assoc_get "TT1" (electrode_tt_indices (map fst sample_session_tetrodes))
    = inr (seq (4 * i) 4) /\
    forall j, In j (seq (4 * i) 4) ->
      nth_error (electrode_rows (map fst sample_session_tetrodes)) j = Some "TT1".
Proof.
  assert (Hnd : NoDup (map fst sample_session_tetrodes)).
  { cbn. constructor; [intros [E|[]]; discriminate E|].
    constructor; [intros []|constructor]. }
  assert (Hu : exists (us : list (string * Z * list Z)) ts,
             units (all_cel_files sample_session_tetrodes false) = inr us /\
             In ("TT1", 5, ts) us).
  { vm_compute. do 2 eexists. split; [reflexivity|]. right. left. reflexivity. }
  destruct Hu as [us [ts [Eus Hin]]].
  exact (unit_electrodes sample_session_tetrodes false us Hnd Eus "TT1" 5 ts Hin).
Defined.

(** ** The table of sessions *)

Lemma assoc_get_in {A} (k : string) (d : list (string * A)) :
  In k (map fst d) -> exists v, assoc_get k d = inr v /\ In (k, v) d.
Proof.
  induction d as [|[k' v'] d IH]; [intros []|]. cbn [map fst assoc_get].
  destruct (String.eqb_spec k' k) as [->|Hne].
  - intros _. exists v'. split; [reflexivity | left; reflexivity].
  - intros [E|Hin]; [contradiction|]. destruct (IH Hin) as [v [Ev Hv]].
    exists v. split; [exact Ev | right; exact Hv].
Qed.

Lemma assoc_get_not_in {A} (k : string) (d : list (string * A)) :
  ~ In k (map fst d) -> assoc_get k d = inl (KeyError k).
Proof.
  induction d as [|[k' v'] d IH]; [reflexivity|]. cbn [map fst assoc_get].
  intros Hnot. destruct (String.eqb_spec k' k) as [->|Hne].
  - exfalso. apply Hnot. left. reflexivity.
  - apply IH. intros Hin. apply Hnot. right. exact Hin.
Qed.

(** X12 (get_session_metadata and convert_all).  The subjects of a default run
    are the keys of the table of sessions, in the order of the table, so
    that the metadata lookup succeeds exactly on them and raises KeyError
    for any other folder name; the record returned carries the folder
    name, an empty recording directory and a date that the datetime
    constructor accepts; and a run given no subjects, or an empty list of
    them, reports on all eight. *)
Theorem get_session_metadata_subjects (s : string) :
  (In s SUBJECTS <-> exists m, get_session_metadata s = inr m) /\
  (~ In s SUBJECTS -> get_session_metadata s = inl (KeyError s)) /\
  (forall m, get_session_metadata s = inr m ->
     subject_folder m = s /\ recording_directory m = EmptyString /\
     datetime_ok (session_date m) = true) /\
  (forall (A : Type) (convert : string -> result A),
     map fst (convert_all convert None) = SUBJECTS /\
     map fst (convert_all convert (Some [])) = SUBJECTS).
Proof.
  assert (Hkeys : map fst SUBJECT_SESSION_MAP = SUBJECTS) by reflexivity.
  assert (Hdates : Forall (fun e => datetime_ok (snd (fst (snd e))) = true)
                     SUBJECT_SESSION_MAP).
  { repeat constructor. }
  assert (Hout : ~ In s SUBJECTS -> get_session_metadata s = inl (KeyError s)).
  { intros Hnot. unfold get_session_metadata.
    rewrite assoc_get_not_in by (rewrite Hkeys; exact Hnot). reflexivity. }
  split; [|split; [exact Hout|split]].
  - split.
    + intros Hin. rewrite <- Hkeys in Hin.
      destruct (assoc_get_in _ _ Hin) as [v [Ev _]].
      unfold get_session_metadata. rewrite Ev. cbn [bind ret]. eauto.
    + intros [m Em]. destruct (in_dec string_dec s SUBJECTS) as [Hin|Hnot]; [exact Hin|].
      rewrite (Hout Hnot) in Em. discriminate Em.
  - intros m. unfold get_session_metadata.
    destruct (in_dec string_dec s (map fst SUBJECT_SESSION_MAP)) as [Hin|Hnot].
    + destruct (assoc_get_in _ _ Hin) as [v [Ev Hv]]. rewrite Ev. cbn [bind ret].
      intros E. apply inr_inj in E. subst m.
      cbn [subject_folder recording_directory session_date].
      split; [reflexivity|]. split; [reflexivity|].
      rewrite Forall_forall in Hdates. exact (Hdates _ Hv).
    + rewrite (assoc_get_not_in _ _ Hnot). discriminate.
  - intros A convert. unfold convert_all. rewrite !map_map. cbn [fst].
    rewrite map_id. split; reflexivity.
Qed.

(** ** The start of a recording read from a directory name *)

Lemma expect_app (lit s : string) : expect lit (lit ++ s) = Some s.
Proof.
  induction lit as [|a lit IH]; [reflexivity|]. cbn [String.append expect].
  rewrite Ascii.eqb_refl. exact IH.
Qed.

Lemma digit_val_range (c : ascii) (v : Z) : PyStr.digit_val c = Some v -> 0 <= v <= 9.
Proof.
  unfold PyStr.digit_val, PyStr.isdigit.
  destruct (_ && _)%bool eqn:E; [|discriminate].
  apply andb_true_iff in E. destruct E as [Hlo Hhi].
  apply N.leb_le in Hlo, Hhi. intros Ev. injection Ev as <-. lia.
Qed.

Lemma digit_val_digit_char (k : Z) :
  0 <= k <= 9 -> PyStr.digit_val (digit_char k) = Some k.
Proof.
  intros Hk.
  assert (Hc : k = 0 \/ k = 1 \/ k = 2 \/ k = 3 \/ k = 4 \/
               k = 5 \/ k = 6 \/ k = 7 \/ k = 8 \/ k = 9) by lia.
  repeat (destruct Hc as [->|Hc]; [reflexivity|]). subst k. reflexivity.
Qed.

Lemma two_digits_fmt2 (n : Z) (rest : string) :
  0 <= n < 100 -> two_digits (fmt2 n ++ rest) = Some (n, rest).
Proof.
  intros Hn. unfold fmt2. cbn [String.append two_digits].
  rewrite !digit_val_digit_char by (Z.div_mod_to_equations; lia).
  f_equal. f_equal. Z.div_mod_to_equations. lia.
Qed.

Lemma two_digits_range (s rest : string) (n : Z) :
  two_digits s = Some (n, rest) -> 0 <= n <= 99.
Proof.
  unfold two_digits. destruct s as [|a [|b r]]; try discriminate.
  destruct (PyStr.digit_val a) as [x|] eqn:Ex; [|discriminate].
  destruct (PyStr.digit_val b) as [y|] eqn:Ey; [|discriminate].
  apply digit_val_range in Ex. apply digit_val_range in Ey.
  intros E. assert (En : n = 10 * x + y) by congruence. lia.
Qed.

Lemma match_e100_range (s : string) (month day year_2d hour minute : Z) :
  match_e100 s = Some (month, day, year_2d, hour, minute) ->
  0 <= year_2d <= 99.
Proof.
  unfold match_e100.
  destruct (expect "e100-" s) as [s1|]; [|discriminate].
  destruct (two_digits s1) as [[mo s2]|]; [|discriminate].
  destruct (expect "." s2) as [s3|]; [|discriminate].
  destruct (two_digits s3) as [[da s4]|]; [|discriminate].
  destruct (expect "." s4) as [s5|]; [|discriminate].
  destruct (two_digits s5) as [[y2 s6]|] eqn:Ey; [|discriminate].
  destruct (expect "-" s6) as [s7|]; [|discriminate].
  destruct (two_digits s7) as [[ho s8]|]; [|discriminate].
  destruct (expect ":" s8) as [s9|]; [|discriminate].
  destruct (two_digits s9) as [[mi s10]|]; [|discriminate].
  intros E. injection E as _ _ <- _ _. exact (two_digits_range _ _ _ Ey).
Qed.

Lemma search_e100_cons (c : ascii) (s : string) :
  search_e100 (String c s)
  = match match_e100 (String c s) with
    | Some m => Some m
    | None => search_e100 s
    end.
Proof. reflexivity. Qed.

Lemma search_e100_range (s : string) (month day year_2d hour minute : Z) :
  search_e100 s = Some (month, day, year_2d, hour, minute) ->
  0 <= year_2d <= 99.
Proof.
  induction s as [|c s IH].
  - cbn [search_e100]. destruct (match_e100 EmptyString) eqn:E; [|discriminate].
    intros Em. injection Em as ->. exact (match_e100_range _ _ _ _ _ _ E).
  - rewrite search_e100_cons. destruct (match_e100 (String c s)) eqn:E; [|exact IH].
    intros Em. injection Em as ->. exact (match_e100_range _ _ _ _ _ _ E).
Qed.

Lemma match_e100_no_e (c : ascii) (s : string) :
  Ascii.eqb c "e" = false -> match_e100 (String c s) = None.
Proof.
  intros Hc. unfold match_e100. cbn [expect]. rewrite Hc. reflexivity.
Qed.

Lemma search_e100_skip (pre s : string) :
  PyStr.contains "e" pre = false -> search_e100 (pre ++ s) = search_e100 s.
Proof.
  induction pre as [|c pre IH]; [reflexivity|]. cbn [PyStr.contains String.append].
  intros Hc. apply orb_false_iff in Hc. destruct Hc as [Hc Hpre].
  rewrite search_e100_cons, (match_e100_no_e c _ Hc). exact (IH Hpre).
Qed.

Lemma search_e100_none (s : string) :
  PyStr.contains "e" s = false -> search_e100 s = None.
Proof.
  induction s as [|c s IH]; [reflexivity|]. cbn [PyStr.contains].
  intros Hc. apply orb_false_iff in Hc. destruct Hc as [Hc Hs].
  rewrite search_e100_cons, (match_e100_no_e c _ Hc). exact (IH Hs).
Qed.

Lemma match_e100_name (month day year_2d hour minute : Z) (post : string) :
  0 <= month < 100 -> 0 <= day < 100 -> 0 <= year_2d < 100 ->
  0 <= hour < 100 -> 0 <= minute < 100 ->
  match_e100 ("e100-" ++ fmt2 month ++ "." ++ fmt2 day ++ "." ++ fmt2 year_2d
                ++ "-" ++ fmt2 hour ++ ":" ++ fmt2 minute ++ post)
  = Some (month, day, year_2d, hour, minute).
Proof.
  intros Hmo Hda Hy Hho Hmi. unfold match_e100.
  rewrite (expect_app "e100-"), (two_digits_fmt2 month) by exact Hmo.
  rewrite (expect_app "."), (two_digits_fmt2 day) by exact Hda.
  rewrite (expect_app "."), (two_digits_fmt2 year_2d) by exact Hy.
  rewrite (expect_app "-"), (two_digits_fmt2 hour) by exact Hho.
  rewrite (expect_app ":"), (two_digits_fmt2 minute) by exact Hmi.
  reflexivity.
Qed.

Lemma days_in_month_le (year month : Z) : days_in_month year month <= 31.
Proof.
  unfold days_in_month.
  destruct (month =? 2); [destruct (is_leap year); lia|].
  destruct (_ || _)%bool; lia.
Qed.

(** X13 (parse_session_datetime_from_directory).  The name that a recording
    started at a valid date of the years 1951 to 2050 gives its directory
    (e100-MM.DD.YY-HH:MM) is read back as that date, two-digit year
    included, whatever follows the name and whatever precedes it that has
    no letter e. *)
Theorem parse_session_datetime_round_trip (d : datetime) (pre post : string) :
  datetime_ok d = true ->
  1951 <= dt_year d <= 2050 ->
  PyStr.contains "e" pre = false ->
  parse_session_datetime_from_directory (pre ++ e100_name d ++ post) = inr (Some d).
Proof.
  intros Hok Hy Hpre. destruct d as [year month day hour minute].
  cbn [dt_year] in Hy. pose proof Hok as Hok'.
  unfold datetime_ok in Hok'.
  cbn [dt_year dt_month dt_day dt_hour dt_minute] in Hok'.
  repeat (apply andb_true_iff in Hok'; destruct Hok' as [Hok' ?]).
  repeat match goal with
         | Hb : (_ <=? _) = true |- _ => apply Z.leb_le in Hb
         end.
  pose proof (days_in_month_le year month) as Hdm.
  unfold parse_session_datetime_from_directory.
  rewrite (search_e100_skip pre _ Hpre).
  unfold e100_name. cbn [dt_year dt_month dt_day dt_hour dt_minute].
  rewrite !string_app_assoc.
  assert (Hs : search_e100
                 ("e100-" ++ fmt2 month ++ "." ++ fmt2 day ++ "." ++ fmt2 (year mod 100)
                    ++ "-" ++ fmt2 hour ++ ":" ++ fmt2 minute ++ post)
               = Some (month, day, year mod 100, hour, minute)).
  { change ("e100-" ++ fmt2 month ++ "." ++ fmt2 day ++ "." ++ fmt2 (year mod 100)
              ++ "-" ++ fmt2 hour ++ ":" ++ fmt2 minute ++ post)
      with (String "e" ("100-" ++ fmt2 month ++ "." ++ fmt2 day ++ "."
                          ++ fmt2 (year mod 100)
                          ++ "-" ++ fmt2 hour ++ ":" ++ fmt2 minute ++ post)).
    rewrite search_e100_cons.
    change (String "e" ("100-" ++ fmt2 month ++ "." ++ fmt2 day ++ "."
                          ++ fmt2 (year mod 100)
                          ++ "-" ++ fmt2 hour ++ ":" ++ fmt2 minute ++ post))
      with ("e100-" ++ fmt2 month ++ "." ++ fmt2 day ++ "." ++ fmt2 (year mod 100)
              ++ "-" ++ fmt2 hour ++ ":" ++ fmt2 minute ++ post).
    rewrite match_e100_name; [reflexivity|lia|lia| |lia|lia].
    Z.div_mod_to_equations. lia. }
  rewrite Hs.
  assert (Hyear : (if 50 <? year mod 100 then 1900 + year mod 100
                   else 2000 + year mod 100) = year).
  { destruct (Z.ltb_spec 50 (year mod 100)); Z.div_mod_to_equations; lia. }
  rewrite Hyear. unfold make_datetime. rewrite Hok. reflexivity.
Qed.

Lemma parse_session_datetime_round_trip_sample :
  parse_session_datetime_from_directory "/data/SHUTTLE/e100-04.20.98-09:57/TT0"
  = inr (Some (mkDatetime 1998 4 20 9 57)).
Proof.
  apply (parse_session_datetime_round_trip (mkDatetime 1998 4 20 9 57)
           "/data/SHUTTLE/" "/TT0").
  - reflexivity.
  - cbn. lia.
  - reflexivity.
Defined.

(** X14 (parse_session_datetime_from_directory).  A name without the letter e
    gives no date.  A date that is returned passed the checks of the
    datetime constructor and lies in the years 1951 to 2050: a two-digit
    year above 50 is read in the 1900s, any other in the 2000s.  The only
    error is the ValueError of the constructor, for a name that matches
    with a month, day, hour or minute out of range. *)
Theorem parse_session_datetime_window (directory : string) :
  (PyStr.contains "e" directory = false ->
   parse_session_datetime_from_directory directory = inr None) /\
  (forall d, parse_session_datetime_from_directory directory = inr (Some d) ->
     datetime_ok d = true /\ 1951 <= dt_year d <= 2050 /\
     exists month day year_2d hour minute,
       search_e100 directory = Some (month, day, year_2d, hour, minute) /\
       dt_year d mod 100 = year_2d /\
       (dt_month d, dt_day d, dt_hour d, dt_minute d) = (month, day, hour, minute)) /\
  (forall e, parse_session_datetime_from_directory directory = inl e ->
     (exists msg, e = ValueError msg) /\
     exists month day year_2d hour minute,
       search_e100 directory = Some (month, day, year_2d, hour, minute) /\
       (month < 1 \/ 12 < month \/ day < 1 \/ 23 < hour \/ 59 < minute \/
        days_in_month (if 50 <? year_2d then 1900 + year_2d else 2000 + year_2d) month
        < day)).
Proof.
  unfold parse_session_datetime_from_directory. split; [|split].
  - intros Hc. rewrite (search_e100_none _ Hc). reflexivity.
  - intros d. destruct (search_e100 directory) as [[[[[mo da] y2] ho] mi]|] eqn:Es;
      [|discriminate].
    pose proof (search_e100_range _ _ _ _ _ _ Es) as Hy.
    set (year := if 50 <? y2 then 1900 + y2 else 2000 + y2).
    assert (Hyr : 1951 <= year <= 2050 /\ year mod 100 = y2).
    { unfold year. destruct (Z.ltb_spec 50 y2); (split; [lia|]);
        Z.div_mod_to_equations; lia. }
    clearbody year. unfold make_datetime.
    destruct (datetime_ok _) eqn:Hok; [|discriminate]. cbn [bind ret].
    intros E. apply inr_inj in E.
    assert (Ed : d = mkDatetime year mo da ho mi) by congruence. subst d.
    split; [exact Hok|]. cbn [dt_year dt_month dt_day dt_hour dt_minute].
    split; [exact (proj1 Hyr)|].
    exists mo, da, y2, ho, mi. split; [reflexivity|]. split; [exact (proj2 Hyr)|reflexivity].
  - intros e. destruct (search_e100 directory) as [[[[[mo da] y2] ho] mi]|] eqn:Es;
      [|discriminate].
    pose proof (search_e100_range _ _ _ _ _ _ Es) as Hy.
    unfold make_datetime.
    destruct (datetime_ok _) eqn:Hok; [discriminate|]. cbn [bind raise].
    intros E. split; [eexists; symmetry; exact (inl_inj _ _ E)|].
    exists mo, da, y2, ho, mi. split; [reflexivity|].
    unfold datetime_ok in Hok. cbn [dt_year dt_month dt_day dt_hour dt_minute] in Hok.
    set (year := if 50 <? y2 then 1900 + y2 else 2000 + y2) in *.
    assert (Hyr : 1951 <= year <= 2050) by (unfold year; destruct (Z.ltb_spec 50 y2); lia).
    destruct (Z.leb_spec 1 year); [|lia].
    destruct (Z.leb_spec year 9999); [|lia].
    destruct (Z.leb_spec 1 mo); [|lia].
    destruct (Z.leb_spec mo 12); [|lia].
    destruct (Z.leb_spec 1 da); [|lia].
    destruct (Z.leb_spec da (days_in_month year mo)); [|lia].
    destruct (Z.leb_spec ho 23); [|lia].
    destruct (Z.leb_spec mi 59); [|lia].
    cbn [andb] in Hok.
    (* what is left are the lower bounds of hour and minute *)
    exfalso.
    assert (Hlow : 0 <= ho /\ 0 <= mi).
    { clear - Es. revert Es. generalize directory. intros s. induction s as [|c s IH].
      - discriminate.
      - rewrite search_e100_cons.
        destruct (match_e100 (String c s)) as [m|] eqn:Em; [|exact IH].
        intros E. injection E as ->. revert Em. unfold match_e100.
        destruct (expect "e100-" _) as [s1|]; [|discriminate].
        destruct (two_digits s1) as [[? s2]|]; [|discriminate].
        destruct (expect "." s2) as [s3|]; [|discriminate].
        destruct (two_digits s3) as [[? s4]|]; [|discriminate].
        destruct (expect "." s4) as [s5|]; [|discriminate].
        destruct (two_digits s5) as [[? s6]|]; [|discriminate].
        destruct (expect "-" s6) as [s7|]; [|discriminate].
        destruct (two_digits s7) as [[h s8]|] eqn:Eh; [|discriminate].
        destruct (expect ":" s8) as [s9|]; [|discriminate].
        destruct (two_digits s9) as [[m' s10]|] eqn:Emi; [|discriminate].
        intros E. injection E as _ _ _ <- <-.
        apply two_digits_range in Eh. apply two_digits_range in Emi. lia. }
    destruct Hlow as [Hh Hm].
    destruct (Z.leb_spec 0 ho); [|lia]. destruct (Z.leb_spec 0 mi); [|lia].
    discriminate Hok.
Qed.

(** ** The field list *)

Lemma split1_spec (ch : ascii) (s lhs rhs : string) (rest : list string) :
  PyStr.split1 ch s = lhs :: rhs :: rest ->
  s = lhs ++ String ch rhs /\ PyStr.contains ch lhs = false /\ rest = [].
Proof.
  revert lhs. induction s as [|c s IH]; intros lhs; [discriminate|].
  cbn [PyStr.split1]. destruct (Ascii.eqb_spec c ch) as [->|Hne].
  - intros E. injection E as <- <- <-. repeat split; reflexivity.
  - destruct (PyStr.split1 ch s) as [|h t] eqn:Es; [discriminate|].
    intros E.
    assert (El : lhs = String c h /\ t = rhs :: rest) by (injection E; auto).
    destruct El as [-> ->]. destruct (IH h eq_refl) as (Es' & Hc & Hr).
    split; [cbn [String.append]; rewrite <- Es'; reflexivity|].
    split; [|exact Hr]. cbn [PyStr.contains]. rewrite Hc.
    destruct (Ascii.eqb_spec c ch); [contradiction | reflexivity].
Qed.

Lemma all_chars_app (p : ascii -> bool) (a b : string) :
  all_chars p (a ++ b) = all_chars p a && all_chars p b.
Proof.
  induction a as [|c a IH]; [reflexivity|]. cbn [String.append all_chars].
  rewrite IH, andb_assoc. reflexivity.
Qed.

Lemma split_ws_aux_words (s : string) :
  forall cur,
    all_chars (fun c => negb (PyStr.isspace c)) cur = true ->
    Forall (fun w => w <> EmptyString /\
                     all_chars (fun c => negb (PyStr.isspace c)) w = true)
      (PyStr.split_ws_aux s cur).
Proof.
  induction s as [|c s IH]; intros cur Hcur; cbn [PyStr.split_ws_aux].
  - destruct cur; cbn [PyStr.is_empty]; constructor; [|constructor].
    split; [discriminate | exact Hcur].
  - destruct (PyStr.isspace c) eqn:Hc.
    + destruct cur; cbn [PyStr.is_empty]; [apply IH; reflexivity|].
      constructor; [split; [discriminate | exact Hcur]|]. apply IH. reflexivity.
    + apply IH. rewrite all_chars_app, Hcur. cbn [all_chars]. rewrite Hc. reflexivity.
Qed.

(** What one line does to the field list. *)
Lemma scan_line_fields (s : string) (st st1 : scan_state) :
  scan_line s st = inr st1 ->
  if fields_re s
  then exists lhs rhs rest,
         PyStr.split1 ":" s = lhs :: rhs :: rest /\
         sc_fields st1 = Some (PyStr.split_ws (PyStr.strip rhs))
  else sc_fields st1 = sc_fields st.
Proof.
  unfold scan_line. destruct (fields_re s) eqn:Hre.
  - rewrite andb_false_r. cbn [bind ret].
    destruct (PyStr.split1 ":" s) as [|a [|rhs l]]; try discriminate.
    intros E. apply inr_inj in E. subst st1. cbn [sc_fields]. eauto.
  - rewrite andb_true_r.
    destruct (PyStr.startswith "%" s && PyStr.contains ":" s).
    + destruct (PyStr.split1 ":" (PyStr.strip (PyStr.lstrip_char "%" s)))
        as [|k [|v [|x l]]]; cbn [bind ret raise]; try discriminate.
      intros E. apply inr_inj in E. subst st1. reflexivity.
    + cbn [bind ret]. intros E. apply inr_inj in E. subst st1. reflexivity.
Qed.

Lemma scan_fields (lines : list string) :
  forall i st st',
    scan lines i st = inr st' ->
    (sc_fields st' = sc_fields st /\
     forall x, In x (scan_window lines) -> fields_re (PyStr.strip x) = false) \/
    (exists pre l post lhs rhs rest,
       scan_window lines = (pre ++ l :: post)%list /\
       fields_re (PyStr.strip l) = true /\
       (forall x, In x post -> fields_re (PyStr.strip x) = false) /\
       PyStr.split1 ":" (PyStr.strip l) = lhs :: rhs :: rest /\
       sc_fields st' = Some (PyStr.split_ws (PyStr.strip rhs))).
Proof.
  induction lines as [|line rest IH]; intros i st st' E.
  - cbn in E. apply inr_inj in E. subst st'. left. split; [reflexivity | intros x []].
  - cbn [scan scan_window] in *.
    destruct (scan_line (PyStr.strip line) st) as [e|st1] eqn:E1; [discriminate E|].
    cbn [bind] in E. pose proof (scan_line_fields _ _ _ E1) as Hf.
    destruct (String.eqb (PyStr.strip line) ENDHEADER).
    + apply inr_inj in E. subst st'. cbn [sc_fields].
      destruct (fields_re (PyStr.strip line)) eqn:Hre.
      * destruct Hf as (lhs & rhs & r & Es & Ef). right.
        exists [], line, [], lhs, rhs, r. cbn [app].
        split; [reflexivity|]. split; [exact Hre|]. split; [intros x []|]. auto.
      * left. split; [exact Hf|]. intros x [<-|[]]. exact Hre.
    + destruct (IH _ _ _ E) as [[Ef Hnone]|(pre & l & post & lhs & rhs & r & Ew & Hl & Hpost & Es & Ef)].
      * destruct (fields_re (PyStr.strip line)) eqn:Hre.
        -- destruct Hf as (lhs & rhs & r & Es & Ef1). right.
           exists [], line, (scan_window rest), lhs, rhs, r. cbn [app].
           split; [reflexivity|]. split; [exact Hre|]. split; [exact Hnone|].
           split; [exact Es|]. rewrite Ef. exact Ef1.
        -- left. split; [rewrite Ef; exact Hf|].
           intros x [<-|Hin]; [exact Hre | exact (Hnone x Hin)].
      * right. exists (line :: pre), l, post, lhs, rhs, r.
        split; [rewrite Ew; reflexivity|]. auto.
Qed.

(** X15 (read_cel_file).  The fields of a file that parses are declared by the
    last Fields line among the lines scanned (the first 800, up to the
    sentinel line): they are the words, split at white space, of what
    follows the first colon of that line; an earlier Fields line is
    overridden and one after the sentinel is not seen.  No field name is
    empty or holds white space. *)
Theorem read_cel_file_fields {V : Type} `{Float64 V}
    (path text : string) (cel : CelFile V) :
  read_cel_file path text = inr cel ->
  (exists pre l post lhs rhs,
     scan_window (firstn 800 (read_lines text)) = (pre ++ l :: post)%list /\
     fields_re (PyStr.strip l) = true /\
     (forall x, In x post -> fields_re (PyStr.strip x) = false) /\
     PyStr.strip l = lhs ++ String ":" rhs /\
     PyStr.contains ":" lhs = false /\
     fields cel = PyStr.split_ws (PyStr.strip rhs)) /\
  Forall (fun w => w <> EmptyString /\
                   all_chars (fun c => negb (PyStr.isspace c)) w = true)
    (fields cel).
Proof.
  unfold read_cel_file.
  destruct (scan (firstn 800 (read_lines text)) 0 (mkScan None [] None))
    as [e|st] eqn:Es; [discriminate|]. cbn [bind].
  destruct (sc_fields st) as [flds|] eqn:Ef; [|discriminate].
  destruct (sc_endheader_idx st) as [idx|]; [|discriminate].
  destruct (read_csv text (S idx) flds) as [e|df]; [discriminate|].
  cbn [bind]. intros E. apply CelFile_init_inv in E. destruct E as [cl [_ ->]].
  cbn [fields CelFile_init].
  destruct (scan_fields _ _ _ _ Es)
    as [[Ef' _]|(pre & l & post & lhs & rhs & r & Ew & Hl & Hpost & Esp & Ef')].
  - cbn [sc_fields] in Ef'. congruence.
  - assert (Eflds : flds = PyStr.split_ws (PyStr.strip rhs)) by congruence.
    destruct (split1_spec _ _ _ _ _ Esp) as (El & Hc & _).
    split.
    + exists pre, l, post, lhs, rhs. auto 10.
    + rewrite Eflds. apply split_ws_aux_words. reflexivity.
Qed.

Lemma read_cel_file_fields_sample :
  exists cel : CelFile Z,
    read_cel_file "BL1.CEL" sample_bl1 = inr cel /\
    Forall (fun w => w <> EmptyString /\
                     all_chars (fun c => negb (PyStr.isspace c)) w = true)
      (fields cel).
Proof.
  assert (Hc : exists cel : CelFile Z, read_cel_file "BL1.CEL" sample_bl1 = inr cel)
    by (vm_compute; eexists; reflexivity).
  destruct Hc as [cel E]. exists cel. split; [exact E|].
  exact (proj2 (read_cel_file_fields "BL1.CEL" sample_bl1 cel E)).
Defined.

(** ** A stub run *)

Lemma parse_cel_paths_length {V : Type} `{Float64 V}
    (tt : string) (paths : list (string * string)) :
  (List.length (parse_cel_paths (V:=V) tt paths) <= List.length paths)%nat.
Proof.
  induction paths as [|[path text] rest IH]; [apply Nat.le_refl|].
  cbn [parse_cel_paths List.length].
  destruct (read_cel_file path text); cbn [List.length]; lia.
Qed.

Lemma rma_rows_length (tt : string) (paths : list (string * list byte)) :
  (List.length (rma_rows tt paths) <= List.length paths)%nat.
Proof.
  induction paths as [|[path data] rest IH]; [apply Nat.le_refl|].
  cbn [rma_rows List.length].
  destruct (read_rma_file path data); cbn [List.length]; lia.
Qed.

Lemma all_cel_files_first_two {V : Type} `{Float64 V}
    (raw : list (string * list (string * string))) :
  all_cel_files (V:=V) raw true = all_cel_files (first_two raw) false.
Proof.
  unfold all_cel_files, first_two.
  induction raw as [|d raw IH]; [reflexivity|].
  cbn [map flat_map fst snd]. rewrite IH. reflexivity.
Qed.

Lemma add_rate_maps_first_two (tt_dirs : list (string * list (string * list byte))) :
  _add_rate_maps tt_dirs true = _add_rate_maps (first_two tt_dirs) false.
Proof.
  unfold _add_rate_maps, first_two.
  replace (flat_map (fun d => rma_rows (fst d) (snd d))
             (map (fun d => (fst d, firstn 2 (snd d))) tt_dirs))
    with (flat_map (fun d : string * list (string * list byte) =>
                      rma_rows (fst d) (firstn 2 (snd d))) tt_dirs);
    [reflexivity|].
  induction tt_dirs as [|d tt_dirs IH]; [reflexivity|].
  cbn [map flat_map fst snd]. rewrite IH. reflexivity.
Qed.

Lemma insert_sorted_map {A B} (le : A -> A -> bool) (le' : B -> B -> bool)
    (g : A -> B) :
  (forall a b, le' (g a) (g b) = le a b) ->
  forall x l, insert_sorted le' (g x) (map g l) = map g (insert_sorted le x l).
Proof.
  intros Hle x l. induction l as [|y l IH]; [reflexivity|].
  cbn [map insert_sorted]. rewrite Hle.
  destruct (le x y); [reflexivity|]. cbn [map]. rewrite IH. reflexivity.
Qed.

Lemma stable_sort_map {A B} (le : A -> A -> bool) (le' : B -> B -> bool)
    (g : A -> B) :
  (forall a b, le' (g a) (g b) = le a b) ->
  forall l, stable_sort le' (map g l) = map g (stable_sort le l).
Proof.
  intros Hle l. induction l as [|x l IH]; [reflexivity|].
  cbn [map stable_sort]. rewrite IH. apply insert_sorted_map. exact Hle.
Qed.

Lemma keyed_map {A B} (name : A -> string) (name' : B -> string) (g : A -> B) :
  (forall a, name' (g a) = name a) ->
  forall items,
    keyed name' (map g items)
    = match keyed name items with
      | inl e => inl e
      | inr dec => inr (map (fun p => (fst p, g (snd p))) dec)
      end.
Proof.
  intros Hn items. induction items as [|x items IH]; [reflexivity|].
  cbn [map keyed]. rewrite Hn, IH.
  destruct (tt_key (name x)); [|reflexivity].
  destruct (keyed name items); reflexivity.
Qed.

Lemma sorted_by_number_map {A B} (name : A -> string) (name' : B -> string)
    (g : A -> B) :
  (forall a, name' (g a) = name a) ->
  forall items,
    sorted_by_number name' (map g items)
    = match sorted_by_number name items with
      | inl e => inl e
      | inr l => inr (map g l)
      end.
Proof.
  intros Hn items. unfold sorted_by_number. rewrite (keyed_map name name' g Hn).
  destruct (keyed name items) as [e|dec]; [reflexivity|]. cbn [bind ret].
  rewrite (stable_sort_map (fun a b : Z * A => fst a <=? fst b)
             (fun a b : Z * B => fst a <=? fst b)
             (fun p => (fst p, g (snd p)))) by reflexivity.
  rewrite !map_map. reflexivity.
Qed.

Lemma filter_map_comm {A B} (p : A -> bool) (q : B -> bool) (g : A -> B) (l : list A) :
  (forall a, q (g a) = p a) -> filter q (map g l) = map g (filter p l).
Proof.
  intros Hq. induction l as [|x l IH]; [reflexivity|]. cbn [map filter].
  rewrite Hq, IH. destruct (p x); reflexivity.
Qed.

Lemma tt_dirs_of_first_two {A} (dirs : list (string * list A)) :
  tt_dirs_of (first_two dirs)
  = match tt_dirs_of dirs with
    | inl e => inl e
    | inr l => inr (first_two l)
    end.
Proof.
  unfold tt_dirs_of, first_two.
  rewrite (filter_map_comm
             (fun d : string * list A => PyStr.startswith "TT" (PyStr.upper (fst d))))
    by reflexivity.
  apply (sorted_by_number_map fst fst). reflexivity.
Qed.

Lemma add_rate_maps_of_root_first_two (dirs : list (string * list (string * list byte))) :
  add_rate_maps_of_root dirs true = add_rate_maps_of_root (first_two dirs) false.
Proof.
  unfold add_rate_maps_of_root. rewrite tt_dirs_of_first_two.
  destruct (tt_dirs_of dirs) as [e|l]; [reflexivity|]. cbn [bind ret].
  rewrite add_rate_maps_first_two. reflexivity.
Qed.

(** X16 (convert_session and _add_rate_maps with stub_test).  A stub run gives
    what a full run gives on the listing cut to the first two files of
    every tetrode directory, text and binary; so it reads at most two text
    files and writes at most two map rows for each directory. *)
Theorem stub_test_first_two {V : Type} `{Float64 V}
    (raw : list (string * list (string * string)))
    (analyzed : option (list (string * list (string * list byte)))) :
  convert_session (V:=V) raw analyzed true
  = convert_session (first_two raw) (option_map first_two analyzed) false /\
  (List.length (all_cel_files (V:=V) raw true) <= 2 * List.length raw)%nat /\
  (forall tt_dirs,
     (List.length (table_rows (_add_rate_maps tt_dirs true))
      <= 2 * List.length tt_dirs)%nat).
Proof.
  split; [|split].
  - unfold convert_session. rewrite tt_dirs_of_first_two.
    destruct (tt_dirs_of raw) as [e|tt_dirs]; [reflexivity|]. cbn [bind].
    rewrite all_cel_files_first_two.
    destruct analyzed as [dirs|]; cbn [option_map]; [|reflexivity].
    rewrite add_rate_maps_of_root_first_two. reflexivity.
  - unfold all_cel_files. induction raw as [|d raw IH]; [apply Nat.le_refl|].
    cbn [flat_map List.length]. rewrite length_app.
    pose proof (parse_cel_paths_length (V:=V) (fst d) (firstn 2 (snd d))) as Hd.
    pose proof (firstn_le_length 2 (snd d)) as Hf.
    rewrite length_firstn in Hd. lia.
  - intros tt_dirs.
    assert (Hrows : (List.length
                       (flat_map (fun d : string * list (string * list byte) =>
                                    rma_rows (fst d) (firstn 2 (snd d))) tt_dirs)
                     <= 2 * List.length tt_dirs)%nat).
    { induction tt_dirs as [|d tt_dirs IH]; [apply Nat.le_refl|].
      cbn [flat_map List.length]. rewrite length_app.
      pose proof (rma_rows_length (fst d) (firstn 2 (snd d))) as Hd.
      rewrite length_firstn in Hd. lia. }
    unfold _add_rate_maps.
    destruct (flat_map _ tt_dirs) eqn:E; cbn [table_rows]; [cbn; lia | exact Hrows].
Qed.
